(** * Stock reconciliation service: line-scan parsers, quantity aggregator
      and record reconciliation engine.

    Shallow embedding of [app/services/pdf_parser.py],
    [app/services/transformation.py] and [app/services/comparison.py].

    Conventions of the embedding.
    - A Python [str] is a [string]; a character is a code point below 256.
      Comparison of two [str] in Python is lexicographic on code points,
      which is [String.compare] here.
    - Quantities are integers ([Z]); a nullable numeric cell ([None], [NaN])
      is [option Z] with [None] for the null.  The sum of two numbers of
      a data frame is a parameter of the embedding ([Num]): it is the sum
      of the integers while no magnitude exceeds 2^53, and is rounded or
      wrapped beyond, depending on the dtypes of the columns.
    - An exception raised under [try] is [None]: the failure to open or
      to read a document, and the [ValueError] of [int] on a number of
      more than 4300 digits.
    - A Python [dict] is an insertion-ordered association list ([dict]).
    - A data frame is the list of its rows in positional order. *)

From Stdlib Require Import ZArith Lia List Bool Ascii String Permutation Sorted.
Import ListNotations.
Local Open Scope string_scope.
Local Open Scope Z_scope.

Set Implicit Arguments.

(* ================================================================== *)
(** * Characters and strings (Python [str] methods) *)
(* ================================================================== *)

Module Py.

(** [c.isspace()], also the class [\s] of [re] on [str] patterns:
    TAB, LF, VT, FF, CR, FS, GS, RS, US, SPACE, NEL and NBSP. *)
Definition is_space (c : ascii) : bool :=
  let n := nat_of_ascii c in
  ((9 <=? n) && (n <=? 13) || (28 <=? n) && (n <=? 32)
   || (n =? 133) || (n =? 160))%nat.

(** The class [\d]: the decimal digits. *)
Definition is_digit (c : ascii) : bool :=
  let n := nat_of_ascii c in ((48 <=? n) && (n <=? 57))%nat.

Definition is_char (a c : ascii) : bool := Ascii.eqb a c.

Definition is_one_of (cs : string) (c : ascii) : bool :=
  existsb (Ascii.eqb c) (list_ascii_of_string cs).

(** [c.upper()] on the letters a to z.  Of the code points below 256,
    Python also maps the letters from 224 to 254 to the letters from 192
    to 222, 223 to "SS", and 181 and 255 to letters above 255: neither
    these characters nor their images are digits, whitespace or letters
    that a pattern of this program mentions, so that the searches of
    [extract_units_from_description] find the same digits. *)
Definition upper_char (c : ascii) : ascii :=
  let n := nat_of_ascii c in
  if ((97 <=? n) && (n <=? 122))%nat then ascii_of_nat (n - 32) else c.

Fixpoint upper (s : string) : string :=
  match s with
  | EmptyString => EmptyString
  | String c s' => String (upper_char c) (upper s')
  end.

(** [s.lstrip(chars)], [s.rstrip(chars)] and [s.strip(chars)] for a
    character class [p]. *)
Fixpoint lstrip_by (p : ascii -> bool) (s : string) : string :=
  match s with
  | EmptyString => EmptyString
  | String c s' => if p c then lstrip_by p s' else s
  end.

Fixpoint rstrip_by (p : ascii -> bool) (s : string) : string :=
  match s with
  | EmptyString => EmptyString
  | String c s' =>
      match rstrip_by p s' with
      | EmptyString => if p c then EmptyString else String c EmptyString
      | t => String c t
      end
  end.

Definition strip_by (p : ascii -> bool) (s : string) : string :=
  rstrip_by p (lstrip_by p s).

(** [s.strip()] *)
Definition strip (s : string) : string := strip_by is_space s.

(** [s.split()]: the maximal runs of non-space characters.  [cur] is the
    word being read, in reverse. *)
Fixpoint split_ws_aux (s : string) (cur : list ascii) : list string :=
  let flush := match cur with
               | [] => []
               | _ => [string_of_list_ascii (rev cur)]
               end in
  match s with
  | EmptyString => flush
  | String c s' =>
      if is_space c then flush ++ split_ws_aux s' []
      else split_ws_aux s' (c :: cur)
  end.

Definition split_ws (s : string) : list string := split_ws_aux s [].

(** [sep.join(ws)] *)
Fixpoint join (sep : string) (ws : list string) : string :=
  match ws with
  | [] => EmptyString
  | [w] => w
  | w :: ws' => w ++ sep ++ join sep ws'
  end.

(** [sub in s] *)
Fixpoint contains (sub s : string) : bool :=
  String.prefix sub s
  || match s with
     | EmptyString => false
     | String _ s' => contains sub s'
     end.

(** The value of a string of decimal digits. *)
Definition digit_val (c : ascii) : Z := Z.of_nat (nat_of_ascii c - 48).

Fixpoint int_acc (s : string) (acc : Z) : Z :=
  match s with
  | EmptyString => acc
  | String c s' => int_acc s' (10 * acc + digit_val c)
  end.

Definition int_value (s : string) : Z := int_acc s 0.

(** [sys.int_info.default_max_str_digits] *)
Definition max_str_digits : Z := 4300.

(** [int(s)] on a string of decimal digits: a [ValueError] ([None]) when
    the string has more than [max_str_digits] digits, its value
    otherwise. *)
Definition int (s : string) : option Z :=
  if Z.of_nat (String.length s) <=? max_str_digits
  then Some (int_value s)
  else None.

(** [str(n)] and [format(n)] for an integer. *)
Fixpoint digits_of_pos_fuel (fuel : nat) (n : Z) (acc : string) : string :=
  match fuel with
  | O => acc
  | S f =>
      let acc' := String (ascii_of_nat (48 + Z.to_nat (n mod 10))) acc in
      if n <? 10 then acc' else digits_of_pos_fuel f (n / 10) acc'
  end.

Definition str_of_Z (n : Z) : string :=
  if n <? 0
  then String "-" (digits_of_pos_fuel (S (Z.to_nat (Z.log2 (- n)))) (- n) "")
  else digits_of_pos_fuel (S (Z.to_nat (Z.log2 n))) n "".

End Py.

(* ================================================================== *)
(** * Regular expressions ([re.match], [re.search], [re.sub]) *)
(* ================================================================== *)

Module Re.

(** The fragment of the pattern language the program uses.  Repetition is
    over a character class only and is greedy; [Grp] is the (single)
    capturing group; [Eos] is [$]. *)
Inductive re : Type :=
| Eps
| Cls (p : ascii -> bool)
| Seq (a b : re)
| Alt (a b : re)
| Star (p : ascii -> bool)
| Opt (a : re)
| Grp (a : re)
| Eos.

Definition Plus (p : ascii -> bool) : re := Seq (Cls p) (Star p).
Definition Lit (c : ascii) : re := Cls (Py.is_char c).

Fixpoint Str (s : string) : re :=
  match s with
  | EmptyString => Eps
  | String c s' => Seq (Lit c) (Str s')
  end.

Fixpoint Rep (n : nat) (a : re) : re :=
  match n with
  | O => Eps
  | S n' => Seq a (Rep n' a)
  end.

(** The characters of [s] that come before its suffix [rest]. *)
Definition consumed (s rest : string) : string :=
  substring 0 (String.length s - String.length rest) s.

(** Backtracking matcher in continuation-passing style: alternatives are
    tried in the order of the engine ([a] before [b], one more repetition
    before stopping, the optional part before skipping it) and the first
    one whose continuation succeeds is the match. *)
Fixpoint run {A : Type} (r : re) (s : string) (cap : option string)
    (k : option string -> string -> option A) : option A :=
  match r with
  | Eps => k cap s
  | Cls p =>
      match s with
      | String c s' => if p c then k cap s' else None
      | EmptyString => None
      end
  | Seq a b => run a s cap (fun cap1 s1 => run b s1 cap1 k)
  | Alt a b =>
      match run a s cap k with
      | Some x => Some x
      | None => run b s cap k
      end
  | Star p =>
      (fix go (t : string) : option A :=
         match t with
         | String c t' =>
             if p c
             then match go t' with
                  | Some x => Some x
                  | None => k cap t
                  end
             else k cap t
         | EmptyString => k cap t
         end) s
  | Opt a =>
      match run a s cap k with
      | Some x => Some x
      | None => k cap s
      end
  | Grp a => run a s cap (fun _ s1 => k (Some (consumed s s1)) s1)
  | Eos =>
      match s with
      | EmptyString => k cap s
      | String c EmptyString => if Py.is_char "010" c then k cap s else None
      | _ => None
      end
  end.

(** A match object: the text of group 1 and the text after the match. *)
Record mobj : Type := MObj { group1 : option string; after : string }.

(** [re.match(r, s)] *)
Definition rmatch (r : re) (s : string) : option mobj :=
  run r s None (fun cap rest => Some (MObj cap rest)).

(** [re.search(r, s)]: the match at the leftmost position that has one. *)
Fixpoint search (r : re) (s : string) : option mobj :=
  match rmatch r s with
  | Some m => Some m
  | None =>
      match s with
      | EmptyString => None
      | String _ s' => search r s'
      end
  end.

(** [re.sub(r, repl, s)].  [skip] counts the characters of the current
    match still to be dropped. *)
Fixpoint sub_aux (r : re) (repl : string) (s : string) (skip : nat) : string :=
  match skip with
  | S n =>
      match s with
      | EmptyString => EmptyString
      | String _ s' => sub_aux r repl s' n
      end
  | O =>
      match rmatch r s with
      | Some m =>
          match (String.length s - String.length (after m))%nat with
          | O =>
              match s with
              | EmptyString => repl
              | String c s' => repl ++ String c (sub_aux r repl s' 0)
              end
          | S n =>
              match s with
              | EmptyString => repl
              | String _ s' => repl ++ sub_aux r repl s' n
              end
          end
      | None =>
          match s with
          | EmptyString => EmptyString
          | String c s' => String c (sub_aux r repl s' 0)
          end
      end
  end.

Definition sub (r : re) (repl s : string) : string := sub_aux r repl s 0.

End Re.

(* ================================================================== *)
(** * Python dictionaries *)
(* ================================================================== *)

Module Dict.

Section Defs.
Variable V : Type.

(** Items in insertion order; a key occurs at most once. *)
Definition dict : Type := list (string * V).

Definition empty : dict := [].

(** [d.get(k)] *)
Fixpoint get (k : string) (d : dict) : option V :=
  match d with
  | [] => None
  | (k', v) :: d' => if String.eqb k k' then Some v else get k d'
  end.

(** [k in d] *)
Definition mem (k : string) (d : dict) : bool :=
  match get k d with Some _ => true | None => false end.

(** [d[k] = v]: an existing key keeps its position. *)
Fixpoint set (k : string) (v : V) (d : dict) : dict :=
  match d with
  | [] => [(k, v)]
  | (k', v') :: d' =>
      if String.eqb k k' then (k', v) :: d' else (k', v') :: set k v d'
  end.

Definition keys (d : dict) : list string := map fst d.

(** [dict(zip(ks, vs))]: a later item overwrites an earlier one. *)
Definition of_items (kvs : list (string * V)) : dict :=
  fold_left (fun d kv => set (fst kv) (snd kv) d) kvs empty.
End Defs.

Arguments empty {V}.

End Dict.

Abbreviation dict := Dict.dict.

(* ================================================================== *)
(** * Numbers of the data frames *)
(* ================================================================== *)

Module Num.

(** The numbers that [comparison.py] and [transformation.py] add are
    cells of data frames and values read from them.  Depending on the
    dtypes that [read_excel] and [to_numeric] inferred for the columns,
    a sum is a sum of Python integers (exact), of [float64] values
    (rounded to 53 significant bits) or of [int64] values (wrapped at
    64 bits), and storing a Python integer in a [float64] column rounds
    it.  The three agree on the integers of magnitude at most 2^53,
    where they give the sum of the integers. *)
Definition safe (z : Z) : Prop := Z.abs z <= 2 ^ 53.


(** What is known of a sum and of a conversion of the data frames. *)
Definition exact_add (add : Z -> Z -> Z) : Prop :=
  forall x y, safe x -> safe y -> safe (x + y) -> add x y = x + y.

Definition exact_cast (cast : Z -> Z) : Prop :=
  forall x, safe x -> cast x = x.

(** The [float64] nearest to an integer, ties going to the even
    significand. *)
Definition round_float64 (z : Z) : Z :=
  let a := Z.abs z in
  if a <? 2 ^ 53 then z
  else
    let ulp := 2 ^ (Z.log2 a - 52) in
    let m := a / ulp in
    let r := a mod ulp in
    let m' := if 2 * r <? ulp then m
              else if ulp <? 2 * r then m + 1
              else if Z.even m then m else m + 1 in
    Z.sgn z * (m' * ulp).

(** The sum of two [float64] values that are integers. *)
Definition float64_add (x y : Z) : Z := round_float64 (x + y).

(** The sum of two [int64] values. *)
Definition int64_add (x y : Z) : Z := (x + y + 2 ^ 63) mod 2 ^ 64 - 2 ^ 63.

End Num.

(* ================================================================== *)
(** * pdf_parser.py: PDFParserService *)
(* ================================================================== *)

Module PDFParserService.

Import Re.

Definition d : re := Cls Py.is_digit.
Definition ds : re := Plus Py.is_digit.
Definition ws : re := Plus Py.is_space.
Definition ws0 : re := Star Py.is_space.

(** [\d+(?:[,\.]\d+)?(?:G|KG)X(\d+)U(?:N)?] *)
Definition re_units_weight : re :=
  Seq ds (Seq (Opt (Seq (Cls (Py.is_one_of ",.")) ds))
    (Seq (Alt (Str "G") (Str "KG"))
      (Seq (Lit "X") (Seq (Grp ds) (Seq (Lit "U") (Opt (Lit "N"))))))).

(** [X(\d+)UN] *)
Definition re_units_x_un : re :=
  Seq (Lit "X") (Seq (Grp ds) (Str "UN")).

(** [\s+X\s+(\d+)\s*$] *)
Definition re_units_trailing : re :=
  Seq ws (Seq (Lit "X") (Seq ws (Seq (Grp ds) (Seq ws0 Eos)))).

(** [(\d+)UN] *)
Definition re_units_un : re := Seq (Grp ds) (Str "UN").

(** [\s+X\s+\d+\s*$] *)
Definition re_trailing_x : re :=
  Seq ws (Seq (Lit "X") (Seq ws (Seq ds (Seq ws0 Eos)))).

(** [\s*\d+(?:,\d+)?(?:G|KG)X\d+U(?:N)?\s*] *)
Definition re_unit_info : re :=
  Seq ws0 (Seq ds (Seq (Opt (Seq (Lit ",") ds))
    (Seq (Alt (Str "G") (Str "KG"))
      (Seq (Lit "X") (Seq ds (Seq (Lit "U") (Seq (Opt (Lit "N")) ws0))))))).

(** [^([12]\d{6})$] *)
Definition re_code : re :=
  Seq (Grp (Seq (Cls (Py.is_one_of "12")) (Rep 6 d))) Eos.

(** [^(\d+)[,.]0{3}$] *)
Definition re_qty_nf : re :=
  Seq (Grp ds) (Seq (Cls (Py.is_one_of ",.")) (Seq (Rep 3 (Lit "0")) Eos)).

(** [^(\d+)[,.]0{3}\s*$] *)
Definition re_qty_pedido : re :=
  Seq (Grp ds)
    (Seq (Cls (Py.is_one_of ",.")) (Seq (Rep 3 (Lit "0")) (Seq ws0 Eos))).

(** [^\d{2,3}$] *)
Definition re_item : re := Seq d (Seq d (Seq (Opt d) Eos)).

(** [int(match.group(1))]; [None] when it raises. *)
Definition group_int (m : mobj) : option Z :=
  match group1 m with Some g => Py.int g | None => None end.

(** [None] when the conversion of the units raises. *)
Definition extract_units_from_description (description : string)
    : option Z :=
  match description with
  | EmptyString => Some 1
  | _ =>
      let desc_upper := Py.upper description in
      match search re_units_weight desc_upper with
      | Some m => group_int m
      | None =>
      match search re_units_x_un desc_upper with
      | Some m => group_int m
      | None =>
      match search re_units_trailing desc_upper with
      | Some m => group_int m
      | None =>
      match search re_units_un desc_upper with
      | Some m => group_int m
      | None => Some 1
      end end end end
  end.

Definition normalize_description (description : string) : string :=
  match description with
  | EmptyString => ""
  | _ =>
      let desc := sub re_trailing_x "" description in
      let desc := sub re_unit_info " " desc in
      Py.join " " (Py.split_ws desc)
  end.

(** The two result dictionaries of a parser. *)
Definition result : Type := (dict Z * dict string)%type.

Definition empty_result : result := (Dict.empty, Dict.empty).

(** [lines[i]] for an index in range. *)
Definition line_at (lines : list string) (i : nat) : string :=
  nth i lines "".

(** [range(lo, hi)] *)
Definition range (lo hi : nat) : list nat := seq lo (hi - lo).

(** The loop over the lookahead window: the quantity of the first line
    that matches, 0 when the loop ends without a [break]; [None] when
    the conversion of the quantity raises. *)
Fixpoint scan_qty (pat : re) (lines : list string) (js : list nat)
    : option Z :=
  match js with
  | [] => Some 0
  | j :: js' =>
      match rmatch pat (Py.strip (line_at lines j)) with
      | Some m => group_int m
      | None => scan_qty pat lines js'
      end
  end.

(** The update of the two dictionaries shared by both parsers, under
    [if qty > 0]. *)
Definition record_item (product_code description : string)
    (units_per_package qty : Z) (acc : result) : result :=
  let '(quantities, descriptions) := acc in
  if 0 <? qty then
    let total_units := qty * units_per_package in
    match Dict.get product_code quantities with
    | Some q => (Dict.set product_code (q + total_units) quantities,
                 descriptions)
    | None => (Dict.set product_code total_units quantities,
               Dict.set product_code (normalize_description description)
                 descriptions)
    end
  else acc.

(** The body of the [while] loop of [parse_nf_pdf] at index [i]: the
    dictionaries after the body, [None] when the body raises. *)
Definition nf_step (lines : list string) (acc : result) (i : nat)
    : option result :=
  let n := List.length lines in
  let line := Py.strip (line_at lines i) in
  match rmatch re_code line with
  | Some code_match =>
      match group1 code_match with
      | Some product_code =>
          if (i + 1 <? n)%nat then
            let description := Py.strip (line_at lines (i + 1)) in
            match extract_units_from_description description with
            | Some units_per_package =>
                match scan_qty re_qty_nf lines
                        (range (i + 2) (Nat.min (i + 10) n)) with
                | Some qty =>
                    Some (record_item product_code description
                            units_per_package qty acc)
                | None => None
                end
            | None => None
            end
          else Some acc
      | None => Some acc
      end
  | None => Some acc
  end.

(** The body of the [while] loop of [parse_pedido_pdf] at index [i]. *)
Definition pedido_step (lines : list string) (acc : result) (i : nat)
    : option result :=
  let n := List.length lines in
  let line := Py.strip (line_at lines i) in
  match rmatch re_item line with
  | Some _ =>
      match Py.int line with
      | Some item =>
          if (item mod 10 =? 0) then
            if (i + 1 <? n)%nat then
              let code_line := Py.strip (line_at lines (i + 1)) in
              match rmatch re_code code_line with
              | Some code_match =>
                  match group1 code_match with
                  | Some product_code =>
                      if (i + 2 <? n)%nat then
                        let description := Py.strip (line_at lines (i + 2)) in
                        match extract_units_from_description description with
                        | Some units_per_package =>
                            match scan_qty re_qty_pedido lines
                                    (range (i + 3) (Nat.min (i + 8) n)) with
                            | Some qty =>
                                Some (record_item product_code description
                                        units_per_package qty acc)
                            | None => None
                            end
                        | None => None
                        end
                      else Some acc
                  | None => Some acc
                  end
              | None => Some acc
              end
            else Some acc
          else Some acc
      | None => None
      end
  | None => Some acc
  end.

(** A document, as the text extractor delivers it: [None] when opening or
    reading the PDF raises, otherwise the lines of [full_text.split("\n")]. *)
Definition document : Type := option (list string).

(** The [while] loop under [try]: when the body raises, the scan ends and
    the dictionaries as they are at that point are returned. *)
Fixpoint scan_lines (step : result -> nat -> option result)
    (indices : list nat) (acc : result) : result :=
  match indices with
  | [] => acc
  | i :: indices' =>
      match step acc i with
      | Some acc' => scan_lines step indices' acc'
      | None => acc
      end
  end.

Definition parse_lines (step : list string -> result -> nat -> option result)
    (lines : list string) : result :=
  scan_lines (step lines) (range 0 (List.length lines)) empty_result.

Definition parse_nf_pdf (pdf_content : document) : result :=
  match pdf_content with
  | Some lines => parse_lines nf_step lines
  | None => empty_result
  end.

Definition parse_pedido_pdf (pdf_content : document) : result :=
  match pdf_content with
  | Some lines => parse_lines pedido_step lines
  | None => empty_result
  end.

End PDFParserService.

(* ================================================================== *)
(** * transformation.py: TransformationService *)
(* ================================================================== *)

Module TransformationService.

Import PDFParserService.

(** The body of [for code, qty in quantities.items()], which the two
    loops of [_process_pdfs] share. *)
Definition merge_item (descriptions : dict string) (acc : result)
    (item : string * Z) : result :=
  let '(all_quantities, all_descriptions) := acc in
  let '(code, qty) := item in
  let all_quantities' :=
    match Dict.get code all_quantities with
    | Some q => Dict.set code (q + qty) all_quantities
    | None => Dict.set code qty all_quantities
    end in
  let all_descriptions' :=
    match Dict.get code all_descriptions, Dict.get code descriptions with
    | None, Some dsc => Dict.set code dsc all_descriptions
    | _, _ => all_descriptions
    end in
  (all_quantities', all_descriptions').

(** One iteration of a loop over the documents, given the result of the
    parser on the document. *)
Definition merge_result (acc : result) (parsed : result) : result :=
  let '(quantities, descriptions) := parsed in
  fold_left (merge_item descriptions) quantities acc.

(** The aggregation of a sequence of parser results. *)
Definition aggregate (acc : result) (parsed : list result) : result :=
  fold_left merge_result parsed acc.

Definition _process_pdfs (nf_pdfs pedido_pdfs : list document) : result :=
  let acc := fold_left (fun acc pdf_content =>
                          merge_result acc (parse_nf_pdf pdf_content))
               nf_pdfs empty_result in
  fold_left (fun acc pdf_content =>
               merge_result acc (parse_pedido_pdf pdf_content))
    pedido_pdfs acc.

End TransformationService.

(* ================================================================== *)
(** * comparison.py: ComparisonService *)
(* ================================================================== *)

Module ComparisonService.

(** A cell of a text column as [read_excel] delivers it: a string, an
    integer, or the null ([NaN], [None]). *)
Inductive cell : Type :=
| CStr (s : string)
| CInt (n : Z)
| CNull.

(** [str(c)], also the rendering of [c] in an f-string; a null cell of the
    inventory is [NaN]. *)
Definition py_str (c : cell) : string :=
  match c with
  | CStr s => s
  | CInt n => Py.str_of_Z n
  | CNull => "nan"
  end.

(** The truth value of [c] in a condition. *)
Definition truthy (c : cell) : bool :=
  match c with
  | CStr s => negb (String.eqb s "")
  | CInt n => negb (n =? 0)
  | CNull => true
  end.

(** [pd.isna(c) or c == ""] *)
Definition isna_or_empty (c : cell) : bool :=
  match c with
  | CStr s => String.eqb s ""
  | CInt _ => false
  | CNull => true
  end.

(** A row of the inventory sheet after [_read_inventory]. *)
Record InvRow : Type := mkInvRow {
  inv_cod_loja : cell;           (* Cód. Loja *)
  inv_loja : cell;               (* Loja *)
  cod_produto : string;          (* Cód Produto *)
  desc_produto : option string;  (* Desc Produto *)
  cod_grupo : cell;              (* Cod Grupo *)
  desc_grupo : cell;             (* Desc GRUPO *)
  quantidade : Z                 (* Quantidade *)
}.

(** A row of the report.  A column the frame does not have reads as the
    null. *)
Record Row : Type := mkRow {
  cod_loja : cell;               (* Cód. Loja *)
  codigo : string;               (* Código do Produto *)
  descricao : option string;     (* Descrição *)
  grupo : cell;                  (* Grupo *)
  estoque : option Z;            (* Estoque *)
  pedido : option Z;             (* Pedido *)
  total : option Z;              (* Total *)
  saidas : option Z;             (* Saídas *)
  saidas_vd : option Z;          (* Saídas VD *)
  saidas_total : option Z        (* Saídas Total *)
}.

(** A row of the ranking sheet after [_read_mazza_report]; the quantity is
    read as it is in the sheet, and is null ([NaN]) for an empty cell. *)
Record MazzaRow : Type := mkMazzaRow {
  mz_codigo : string;            (* CODIGO *)
  nome_produto : option string;  (* NOME PRODUTO *)
  mz_quantidade : option Z       (* QUANTIDADE *)
}.

(** A data frame: the column labels in order and the rows. *)
Record Frame : Type := mkFrame {
  columns : list string;
  rows : list Row
}.

Definition set_estoque_total (e t : option Z) (r : Row) : Row :=
  mkRow (cod_loja r) (codigo r) (descricao r) (grupo r) e (pedido r) t
    (saidas r) (saidas_vd r) (saidas_total r).

Definition set_grupo (g : cell) (r : Row) : Row :=
  mkRow (cod_loja r) (codigo r) (descricao r) g (estoque r) (pedido r)
    (total r) (saidas r) (saidas_vd r) (saidas_total r).

Definition set_descricao (dsc : option string) (r : Row) : Row :=
  mkRow (cod_loja r) (codigo r) dsc (grupo r) (estoque r) (pedido r)
    (total r) (saidas r) (saidas_vd r) (saidas_total r).

Definition set_cod_loja (c : cell) (r : Row) : Row :=
  mkRow c (codigo r) (descricao r) (grupo r) (estoque r) (pedido r)
    (total r) (saidas r) (saidas_vd r) (saidas_total r).

Definition set_saidas_vd_total (vd t : option Z) (r : Row) : Row :=
  mkRow (cod_loja r) (codigo r) (descricao r) (grupo r) (estoque r)
    (pedido r) (total r) (saidas r) vd t.

(** [x if pd.notna(x) else 0] *)
Definition or_zero (x : option Z) : Z :=
  match x with Some v => v | None => 0 end.

(** [x != v] for a numeric cell [x] and a number [v]; [NaN] differs from
    every number. *)
Definition differs (x : option Z) (v : Z) : bool :=
  match x with Some u => negb (u =? v) | None => true end.

(** [f"{cod} - {desc}".strip(" -")] *)
Definition format_grupo (cod desc : cell) : string :=
  Py.strip_by (Py.is_one_of " -") (py_str cod ++ " - " ++ py_str desc).

(** [k in s] for a set of strings. *)
Definition in_set (k : string) (s : list string) : bool :=
  existsb (String.eqb k) s.

(** The lookup dictionaries [_compare_and_merge] builds. *)
Definition inventory_lookup (inventory_df : list InvRow) : dict Z :=
  Dict.of_items (map (fun r => (cod_produto r, quantidade r)) inventory_df).
Definition inventory_cod_grupo (inventory_df : list InvRow) : dict cell :=
  Dict.of_items (map (fun r => (cod_produto r, cod_grupo r)) inventory_df).
Definition inventory_desc_grupo (inventory_df : list InvRow) : dict cell :=
  Dict.of_items (map (fun r => (cod_produto r, desc_grupo r)) inventory_df).
Definition inventory_desc_produto (inventory_df : list InvRow)
    : dict (option string) :=
  Dict.of_items (map (fun r => (cod_produto r, desc_produto r)) inventory_df).

(** [d.get(k, default)] *)
Definition get_default {V : Type} (k : string) (default : V) (d : dict V) : V :=
  match Dict.get k d with Some v => v | None => default end.

(** The enrichment of a row whose code the inventory has (the block under
    the comment on empty Grupo).  [row] is the row as the iteration read
    it, [r] the row of the result being written. *)
Definition enrich (inventory_df : list InvRow) (row r : Row) : Row :=
  let product_code := codigo row in
  if isna_or_empty (grupo row) then
    let cod := get_default product_code (CStr "")
                 (inventory_cod_grupo inventory_df) in
    let desc := get_default product_code (CStr "")
                  (inventory_desc_grupo inventory_df) in
    let r := if truthy cod || truthy desc
             then set_grupo (CStr (format_grupo cod desc)) r
             else r in
    set_descricao (get_default product_code (descricao row)
                     (inventory_desc_produto inventory_df)) r
  else r.

Section Arithmetic.
(** The sum of two numbers of the frames (see [Num]). *)
Variable add : Z -> Z -> Z.

(** [x + y] for a number [x] and a cell [y]: [NaN] when [y] is. *)
Definition add_cell (x : Z) (y : option Z) : option Z :=
  match y with Some v => Some (add x v) | None => None end.

(** The body of the loop over the rows of the weekly report. *)
Definition update_row (inventory_df : list InvRow) (row : Row) : Row :=
  let product_code := codigo row in
  match Dict.get product_code (inventory_lookup inventory_df) with
  | Some inv_qty =>
      let r := if differs (estoque row) inv_qty
               then set_estoque_total (Some inv_qty)
                      (Some (add inv_qty (or_zero (pedido row)))) row
               else row in
      enrich inventory_df row r
  | None =>
      if differs (estoque row) 0
      then set_estoque_total (Some 0) (Some (or_zero (pedido row))) row
      else row
  end.

(** A row for a product only the inventory has. *)
Definition new_row (inv_row : InvRow) : Row :=
  mkRow (inv_cod_loja inv_row) (cod_produto inv_row) (desc_produto inv_row)
    (CStr (format_grupo (cod_grupo inv_row) (desc_grupo inv_row)))
    (Some (quantidade inv_row)) None (Some (quantidade inv_row)) (Some 0)
    None None.

(** The store code of the first row of the inventory. *)
Definition first_cod_loja (inventory_df : list InvRow) : cell :=
  match inventory_df with
  | r :: _ => inv_cod_loja r
  | [] => CNull
  end.

(** [df[label] = ...]: a new label goes last. *)
Definition add_column (label : string) (cols : list string) : list string :=
  if in_set label cols then cols else cols ++ [label].

(** The labels of [pd.concat([a, b])]. *)
Definition concat_columns (a b : list string) : list string :=
  fold_left (fun cols label => add_column label cols) b a.

Definition new_row_columns : list string :=
  ["Código do Produto"; "Descrição"; "Grupo"; "Estoque"; "Pedido"; "Total";
   "Saídas"; "Sugestão"; "Cód. Loja"].

Definition _compare_and_merge (weekly_df : Frame) (inventory_df : list InvRow)
    : Frame :=
  let store_code := first_cod_loja inventory_df in
  let existing_codes := map codigo (rows weekly_df) in
  let updated := map (update_row inventory_df) (rows weekly_df) in
  let result_rows := map (set_cod_loja store_code) updated in
  let result_cols := add_column "Cód. Loja" (columns weekly_df) in
  let new_rows :=
    map new_row
      (filter (fun r => negb (in_set (cod_produto r) existing_codes))
         inventory_df) in
  match new_rows with
  | [] => mkFrame result_cols result_rows
  | _ => mkFrame (concat_columns result_cols new_row_columns)
           (result_rows ++ new_rows)
  end.

(** [grupo_priority] *)
Definition grupo_priority (g : cell) : Z :=
  if isna_or_empty g then 1
  else
    let grupo_str := py_str g in
    if Py.contains "1014" grupo_str && Py.contains "Funcionais" grupo_str
    then 0
    else if Py.contains "1013" grupo_str && Py.contains "Pascoa" grupo_str
    then 2
    else 1.

(** The order of [sort_values] on a text column: strings in increasing
    order, the nulls last. *)
Definition desc_leb (a b : option string) : bool :=
  match a, b with
  | Some x, Some y => String.leb x y
  | _, None => true
  | None, Some _ => false
  end.

(** The order of [sort_values(["_priority", "Descrição"])]. *)
Definition row_leb (a b : Row) : bool :=
  let pa := grupo_priority (grupo a) in
  let pb := grupo_priority (grupo b) in
  (pa <? pb) || ((pa =? pb) && desc_leb (descricao a) (descricao b)).

(** A stable sort: a row goes after the rows that are not above it. *)
Fixpoint insert_sorted (r : Row) (l : list Row) : list Row :=
  match l with
  | [] => [r]
  | x :: l' => if row_leb x r then x :: insert_sorted r l' else r :: l
  end.

Definition stable_sort (l : list Row) : list Row :=
  fold_left (fun acc r => insert_sorted r acc) l [].

Definition _apply_sorting (df : Frame) : Frame :=
  mkFrame (columns df) (stable_sort (rows df)).

(** The first row with the code, the row that [.iloc[0]] under the mask
    reads. *)
Definition first_with (codigo_ : string) (l : list Row) : option Row :=
  find (fun r => String.eqb (codigo r) codigo_) l.

Definition mazza_new_row (store_code : string) (mazza_row : MazzaRow) : Row :=
  mkRow (CStr store_code) (mz_codigo mazza_row) (nome_produto mazza_row)
    CNull None None None None
    (mz_quantidade mazza_row) (mz_quantidade mazza_row).

(** The body of the loop over the rows of the ranking; the state is the
    rows of the result and [existing_codes].  Every code of
    [existing_codes] is the code of a row, so that [.iloc[0]] finds one. *)
Definition mazza_step (store_code : string)
    (st : list Row * list string) (mazza_row : MazzaRow)
    : list Row * list string :=
  let '(result_rows, existing_codes) := st in
  let codigo_ := mz_codigo mazza_row in
  let quantidade_ := mz_quantidade mazza_row in
  if in_set codigo_ existing_codes then
    match first_with codigo_ result_rows with
    | Some first =>
        let current_saidas := or_zero (saidas first) in
        let current_saidas_vd := or_zero (saidas_vd first) in
        (map (fun r =>
                if String.eqb (codigo r) codigo_
                then set_saidas_vd_total
                       (add_cell current_saidas_vd quantidade_)
                       (add_cell (add current_saidas current_saidas_vd)
                          quantidade_) r
                else r) result_rows,
         existing_codes)
    | None => st
    end
  else
    ((result_rows ++ [mazza_new_row store_code mazza_row])%list,
     (existing_codes ++ [codigo_])%list).

(** [cols.remove(label)] for a label in the list. *)
Fixpoint remove_first (label : string) (cols : list string) : list string :=
  match cols with
  | [] => []
  | c :: cols' =>
      if String.eqb c label then cols' else c :: remove_first label cols'
  end.

(** [cols.index(label)] for a label in the list. *)
Fixpoint index_of (label : string) (cols : list string) : nat :=
  match cols with
  | [] => O
  | c :: cols' => if String.eqb c label then O else S (index_of label cols')
  end.

(** [cols.insert(idx, label)] *)
Fixpoint insert_at (idx : nat) (label : string) (cols : list string)
    : list string :=
  match idx, cols with
  | O, _ => label :: cols
  | S _, [] => [label]
  | S idx', c :: cols' => c :: insert_at idx' label cols'
  end.

(** The labels of a row added for an unmatched entry of the ranking. *)
Definition mazza_row_columns : list string :=
  ["Cód. Loja"; "Código do Produto"; "Descrição"; "Grupo"; "Estoque";
   "Pedido"; "Total"; "Saídas"; "Saídas VD"; "Saídas Total"; "Sugestão"].

(** The labels of the result: the two new columns, the labels that the
    concatenation of an added row brings ([appended] tells whether a row
    was added), and the move of the two columns before Sugestão. *)
Definition mazza_columns (cols : list string) (appended : bool)
    : list string :=
  let cols := add_column "Saídas Total" (add_column "Saídas VD" cols) in
  let cols := if appended then concat_columns cols mazza_row_columns
              else cols in
  if in_set "Sugestão" cols && in_set "Saídas" cols then
    let cols := remove_first "Saídas Total" (remove_first "Saídas VD" cols) in
    let sugestao_idx := index_of "Sugestão" cols in
    insert_at sugestao_idx "Saídas VD"
      (insert_at sugestao_idx "Saídas Total" cols)
  else cols.

Definition clear_saidas_vd_total (r : Row) : Row :=
  set_saidas_vd_total None None r.

Definition _merge_mazza_report (result_df : Frame) (mazza_df : list MazzaRow)
    (store_code : string) : Frame :=
  let init := map clear_saidas_vd_total (rows result_df) in
  let existing_codes := map codigo init in
  let '(result_rows, _) :=
    fold_left (mazza_step store_code) mazza_df (init, existing_codes) in
  mkFrame
    (mazza_columns (columns result_df)
       (List.length init <? List.length result_rows)%nat)
    result_rows.

(** The designated store of the ranking report. *)
Definition designated_store : string := "1225".

Definition cod_loja_first (cols : list string) : list string :=
  if in_set "Cód. Loja" cols
  then "Cód. Loja" :: remove_first "Cód. Loja" cols
  else cols.

(** [compare], up to the writing of the workbook: the frame written, the
    store code and the store name. *)
Definition compare (weekly_df : Frame) (inventory_df : list InvRow)
    (mazza_report : option (list MazzaRow))
    : Frame * option string * string :=
  let store_name :=
    match inventory_df with
    | r :: _ => py_str (inv_loja r)
    | [] => "Unknown"
    end in
  let result_df := _compare_and_merge weekly_df inventory_df in
  let store_code :=
    match inventory_df with
    | r :: _ => Some (py_str (inv_cod_loja r))
    | [] => None
    end in
  let df_output := _apply_sorting result_df in
  let df_output :=
    match mazza_report, store_code with
    | Some mazza_df, Some code =>
        if String.eqb code designated_store
        then _merge_mazza_report df_output mazza_df code
        else df_output
    | _, _ => df_output
    end in
  (mkFrame (cod_loja_first (columns df_output)) (rows df_output),
   store_code, store_name).
End Arithmetic.

End ComparisonService.

Unset Implicit Arguments.

(* ================================================================== *)
(** * Specification vocabulary *)
(* ================================================================== *)

(** ** The inventory as a lookup *)

Module Spec.

Import ComparisonService.

(** The value the last item with key [k] carries, which is the one a
    dictionary built from the items keeps. *)
Fixpoint last_value {V : Type} (k : string) (kvs : list (string * V))
    : option V :=
  match kvs with
  | [] => None
  | (k', v) :: kvs' =>
      match last_value k kvs' with
      | Some x => Some x
      | None => if String.eqb k k' then Some v else None
      end
  end.

(** The row of the inventory that the lookup dictionaries keep for a
    code: the last one with the code (the only one when codes are
    unique). *)
Definition inventory_row (code : string) (inventory_df : list InvRow)
    : option InvRow :=
  last_value code (map (fun r => (cod_produto r, r)) inventory_df).


(** A separator of the text of a group: a space or a hyphen. *)
Definition separator (c : ascii) : bool :=
  Ascii.eqb c " " || Ascii.eqb c "-".

(** [g] is [s] trimmed of stray separators: [s] without the separators
    it starts with and the separators it ends with. *)
Definition trimmed (s g : string) : Prop :=
  exists pre post,
    s = pre ++ g ++ post
    /\ forallb separator (list_ascii_of_string pre) = true
    /\ forallb separator (list_ascii_of_string post) = true
    /\ (forall c g', g = String c g' -> separator c = false)
    /\ (forall g' c, g = g' ++ String c "" -> separator c = false).

End Spec.

(** ** Scenarios of the reconciliation *)

Module MergeScenario.
Import ComparisonService.

Definition weekly_columns : list string :=
  ["Código do Produto"; "Descrição"; "Grupo"; "Estoque"; "Pedido"; "Total";
   "Saídas"; "Sugestão"].

Definition weekly : Frame :=
  mkFrame weekly_columns
    [ mkRow CNull "1234567" (Some "PRODUTO TESTE A") (CStr "1014 - Funcionais")
        (Some 100) (Some 25) (Some 125) (Some 20) None None;
      mkRow CNull "2345678" (Some "PRODUTO TESTE B") (CStr "1010 - Outros")
        (Some 50) (Some 10) (Some 60) (Some 10) None None;
      mkRow CNull "4567890" (Some "PDF PRODUTO DESC") (CStr "")
        (Some 20) None (Some 20) (Some 3) None None ].

Definition inventory (store : string) : list InvRow :=
  [ mkInvRow (CStr store) (CStr "LOJA") "1234567" (Some "PRODUTO TESTE A")
      (CStr "1014") (CStr "Funcionais") 150;
    mkInvRow (CStr store) (CStr "LOJA") "3456789" (Some "PRODUTO NOVO C")
      (CStr "1013") (CStr "Pascoa") 30;
    mkInvRow (CStr store) (CStr "LOJA") "4567890" (Some "TRUFA LACREME")
      (CInt 1010) (CStr "Outros") 20 ].

Definition ranking : list MazzaRow :=
  [ mkMazzaRow "1234567" (Some "PRODUTO EXISTENTE") (Some 50);
    mkMazzaRow "9999999" (Some "PRODUTO NOVO MAZZA") (Some 100) ].



(** A row without a group, and inventories whose row for its code has an
    empty group code cell, or two empty group cells. *)
Definition weekly_blank : Frame :=
  mkFrame weekly_columns
    [ mkRow CNull "4567890" (Some "PDF PRODUTO DESC") (CStr "")
        (Some 20) None (Some 20) (Some 3) None None ].

Definition inventory_groups (cod desc : cell) : list InvRow :=
  [ mkInvRow (CStr "6835") (CStr "LOJA") "4567890" (Some "TRUFA LACREME")
      cod desc 20 ].

(** Two rows with the same code and different outbound quantities. *)
Definition repeated_rows : list Row :=
  [ mkRow (CStr "1225") "1234567" (Some "PRODUTO TESTE A")
      (CStr "1014 - Funcionais") (Some 150) (Some 25) (Some 175) (Some 20)
      None None;
    mkRow (CStr "1225") "1234567" (Some "PRODUTO TESTE A BIS")
      (CStr "1014 - Funcionais") (Some 5) None (Some 5) (Some 7)
      None None ].

(** A row whose outbound quantity is the largest [int64]. *)
Definition largest_outbound : list Row :=
  [ mkRow (CStr "1225") "1234567" (Some "PRODUTO TESTE A")
      (CStr "1014 - Funcionais") (Some 150) (Some 25) (Some 175)
      (Some 9223372036854775807) None None ].
End MergeScenario.

(** ** Scenarios of the sort, of the ranking and of the final report *)

Module SortScenario.
Import ComparisonService.

(** Rows in the order of the sort. *)
Definition sorted_rows : list Row :=
  [ mkRow CNull "1" (Some "B") (CStr "1014 - Funcionais")
      None None None None None None;
    mkRow CNull "2" (Some "A") (CStr "1010 - Outros")
      None None None None None None;
    mkRow CNull "3" (Some "A") (CStr "")
      None None None None None None;
    mkRow CNull "4" None CNull
      None None None None None None ].
End SortScenario.

Module RankingScenario.
Import ComparisonService.

End RankingScenario.

(** ** The loop of the ranking merge *)

Module RankingSpec.
Import ComparisonService.

(** The store code [compare] derives from the inventory. *)
Definition store_code_of (inventory_df : list InvRow) : option string :=
  match inventory_df with
  | r :: _ => Some (py_str (inv_cod_loja r))
  | [] => None
  end.


(** The state of the loop of [_merge_mazza_report] on the rows [df_rows]
    once the entries [done] of the ranking are processed. *)
Definition mazza_state (add : Z -> Z -> Z) (store_code : string)
    (df_rows : list Row) (done : list MazzaRow) : list Row * list string :=
  let init := map clear_saidas_vd_total df_rows in
  fold_left (mazza_step add store_code) done (init, map codigo init).
End RankingSpec.

(** ** The order of the sort *)

Module SortSpec.
Import ComparisonService.

(** [sub] occurs in [s]. *)
Definition occurs (sub s : string) : Prop :=
  exists pre post : string, s = pre ++ sub ++ post.

(** The three tiers of the sort, on the text of a group. *)
Definition first_tier (s : string) : Prop :=
  occurs "1014" s /\ occurs "Funcionais" s.
Definition last_tier (s : string) : Prop :=
  occurs "1013" s /\ occurs "Pascoa" s.

Definition row_le (a b : Row) : Prop := row_leb a b = true.
End SortSpec.

(** ** Occurrences, windows and results of the parsers *)

Module ParserSpec.
Import PDFParserService.

(** The product code that the line at index [i] is, if it is one. *)
Definition code_at (lines : list string) (i : nat) : option string :=
  match Re.rmatch re_code (Py.strip (line_at lines i)) with
  | Some m => Re.group1 m
  | None => None
  end.

(** The line at index [j] is a quantity token for the pattern [pat]. *)
Definition is_qty (pat : Re.re) (lines : list string) (j : nat) : bool :=
  match Re.rmatch pat (Py.strip (line_at lines j)) with
  | Some _ => true
  | None => false
  end.

(** The lookahead windows: the indices [i+2 .. i+9] after a code line
    at [i] for the invoice format, the indices [i+3 .. i+7] after an
    item marker at [i] for the order format (the five lines after the
    description line [i+2]); both are cut at the end of the text. *)
Definition nf_window (lines : list string) (i : nat) : list nat :=
  range (i + 2) (Nat.min (i + 10) (List.length lines)).
Definition pedido_window (lines : list string) (i : nat) : list nat :=
  range (i + 3) (Nat.min (i + 8) (List.length lines)).

(** The quantity the parser reads for the occurrence at [i]: the one of
    the first token in the window, 0 without a token; none when the
    conversion of the token raises. *)
Definition nf_qty_at (lines : list string) (i : nat) : option Z :=
  scan_qty re_qty_nf lines (nf_window lines i).
Definition pedido_qty_at (lines : list string) (i : nat) : option Z :=
  scan_qty re_qty_pedido lines (pedido_window lines i).

(** The packaging multiplier of the line at index [j], read as a
    description; none when its conversion raises. *)
Definition units_at (lines : list string) (j : nat) : option Z :=
  extract_units_from_description (Py.strip (line_at lines j)).

(** The line at index [i] is an item marker of the order format. *)
Definition marker_at (lines : list string) (i : nat) : bool :=
  let line := Py.strip (line_at lines i) in
  match Re.rmatch re_item line with
  | Some _ =>
      match Py.int line with
      | Some item => item mod 10 =? 0
      | None => false
      end
  | None => false
  end.

(** The dictionaries after the body of a loop ran on [acc]: the ones it
    returns, [acc] itself when it raised. *)
Definition after_step (r : option result) (acc : result) : result :=
  match r with Some acc' => acc' | None => acc end.

(** The two dictionaries have the same keys in the same order, without
    repetition, and no quantity is negative. *)
Definition well_formed (r : result) : Prop :=
  Dict.keys (fst r) = Dict.keys (snd r)
  /\ NoDup (Dict.keys (fst r))
  /\ forall c q, Dict.get c (fst r) = Some q -> 0 <= q.

Definition all_positive (r : result) : Prop :=
  forall c q, Dict.get c (fst r) = Some q -> 0 < q.

(** The quantity of the code [c], if it has one, is positive. *)
Definition positive_at (c : string) (r : result) : Prop :=
  forall q, Dict.get c (fst r) = Some q -> 0 < q.

Definition absent (c : string) (r : result) : Prop :=
  Dict.get c (fst r) = None /\ Dict.get c (snd r) = None.
End ParserSpec.

(** ** Scenarios of the lookahead windows *)

Module WindowScenario.
(** A code line, its description, eight lines without a quantity token
    (the window of the invoice format) and then a quantity token. *)
Definition nf_beyond : list string :=
  ["1234567"; "TABLETE 100GX15UN"; "UN"; "a"; "b"; "c"; "d"; "e"; "f"; "g";
   "5,000"].

(** The same text with the token on the last line of the window. *)
Definition nf_inside : list string :=
  ["1234567"; "TABLETE 100GX15UN"; "UN"; "a"; "b"; "c"; "d"; "e"; "f";
   "5,000"].

(** An item marker, the code, the description, five lines without a
    quantity token (the window of the order format) and then a token. *)
Definition pedido_beyond : list string :=
  ["10"; "1234567"; "TRUFA 13,5GX150UN"; "a"; "b"; "c"; "d"; "e"; "2,000"].

Definition pedido_inside : list string :=
  ["10"; "1234567"; "TRUFA 13,5GX150UN"; "a"; "b"; "c"; "d"; "2,000"].
End WindowScenario.

Module ZeroMultiplier.
(** A description whose packaging token gives the multiplier 0. *)
Definition lines : list string := ["1234567"; "TABLETE 100GX0UN"; "5,000"].

Definition pedido_lines : list string :=
  ["10"; "1234567"; "TABLETE 100GX0UN"; "5,000"].

(** A code whose description has the multiplier 15, in a text where
    another line, which is the description of no code, has the
    multiplier 0. *)
Definition other_line : list string :=
  ["1234567"; "TABLETE 100GX15UN"; "5,000"; "RODAPE 0UN"].

Definition pedido_other_line : list string :=
  ["10"; "1234567"; "TABLETE 100GX15UN"; "5,000"; "RODAPE 0UN"].
End ZeroMultiplier.

Module RepeatedCode.
(** A code that occurs twice, with another code in between. *)
Definition lines : list string :=
  ["1234567"; "TRUFA 30GX10UN"; "2,000";
   "2345678"; "BOMBOM"; "1,000";
   "1234567"; "TRUFA OUTRA X 3"; "4,000"].
End RepeatedCode.

(** ** Contributions to the aggregate *)

Module AggregatorSpec.
Import PDFParserService.

(** The quantities that the items of a dictionary contribute to a
    code, in order. *)
Definition hits (c : string) (quantities : dict Z) : list Z :=
  map snd (filter (fun kv => String.eqb c (fst kv)) quantities).

(** The running total of a code after one more contribution. *)
Definition add_hit (a : option Z) (q : Z) : option Z :=
  match a with
  | Some v => Some (v + q)
  | None => Some q
  end.

(** The results of the parsers in the order [_process_pdfs] reads the
    documents. *)
Definition parsed (nf_pdfs pedido_pdfs : list document) : list result :=
  (map parse_nf_pdf nf_pdfs ++ map parse_pedido_pdf pedido_pdfs)%list.
End AggregatorSpec.

(** ** Scenarios of the aggregation *)

Module AggregatorScenario.
Import PDFParserService.

(** Two documents that introduce the code 1234567 with different
    descriptions, and a third one with another code. *)
Definition D1 : document :=
  Some ["1234567"; "TRUFA AO LEITE 30GX10UN"; "2,000"].
Definition D2 : document :=
  Some ["1234567"; "TRUFA BRANCA"; "3,000"; "2345678"; "BOMBOM"; "1,000"].
Definition D3 : document := Some ["2345678"; "BOMBOM SORTIDO"; "4,000"].

Definition P1 : document := Some ["10"; "1234567"; "TRUFA PEDIDO"; "1,000"].
Definition P2 : document := None.
End AggregatorScenario.

(* ================================================================== *)
(** * transformation.py: the final report *)
(* ================================================================== *)

Module TransformationReport.
Import ComparisonService.

(** A row of the weekly sheet after [_read_source_excel]. *)
Record SrcRow : Type := mkSrcRow {
  src_codigo : string;                  (* Código do Produto *)
  src_descricao : option string;        (* Descrição *)
  src_grupo : cell;                     (* Grupo *)
  src_estoque : option Z;               (* Estoque *)
  src_quantidade_liquida : option Z     (* Quantidade Líquida *)
}.

Definition report_columns : list string :=
  ["Código do Produto"; "Descrição"; "Grupo"; "Estoque"; "Pedido"; "Total";
   "Saídas"; "Sugestão"].

Section CreateFinalReport.
(** The order in which Python iterates a set with the given elements,
    and the order in which [sort_values("Descrição")] leaves the rows:
    the first depends on the hashing of the strings, the second, among
    equal descriptions, on the sorting algorithm. *)
Variable set_iter : list string -> list string.
Variable sort_values : list Row -> list Row.

(** The sum of two numbers of the frame, and the conversion of a Python
    integer to the dtype of the column it is stored in (see [Num]):
    [Series.map] gives a [float64] column when a code has no pending
    quantity. *)
Variable add : Z -> Z -> Z.
Variable cast : Z -> Z.

(** The row for a product that only the documents have. *)
Definition new_src_row (pending_descriptions : dict string) (code : string)
    : SrcRow :=
  mkSrcRow code
    (Some (get_default code ("Produto " ++ code) pending_descriptions))
    (CStr "") (Some 0) (Some 0).

(** The columns Pedido, Total and Sugestão, and the renaming of
    Quantidade Líquida to Saídas. *)
Definition report_row (pending_quantities : dict Z) (r : SrcRow) : Row :=
  let pedido_ :=
    option_map cast (Dict.get (src_codigo r) pending_quantities) in
  mkRow CNull (src_codigo r) (src_descricao r) (src_grupo r) (src_estoque r)
    pedido_ (Some (add (or_zero (src_estoque r)) (or_zero pedido_)))
    (src_quantidade_liquida r) None None.

Definition _create_final_report (df : list SrcRow)
    (pending_quantities : dict Z) (pending_descriptions : dict string)
    : Frame :=
  let existing_codes := map src_codigo df in
  let new_codes :=
    set_iter (filter (fun c => negb (in_set c existing_codes))
                (Dict.keys pending_quantities)) in
  let df :=
    match new_codes with
    | [] => df
    | _ => (df ++ map (new_src_row pending_descriptions) new_codes)%list
    end in
  mkFrame report_columns
    (sort_values (map (report_row pending_quantities) df)).

(** [process], between the reading of the sheet and the writing of the
    workbook: [df] is the sheet as [_read_source_excel] returns it. *)
Definition process (df : list SrcRow)
    (nf_pdfs pedido_pdfs : list PDFParserService.document) : Frame :=
  let '(pending_quantities, pending_descriptions) :=
    TransformationService._process_pdfs nf_pdfs pedido_pdfs in
  _create_final_report df pending_quantities pending_descriptions.
End CreateFinalReport.

End TransformationReport.

Module ReportScenario.
Import TransformationReport.

Definition sheet : list SrcRow :=
  [mkSrcRow "1234567" (Some "TRUFA") (ComparisonService.CStr "1010 - Outros")
     (Some 3) (Some 1)].

Definition pending_quantities : dict Z := [("1234567", 24); ("2345678", 5)].

Definition pending_descriptions : dict string :=
  [("1234567", "TRUFA AO LEITE"); ("2345678", "BOMBOM")].
End ReportScenario.

(* ================================================================== *)
(** * api/routes/reports.py: the name of the file *)
(* ================================================================== *)

Module Reports.

(** [c.isalnum()] for a code point below 256. *)
Definition is_alnum (c : ascii) : bool :=
  let n := nat_of_ascii c in
  ((48 <=? n) && (n <=? 57) || (65 <=? n) && (n <=? 90)
   || (97 <=? n) && (n <=? 122) || (n =? 170)
   || (178 <=? n) && (n <=? 179) || (n =? 181)
   || (185 <=? n) && (n <=? 186) || (188 <=? n) && (n <=? 190)
   || (192 <=? n) && (n <=? 214) || (216 <=? n) && (n <=? 246)
   || (248 <=? n))%nat.

(** The characters of [s] that [keep] accepts. *)
Fixpoint keep_chars (keep : ascii -> bool) (s : string) : string :=
  match s with
  | EmptyString => EmptyString
  | String c s' =>
      if keep c then String c (keep_chars keep s') else keep_chars keep s'
  end.

(** [s.replace(a, b)] for two characters. *)
Fixpoint replace_char (a b : ascii) (s : string) : string :=
  match s with
  | EmptyString => EmptyString
  | String c s' =>
      String (if Ascii.eqb c a then b else c) (replace_char a b s')
  end.

Definition safe_store_name (store_name : string) : string :=
  replace_char " " "_"
    (keep_chars (fun c => is_alnum c || Py.is_one_of " _-" c) store_name).

(** A character that may occur in the sanitized name of a store. *)
Definition allowed (c : ascii) : bool := is_alnum c || Py.is_one_of "_-" c.

(** [str(store_code)] for the store code that [compare] returns. *)
Definition str_store_code (store_code : option string) : string :=
  match store_code with Some s => s | None => "None" end.

(** [_generate_filename], for the date of the day [today]. *)
Definition _generate_filename (today : string) (store_code : option string)
    (store_name : string) : string :=
  "relatorio_processado_" ++ today ++ "_loja_" ++ str_store_code store_code
  ++ "_" ++ safe_store_name store_name ++ ".xlsx".

End Reports.

(* ================================================================== *)
(** * Further specification vocabulary *)
(* ================================================================== *)

(** ** What a pattern can match *)

Module ReSpec.
Import Re.

(** [matches r s cap rest cap']: the pattern [r] can match a prefix of [s]
    and leave [rest], the capture going from [cap] to [cap']. *)
Fixpoint matches (r : re) (s : string) (cap : option string)
    (rest : string) (cap' : option string) : Prop :=
  match r with
  | Eps => rest = s /\ cap' = cap
  | Cls p => exists c, p c = true /\ s = String c rest /\ cap' = cap
  | Seq a b =>
      exists mid capm, matches a s cap mid capm /\ matches b mid capm rest cap'
  | Alt a b => matches a s cap rest cap' \/ matches b s cap rest cap'
  | Star p =>
      exists w, s = w ++ rest
                /\ forallb p (list_ascii_of_string w) = true /\ cap' = cap
  | Opt a => matches a s cap rest cap' \/ (rest = s /\ cap' = cap)
  | Grp a =>
      exists cap0, matches a s cap rest cap0 /\ cap' = Some (consumed s rest)
  | Eos =>
      rest = s /\ cap' = cap
      /\ (s = "" \/ s = String (ascii_of_nat 10) "")
  end.

(** Every match of [r] consumes a character of the class [p]. *)
Fixpoint needs (p : ascii -> bool) (r : re) : Prop :=
  match r with
  | Eps | Star _ | Opt _ | Eos => False
  | Cls q => forall c, q c = true -> p c = true
  | Seq a b => needs p a \/ needs p b
  | Alt a b => needs p a /\ needs p b
  | Grp a => needs p a
  end.

(** Every match of [r] goes through the capturing group. *)
Fixpoint captures (r : re) : Prop :=
  match r with
  | Grp _ => True
  | Seq a b => captures a \/ captures b
  | Alt a b => captures a /\ captures b
  | Eps | Cls _ | Star _ | Opt _ | Eos => False
  end.

(** [r] has no capturing group. *)
Fixpoint no_group (r : re) : Prop :=
  match r with
  | Grp _ => False
  | Seq a b | Alt a b => no_group a /\ no_group b
  | Opt a => no_group a
  | Eps | Cls _ | Star _ | Eos => True
  end.

(** [s] has a character of the class [p]. *)
Definition has_char (p : ascii -> bool) (s : string) : bool :=
  existsb p (list_ascii_of_string s).

(** A product code: seven digits, the first one 1 or 2. *)
Definition product_code (c : string) : bool :=
  match c with
  | String c1 w =>
      Py.is_one_of "12" c1
      && (String.length w =? 6)%nat
      && forallb Py.is_digit (list_ascii_of_string w)
  | EmptyString => false
  end.

(** [" ".join(s.split())] *)
Definition collapse (s : string) : string := Py.join " " (Py.split_ws s).
End ReSpec.

(** ** The occurrences that contribute to the result of a parser *)

Module Occurrences.
Import PDFParserService ParserSpec.

(** No line has more than [Py.max_str_digits] characters: no number of
    the text is too long for [int]. *)
Definition short_lines (lines : list string) : Prop :=
  Forall (fun line => Z.of_nat (String.length line) <= Py.max_str_digits)
    lines.

(** The digits a text starts with. *)
Fixpoint leading_digits (s : string) : string :=
  match s with
  | String c s' => if Py.is_digit c then String c (leading_digits s') else ""
  | EmptyString => ""
  end.

(** The integer a quantity token encodes: the value of the digits before
    its decimal separator. *)
Definition token_value (line : string) : Z :=
  Py.int_value (leading_digits (Py.strip line)).

(** The quantity of a window: the one of the first of its lines that is
    a quantity token, 0 without a token. *)
Definition window_qty (pat : Re.re) (lines : list string) (js : list nat)
    : Z :=
  match find (is_qty pat lines) js with
  | Some j => token_value (line_at lines j)
  | None => 0
  end.

(** A contributing occurrence: the code, the stripped description line,
    the quantity of the window, which is positive, and the multiplier of
    the description. *)
Record item : Type := mkItem {
  item_code : string;
  item_description : string;
  item_qty : Z;
  item_multiplier : Z
}.

(** The units an occurrence adds to its code. *)
Definition item_units (it : item) : Z := item_qty it * item_multiplier it.

(** The occurrence of the invoice format at the line [i], if it
    contributes: a code line that is not the last line, with a positive
    quantity in its window. *)
Definition nf_item (lines : list string) (i : nat) : option item :=
  match code_at lines i, units_at lines (i + 1) with
  | Some c, Some u =>
      let q := window_qty re_qty_nf lines (nf_window lines i) in
      if (i + 1 <? List.length lines)%nat && (0 <? q)
      then Some (mkItem c (Py.strip (line_at lines (i + 1))) q u)
      else None
  | _, _ => None
  end.

(** The occurrence of the order format at the item marker [i]. *)
Definition pedido_item (lines : list string) (i : nat) : option item :=
  if marker_at lines i then
    match code_at lines (i + 1), units_at lines (i + 2) with
    | Some c, Some u =>
        let q := window_qty re_qty_pedido lines (pedido_window lines i) in
        if (i + 2 <? List.length lines)%nat && (0 <? q)
        then Some (mkItem c (Py.strip (line_at lines (i + 2))) q u)
        else None
    | _, _ => None
    end
  else None.

(** The update of the dictionaries for a contributing occurrence. *)
Definition record (acc : result) (it : item) : result :=
  record_item (item_code it) (item_description it) (item_multiplier it)
    (item_qty it) acc.

Definition opt_list {A : Type} (o : option A) : list A :=
  match o with Some a => [a] | None => [] end.

(** The contributing occurrences of a text, in the order of the lines. *)
Definition items_of (item_at : list string -> nat -> option item)
    (lines : list string) : list item :=
  flat_map (fun i => opt_list (item_at lines i))
    (range 0 (List.length lines)).

(** The occurrences of the code [c]. *)
Definition of_code (c : string) (its : list item) : list item :=
  filter (fun it => String.eqb c (item_code it)) its.

Definition zsum (l : list Z) : Z := fold_right Z.add 0 l.

(** The total of a list of contributions: none without a contribution. *)
Definition sum_of (l : list Z) : option Z :=
  match l with
  | [] => None
  | _ => Some (zsum l)
  end.
End Occurrences.

(** ** Words *)

Module Words.
Import ReSpec.

(** A word: not empty and without a space character. *)
Definition word (w : string) : Prop :=
  w <> "" /\ has_char Py.is_space w = false.
End Words.

(** ** Documents *)

Module Documents.
Import PDFParserService.

(** The text of the document could be extracted. *)
Definition readable (doc : document) : bool :=
  match doc with Some _ => true | None => false end.

(** The quantity a parser result gives a code, as a list. *)
Definition quantity_in (c : string) (r : result) : list Z :=
  match Dict.get c (fst r) with Some q => [q] | None => [] end.
End Documents.

(** ** Rows of the reconciliation *)

Module RowSpec.
Import ComparisonService Occurrences.


(** The inventory row is for a product the weekly report does not have. *)
Definition is_new (weekly_rows : list Row) (inv_row : InvRow) : bool :=
  negb (in_set (cod_produto inv_row) (map codigo weekly_rows)).




End RowSpec.

(* ================================================================== *)
(** * Dictionaries: lookup after update *)
(* ================================================================== *)

Section DictFacts.
Variable V : Type.
Implicit Types (d : dict V) (k : string) (v : V).

Lemma get_set_same k v d : Dict.get k (Dict.set k v d) = Some v.
Proof.
  induction d as [|[k' v'] d IH]; simpl.
  - now rewrite String.eqb_refl.
  - destruct (String.eqb k k') eqn:E; simpl; rewrite E; auto.
Qed.

Lemma get_set_other k k' v d :
  k <> k' -> Dict.get k (Dict.set k' v d) = Dict.get k d.
Proof.
  intros Hne. induction d as [|[k0 v0] d IH]; simpl.
  - apply String.eqb_neq in Hne. now rewrite Hne.
  - destruct (String.eqb k' k0) eqn:E; simpl.
    + apply String.eqb_eq in E. subst k0.
      apply String.eqb_neq in Hne. now rewrite Hne.
    + now rewrite IH.
Qed.

Lemma get_set k k' v d :
  Dict.get k (Dict.set k' v d)
  = if String.eqb k k' then Some v else Dict.get k d.
Proof.
  destruct (String.eqb k k') eqn:E.
  - apply String.eqb_eq in E. subst. apply get_set_same.
  - apply String.eqb_neq in E. now apply get_set_other.
Qed.

Lemma keys_set_present k v d :
  Dict.get k d <> None -> Dict.keys (Dict.set k v d) = Dict.keys d.
Proof.
  unfold Dict.keys. induction d as [|[k' v'] d IH]; simpl.
  - congruence.
  - destruct (String.eqb k k') eqn:E; simpl; auto.
    intros H. f_equal. now apply IH.
Qed.

Lemma keys_set_absent k v d :
  Dict.get k d = None -> Dict.keys (Dict.set k v d) = (Dict.keys d ++ [k])%list.
Proof.
  unfold Dict.keys. induction d as [|[k' v'] d IH]; simpl; auto.
  destruct (String.eqb k k') eqn:E; simpl; try congruence.
  intros H. f_equal. now apply IH.
Qed.

Lemma get_none_keys k d : Dict.get k d = None <-> ~ In k (Dict.keys d).
Proof.
  induction d as [|[k' v'] d IH]; simpl.
  - tauto.
  - destruct (String.eqb k k') eqn:E.
    + apply String.eqb_eq in E. subst. split; [congruence | tauto].
    + apply String.eqb_neq in E. rewrite IH. split.
      * intros H [H1 | H1]; [congruence | tauto].
      * tauto.
Qed.

Lemma get_fold_set k (kvs : list (string * V)) d :
  Dict.get k (fold_left (fun d kv => Dict.set (fst kv) (snd kv) d) kvs d)
  = match Spec.last_value k kvs with
    | Some x => Some x
    | None => Dict.get k d
    end.
Proof.
  revert d. induction kvs as [|[k' v'] kvs IH]; intros d; simpl; auto.
  rewrite IH. destruct (Spec.last_value k kvs); auto.
  rewrite get_set. now destruct (String.eqb k k').
Qed.

Lemma get_of_items k (kvs : list (string * V)) :
  Dict.get k (Dict.of_items kvs) = Spec.last_value k kvs.
Proof.
  unfold Dict.of_items. rewrite get_fold_set.
  destruct (Spec.last_value k kvs); reflexivity.
Qed.
End DictFacts.

(* ================================================================== *)
(** * Numbers of the data frames: where the sums are exact *)
(* ================================================================== *)

Section Numbers.
Import Num.

Lemma safe_zero : safe 0.
Proof. unfold safe. simpl. lia. Qed.



Lemma round_float64_safe z : safe z -> round_float64 z = z.
Proof.
  unfold safe, round_float64. intros H.
  destruct (Z.ltb_spec (Z.abs z) (2 ^ 53)) as [L | L]; auto.
  assert (E : z = 2 ^ 53 \/ z = - 2 ^ 53) by lia.
  destruct E as [-> | ->]; vm_compute; reflexivity.
Qed.

Example float64_rounding :
  round_float64 9007199254740993 = 9007199254740992
  /\ round_float64 9007199254740995 = 9007199254740996
  /\ round_float64 (-9007199254740993) = -9007199254740992
  /\ round_float64 18014398509481986 = 18014398509481984
  /\ float64_add 9007199254740992 1 = 9007199254740992
  /\ int64_add 9223372036854775807 1 = -9223372036854775808.
Proof. vm_compute. repeat split; reflexivity. Qed.

Lemma float64_add_exact : exact_add float64_add.
Proof. intros x y _ _ H. now apply round_float64_safe. Qed.

Lemma round_float64_exact : exact_cast round_float64.
Proof. intros x H. now apply round_float64_safe. Qed.



Lemma exact_add_zero add x : exact_add add -> safe x -> add x 0 = x.
Proof.
  intros H Hx. rewrite H; auto using safe_zero; [lia|].
  now rewrite Z.add_0_r.
Qed.
End Numbers.

(* ================================================================== *)
(** * Reconciliation: the merge with the inventory *)
(* ================================================================== *)

Section CompareAndMerge.
Import ComparisonService Spec.

Variable add : Z -> Z -> Z.

Lemma last_value_map (W : Type) (f : InvRow -> W) code inv :
  last_value code (map (fun r => (cod_produto r, f r)) inv)
  = option_map f (inventory_row code inv).
Proof.
  unfold inventory_row.
  induction inv as [|r inv IH]; simpl; auto.
  rewrite IH.
  destruct (last_value code (map (fun r0 => (cod_produto r0, r0)) inv));
    simpl; auto.
  destruct (String.eqb code (cod_produto r)); auto.
Qed.

Lemma lookup_quantidade code inv :
  Dict.get code (inventory_lookup inv)
  = option_map quantidade (inventory_row code inv).
Proof. unfold inventory_lookup. rewrite get_of_items. apply last_value_map. Qed.

Lemma lookup_cod_grupo code inv :
  Dict.get code (inventory_cod_grupo inv)
  = option_map cod_grupo (inventory_row code inv).
Proof. unfold inventory_cod_grupo. rewrite get_of_items. apply last_value_map. Qed.

Lemma lookup_desc_grupo code inv :
  Dict.get code (inventory_desc_grupo inv)
  = option_map desc_grupo (inventory_row code inv).
Proof. unfold inventory_desc_grupo. rewrite get_of_items. apply last_value_map. Qed.

Lemma lookup_desc_produto code inv :
  Dict.get code (inventory_desc_produto inv)
  = option_map desc_produto (inventory_row code inv).
Proof. unfold inventory_desc_produto. rewrite get_of_items. apply last_value_map. Qed.

(** The inventory has a row for a code exactly when the code is one of
    its product codes; the row has the code. *)
Lemma inventory_row_none code inv :
  inventory_row code inv = None <-> ~ In code (map cod_produto inv).
Proof.
  unfold inventory_row. induction inv as [|r inv IH]; simpl.
  - tauto.
  - destruct (last_value code (map (fun r0 => (cod_produto r0, r0)) inv)).
    + split; [discriminate|]. intros H. exfalso. apply H. right.
      destruct (in_dec string_dec code (map cod_produto inv)); auto.
      apply IH in n. discriminate.
    + destruct (String.eqb code (cod_produto r)) eqn:E.
      * apply String.eqb_eq in E. split; [discriminate|].
        intros H. exfalso. apply H. left. congruence.
      * apply String.eqb_neq in E. split; auto.
        intros _ [H | H]; [congruence|]. now apply IH in H.
Qed.


Lemma inventory_row_unique inv r :
  NoDup (map cod_produto inv) -> In r inv ->
  inventory_row (cod_produto r) inv = Some r.
Proof.
  unfold inventory_row. induction inv as [|r0 inv IH]; simpl; [tauto|].
  intros Hnd [-> | Hin].
  - inversion Hnd as [|? ? Hnotin _]; subst.
    apply inventory_row_none in Hnotin. unfold inventory_row in Hnotin.
    rewrite Hnotin. now rewrite String.eqb_refl.
  - inversion Hnd; subst. now rewrite IH.
Qed.

(** The row of the result at the position of a row of the weekly
    report. *)
Lemma merged_row weekly inv i row :
  nth_error (rows weekly) i = Some row ->
  nth_error (rows (_compare_and_merge add weekly inv)) i
  = Some (set_cod_loja (first_cod_loja inv) (update_row add inv row)).
Proof.
  intros H. unfold _compare_and_merge.
  set (upd := map (set_cod_loja (first_cod_loja inv))
                (map (update_row add inv) (rows weekly))).
  assert (Hupd : nth_error upd i
                 = Some (set_cod_loja (first_cod_loja inv)
                           (update_row add inv row))).
  { unfold upd. now do 2 apply map_nth_error. }
  destruct (map new_row _); simpl; auto.
  rewrite nth_error_app1; auto.
  apply nth_error_Some. congruence.
Qed.



(** ** The text of a group *)

Lemma separator_is_one_of c : Py.is_one_of " -" c = separator c.
Proof. unfold Py.is_one_of, separator. simpl. now rewrite orb_false_r. Qed.

Lemma lstrip_by_spec p s :
  exists pre,
    s = pre ++ Py.lstrip_by p s
    /\ forallb p (list_ascii_of_string pre) = true
    /\ forall c t, Py.lstrip_by p s = String c t -> p c = false.
Proof.
  induction s as [|c s (pre & E & Hpre & Hhead)]; simpl.
  - exists "". repeat split; auto. discriminate.
  - destruct (p c) eqn:Hc.
    + exists (String c pre). simpl. rewrite Hc, <- E. auto.
    + exists "". repeat split; auto. now intros c' t [= <- _].
Qed.

Lemma rstrip_by_spec p s :
  exists post,
    s = Py.rstrip_by p s ++ post
    /\ forallb p (list_ascii_of_string post) = true
    /\ forall t c, Py.rstrip_by p s = t ++ String c "" -> p c = false.
Proof.
  induction s as [|c s (post & E & Hpost & Hlast)]; simpl.
  - exists "". repeat split; auto. intros [|x t] c'; discriminate.
  - destruct (Py.rstrip_by p s) as [|d r] eqn:Er.
    + simpl in E. subst post. destruct (p c) eqn:Hc.
      * exists (String c s). simpl. rewrite Hc. auto.
      * exists s. split; [reflexivity|]. split; [exact Hpost|].
        intros [|x t] c'; simpl; [now intros [= <-]|].
        intros [= _ H]. destruct t; discriminate.
    + exists post. simpl. split; [now rewrite E at 1|].
      split; [exact Hpost|].
      intros [|x t] c'; simpl; [discriminate|].
      intros [= _ H]. now apply (Hlast t).
Qed.

Lemma rstrip_by_head p s :
  (forall c t, s = String c t -> p c = false) ->
  forall c t, Py.rstrip_by p s = String c t -> p c = false.
Proof.
  destruct s as [|d s]; simpl; [discriminate|].
  intros H c t. specialize (H d s eq_refl).
  destruct (Py.rstrip_by p s); [rewrite H|]; now intros [= <- _].
Qed.

Lemma string_app_assoc a b c : (a ++ b) ++ c = a ++ b ++ c.
Proof. induction a as [|x a IH]; simpl; auto. now rewrite IH. Qed.

Lemma forallb_separator l :
  forallb (Py.is_one_of " -") l = forallb separator l.
Proof.
  induction l as [|c l IH]; simpl; auto.
  now rewrite IH, separator_is_one_of.
Qed.

(** [format_grupo] gives the two parts joined by " - " and trimmed of
    stray separators. *)
Lemma format_grupo_trimmed cod desc :
  trimmed (py_str cod ++ " - " ++ py_str desc) (format_grupo cod desc).
Proof.
  unfold format_grupo, Py.strip_by, trimmed.
  set (s := py_str cod ++ " - " ++ py_str desc).
  destruct (lstrip_by_spec (Py.is_one_of " -") s) as (pre & E1 & Hpre & Hhead).
  destruct (rstrip_by_spec (Py.is_one_of " -")
              (Py.lstrip_by (Py.is_one_of " -") s))
    as (post & E2 & Hpost & Hlast).
  exists pre, post. split; [|split; [|split; [|split]]].
  - rewrite E1 at 1. now rewrite E2 at 1.
  - now rewrite <- forallb_separator.
  - now rewrite <- forallb_separator.
  - intros c g' Hg. rewrite <- separator_is_one_of.
    eapply rstrip_by_head; eauto.
  - intros g' c Hg. rewrite <- separator_is_one_of. eapply Hlast; eauto.
Qed.
End CompareAndMerge.

Section MergeClaims.
Import ComparisonService Spec Num.

Variable add : Z -> Z -> Z.
Hypothesis add_exact : exact_add add.



(** Scenarios of the specification: on-hand overwrite, zeroing,
    enrichment and new-product injection. *)
Example merge_scenarios :
  rows (_compare_and_merge float64_add MergeScenario.weekly
          (MergeScenario.inventory "6835"))
  = [ mkRow (CStr "6835") "1234567" (Some "PRODUTO TESTE A")
        (CStr "1014 - Funcionais") (Some 150) (Some 25) (Some 175) (Some 20)
        None None;
      mkRow (CStr "6835") "2345678" (Some "PRODUTO TESTE B")
        (CStr "1010 - Outros") (Some 0) (Some 10) (Some 10) (Some 10)
        None None;
      mkRow (CStr "6835") "4567890" (Some "TRUFA LACREME")
        (CStr "1010 - Outros") (Some 20) None (Some 20) (Some 3) None None;
      mkRow (CStr "6835") "3456789" (Some "PRODUTO NOVO C")
        (CStr "1013 - Pascoa") (Some 30) None (Some 30) (Some 0) None None ].
Proof. vm_compute. reflexivity. Qed.

Example format_grupo_both :
  format_grupo (CStr "1014") (CStr "Funcionais") = "1014 - Funcionais".
Proof. vm_compute. reflexivity. Qed.
Example format_grupo_label_only :
  format_grupo (CStr "") (CStr "Pascoa") = "Pascoa".
Proof. vm_compute. reflexivity. Qed.
Example format_grupo_code_only :
  format_grupo (CInt 1013) (CStr "") = "1013".
Proof. vm_compute. reflexivity. Qed.

(** Enrichment, when the group cells of the inventory are texts.  The
    row of the merged frame at the position of a row of the weekly
    report keeps the group and the description of the row when its
    group is neither null nor the empty string.  When the group is null
    or empty and the inventory has the code, the description is the one
    of the inventory, and the group is the group code and the group
    label of the inventory joined by " - " and trimmed of stray
    separators when one of the two is not empty; it is kept when both
    are empty. *)
Lemma enrichment_of_texts :
  forall (weekly : Frame) (inv : list InvRow) (i : nat) (row : Row),
    nth_error (rows weekly) i = Some row ->
    exists out,
      nth_error (rows (_compare_and_merge add weekly inv)) i = Some out
      /\ (grupo row <> CNull -> grupo row <> CStr "" ->
          grupo out = grupo row /\ descricao out = descricao row)
      /\ (grupo row = CNull \/ grupo row = CStr "" ->
          forall inv_row cod desc,
            inventory_row (codigo row) inv = Some inv_row ->
            cod_grupo inv_row = CStr cod -> desc_grupo inv_row = CStr desc ->
            descricao out = desc_produto inv_row
            /\ (cod <> "" \/ desc <> "" ->
                exists g, grupo out = CStr g
                          /\ trimmed (cod ++ " - " ++ desc) g)
            /\ (cod = "" -> desc = "" -> grupo out = grupo row)).
Proof.
  intros weekly inv i row Hrow.
  exists (set_cod_loja (first_cod_loja inv) (update_row add inv row)).
  split; [now apply merged_row|].
  unfold update_row, enrich.
  rewrite lookup_quantidade.
  unfold get_default.
  rewrite lookup_cod_grupo, lookup_desc_grupo, lookup_desc_produto.
  split.
  - intros Hn He.
    assert (Hg : isna_or_empty (grupo row) = false).
    { destruct (grupo row) as [s| |]; simpl; auto; [|congruence].
      apply String.eqb_neq. congruence. }
    rewrite Hg.
    destruct (inventory_row (codigo row) inv) as [r|]; simpl.
    + now destruct (differs (estoque row) (quantidade r)).
    + now destruct (differs (estoque row) 0).
  - intros Hblank inv_row cod desc Hinv Hcod Hdesc.
    assert (Hg : isna_or_empty (grupo row) = true)
      by (destruct Hblank as [-> | ->]; reflexivity).
    rewrite Hg, Hinv. simpl. rewrite Hcod, Hdesc. simpl.
    pose proof (format_grupo_trimmed (CStr cod) (CStr desc)) as Ht.
    simpl in Ht.
    destruct (String.eqb_spec cod ""), (String.eqb_spec desc ""); simpl;
      destruct (differs (estoque row) (quantidade inv_row)); simpl;
      (split; [reflexivity|]); split; try tauto; intros; eauto.
Qed.

(** C5.  Enrichment: empty cells of the inventory.  A row of the weekly
    report without a group, whose code the inventory has with an empty
    group code cell and the group label "Outros", gets the group
    "nan - Outros", and the group "nan - nan" when both cells are empty:
    an empty cell is read as [NaN], which is true as a condition and
    "nan" as a text.  With empty strings in place of the empty cells the
    group is "Outros", and is left empty when both are empty. *)
Theorem enrichment_empty_cells :
  forall add' : Z -> Z -> Z,
    map grupo (rows (_compare_and_merge add' MergeScenario.weekly_blank
                       (MergeScenario.inventory_groups CNull (CStr "Outros"))))
    = [CStr "nan - Outros"]
    /\ map grupo (rows (_compare_and_merge add' MergeScenario.weekly_blank
                          (MergeScenario.inventory_groups CNull CNull)))
       = [CStr "nan - nan"]
    /\ map grupo (rows (_compare_and_merge add' MergeScenario.weekly_blank
                          (MergeScenario.inventory_groups (CStr "")
                             (CStr "Outros"))))
       = [CStr "Outros"]
    /\ map grupo (rows (_compare_and_merge add' MergeScenario.weekly_blank
                          (MergeScenario.inventory_groups (CStr "")
                             (CStr ""))))
       = [CStr ""].
Proof. intros add'. vm_compute. repeat split; reflexivity. Qed.
End MergeClaims.


(* ================================================================== *)
(** * Reconciliation: the ranking merge and its gate *)
(* ================================================================== *)

Section RankingMerge.
Import ComparisonService RankingSpec Spec Num.

Variable add : Z -> Z -> Z.
Hypothesis add_exact : exact_add add.

Lemma in_set_In k s : in_set k s = true <-> In k s.
Proof.
  unfold in_set. rewrite existsb_exists. split.
  - intros (x & Hin & E). apply String.eqb_eq in E. now subst.
  - intros H. exists k. split; auto. apply String.eqb_refl.
Qed.

Lemma in_set_false k s : in_set k s = false <-> ~ In k s.
Proof.
  rewrite <- in_set_In. destruct (in_set k s); split; congruence.
Qed.












(** The ranking merge scenario of the specification, through
    [compare]. *)
Example ranking_scenario :
  rows (fst (fst (compare int64_add MergeScenario.weekly
                    (MergeScenario.inventory "1225")
                    (Some MergeScenario.ranking))))
  = [ mkRow (CStr "1225") "1234567" (Some "PRODUTO TESTE A")
        (CStr "1014 - Funcionais") (Some 150) (Some 25) (Some 175) (Some 20)
        (Some 50) (Some 70);
      mkRow (CStr "1225") "2345678" (Some "PRODUTO TESTE B")
        (CStr "1010 - Outros") (Some 0) (Some 10) (Some 10) (Some 10)
        None None;
      mkRow (CStr "1225") "4567890" (Some "TRUFA LACREME")
        (CStr "1010 - Outros") (Some 20) None (Some 20) (Some 3) None None;
      mkRow (CStr "1225") "3456789" (Some "PRODUTO NOVO C")
        (CStr "1013 - Pascoa") (Some 30) None (Some 30) (Some 0) None None;
      mkRow (CStr "1225") "9999999" (Some "PRODUTO NOVO MAZZA") CNull
        None None None None (Some 100) (Some 100) ]
  /\ columns (fst (fst (compare int64_add MergeScenario.weekly
                          (MergeScenario.inventory "1225")
                          (Some MergeScenario.ranking))))
     = ["Cód. Loja"; "Código do Produto"; "Descrição"; "Grupo"; "Estoque";
        "Pedido"; "Total"; "Saídas"; "Saídas VD"; "Saídas Total";
        "Sugestão"].
Proof. vm_compute. split; reflexivity. Qed.

(** An entry without a quantity leaves the two fields of the rows of
    its code null, and the next entry of the code starts from 0. *)
Example ranking_null_quantity :
  map (fun r => (saidas_vd r, saidas_total r))
    (fst (mazza_state int64_add "1225" MergeScenario.largest_outbound
            [mkMazzaRow "1234567" (Some "A") (Some 5);
             mkMazzaRow "1234567" (Some "A") None]))
  = [(None, None)]
  /\ map (fun r => (saidas_vd r, saidas_total r))
       (fst (mazza_state int64_add "1225" MergeScenario.repeated_rows
               [mkMazzaRow "1234567" (Some "A") (Some 5);
                mkMazzaRow "1234567" (Some "A") None;
                mkMazzaRow "1234567" (Some "A") (Some 7)]))
     = [(Some 7, Some 27); (Some 7, Some 27)].
Proof. vm_compute. split; reflexivity. Qed.

(** C3.  Gate of the ranking merge.  When the store code derived from
    the first row of the inventory is not the designated store code,
    [compare] with a ranking gives what [compare] without a ranking
    gives: the same frame (labels and rows), store code and store
    name. *)
Theorem compare_gating :
  forall (weekly : Frame) (inv : list InvRow) (mazza : list MazzaRow),
    store_code_of inv <> Some designated_store ->
    compare add weekly inv (Some mazza) = compare add weekly inv None.
Proof.
  intros weekly inv mazza Hne. unfold compare.
  destruct inv as [|r inv]; simpl in *; auto.
  destruct (String.eqb (py_str (inv_cod_loja r)) designated_store) eqn:E;
    auto.
  apply String.eqb_eq in E. congruence.
Qed.

Lemma compare_store_code weekly inv mazza :
  snd (fst (compare add weekly inv mazza)) = store_code_of inv.
Proof. reflexivity. Qed.
End RankingMerge.


Lemma compare_gating_witness :
  ComparisonService.compare Num.int64_add MergeScenario.weekly
    (MergeScenario.inventory "6835") (Some MergeScenario.ranking)
  = ComparisonService.compare Num.int64_add MergeScenario.weekly
      (MergeScenario.inventory "6835") None.
Proof.
  apply (compare_gating Num.int64_add MergeScenario.weekly
           (MergeScenario.inventory "6835") MergeScenario.ranking).
  vm_compute. discriminate.
Defined.

(* ================================================================== *)
(** * Reconciliation: the sort *)
(* ================================================================== *)

Section Sorting.
Import ComparisonService SortSpec.

Lemma prefix_occurs sub s :
  String.prefix sub s = true <-> exists post, s = sub ++ post.
Proof.
  revert s. induction sub as [|a sub IH]; intros [|b s]; simpl.
  - split; auto. now exists "".
  - split; auto. now exists (String b s).
  - split; [discriminate | intros [post H]; discriminate].
  - destruct (ascii_dec a b) as [->|Hne].
    + rewrite IH. split; intros [post H]; exists post.
      * now rewrite H.
      * now injection H.
    + split; [discriminate|]. intros [post H]. injection H. congruence.
Qed.

Lemma contains_occurs sub s : Py.contains sub s = true <-> occurs sub s.
Proof.
  unfold occurs. induction s as [|c s IH].
  - change (Py.contains sub "") with (String.prefix sub "" || false).
    rewrite orb_false_r, prefix_occurs. split.
    + intros [post H]. now exists "", post.
    + intros (pre & post & H). destruct pre; simpl in H; [|discriminate].
      now exists post.
  - change (Py.contains sub (String c s))
      with (String.prefix sub (String c s) || Py.contains sub s).
    rewrite orb_true_iff, IH, prefix_occurs. split.
    + intros [[post H] | (pre & post & H)].
      * now exists "", post.
      * exists (String c pre), post. simpl. now rewrite H.
    + intros (pre & post & H). destruct pre as [|c' pre]; simpl in H.
      * left. now exists post.
      * right. injection H as _ H. now exists pre, post.
Qed.

Lemma string_leb_trans a b c :
  String.leb a b = true -> String.leb b c = true -> String.leb a c = true.
Proof.
  unfold String.leb. revert b c.
  induction a as [|x a IH]; intros [|y b] [|z c]; simpl; auto;
    try discriminate.
  unfold Ascii.compare.
  destruct (N.compare_spec (N_of_ascii x) (N_of_ascii y)) as [E1|L1|G1];
    destruct (N.compare_spec (N_of_ascii y) (N_of_ascii z)) as [E2|L2|G2];
    destruct (N.compare_spec (N_of_ascii x) (N_of_ascii z)) as [E3|L3|G3];
    try discriminate; auto; try (exfalso; lia).
  apply IH.
Qed.

Lemma desc_leb_total a b : desc_leb a b = false -> desc_leb b a = true.
Proof.
  destruct a as [x|], b as [y|]; simpl; auto; try discriminate.
  intros H. destruct (String.leb_total x y); congruence.
Qed.

Lemma desc_leb_trans a b c :
  desc_leb a b = true -> desc_leb b c = true -> desc_leb a c = true.
Proof.
  destruct a, b, c; simpl; auto; try discriminate.
  apply string_leb_trans.
Qed.

Lemma row_leb_iff a b :
  row_leb a b = true
  <-> grupo_priority (grupo a) < grupo_priority (grupo b)
      \/ (grupo_priority (grupo a) = grupo_priority (grupo b)
          /\ desc_leb (descricao a) (descricao b) = true).
Proof.
  unfold row_leb.
  now rewrite orb_true_iff, andb_true_iff, Z.ltb_lt, Z.eqb_eq.
Qed.

Lemma row_le_total a b : row_leb a b = false -> row_le b a.
Proof.
  intros H. unfold row_le. apply row_leb_iff.
  assert (Hn : ~ (row_leb a b = true)) by congruence.
  rewrite row_leb_iff in Hn.
  destruct (Z.lt_total (grupo_priority (grupo a)) (grupo_priority (grupo b)))
    as [L | [E | G]]; [tauto | | tauto].
  right. split; [congruence|].
  apply desc_leb_total.
  destruct (desc_leb (descricao a) (descricao b)); tauto.
Qed.

Lemma row_le_trans a b c : row_le a b -> row_le b c -> row_le a c.
Proof.
  unfold row_le. rewrite !row_leb_iff.
  intros [L1 | [E1 D1]] [L2 | [E2 D2]]; try (left; lia).
  right. split; [lia|]. eapply desc_leb_trans; eauto.
Qed.

Lemma insert_sorted_perm r l : Permutation (r :: l) (insert_sorted r l).
Proof.
  induction l as [|x l IH]; simpl; auto.
  destruct (row_leb x r); auto.
  eapply perm_trans; [apply perm_swap|]. now apply perm_skip.
Qed.

Lemma insert_sorted_sorted r l :
  StronglySorted row_le l -> StronglySorted row_le (insert_sorted r l).
Proof.
  induction 1 as [|x l Hs IH Hx]; simpl.
  - repeat constructor.
  - destruct (row_leb x r) eqn:E.
    + constructor; auto.
      eapply Permutation_Forall; [apply insert_sorted_perm|].
      constructor; auto.
    + apply row_le_total in E.
      constructor; [constructor; auto|].
      constructor; auto.
      eapply Forall_impl; [|exact Hx].
      intros y Hy. eapply row_le_trans; eauto.
Qed.

Lemma fold_insert_perm l acc :
  Permutation (acc ++ l)
    (fold_left (fun acc r => insert_sorted r acc) l acc).
Proof.
  revert acc. induction l as [|r l IH]; intros acc; simpl.
  - now rewrite app_nil_r.
  - eapply perm_trans; [|apply IH].
    eapply perm_trans; [apply Permutation_sym, Permutation_middle|].
    apply (Permutation_app_tail l (insert_sorted_perm r acc)).
Qed.

Lemma fold_insert_sorted l acc :
  StronglySorted row_le acc ->
  StronglySorted row_le (fold_left (fun acc r => insert_sorted r acc) l acc).
Proof.
  revert acc. induction l as [|r l IH]; intros acc H; simpl; auto.
  apply IH. now apply insert_sorted_sorted.
Qed.

Lemma stable_sort_perm l : Permutation l (stable_sort l).
Proof. apply (fold_insert_perm l []). Qed.

Lemma stable_sort_sorted l : StronglySorted row_le (stable_sort l).
Proof. apply fold_insert_sorted. constructor. Qed.

Lemma strongly_sorted_nth (l : list Row) :
  StronglySorted row_le l ->
  forall i j a b, (i < j)%nat -> nth_error l i = Some a ->
                  nth_error l j = Some b -> row_le a b.
Proof.
  induction 1 as [|x l Hs IH Hx]; intros i j a b Hij Hi Hj.
  - destruct i; discriminate.
  - destruct j as [|j]; [lia|]. simpl in Hj.
    destruct i as [|i]; simpl in Hi.
    + injection Hi as <-. rewrite Forall_forall in Hx.
      apply Hx. eapply nth_error_In; eauto.
    + apply (IH i j); auto. lia.
Qed.

(** The sort is stable: rows that the order does not separate keep
    their relative order.  [insert_sorted] puts a row after the rows
    that are not above it. *)
Lemma insert_sorted_after r l :
  exists l1 l2, insert_sorted r l = (l1 ++ r :: l2)%list
                /\ l = (l1 ++ l2)%list
                /\ Forall (fun x => row_le x r) l1.
Proof.
  induction l as [|x l (l1 & l2 & E & El & Hl)]; simpl.
  - exists [], []. repeat split; auto.
  - destruct (row_leb x r) eqn:Hx.
    + exists (x :: l1), l2. simpl. rewrite E, El. repeat split; auto.
    + exists [], (x :: l). repeat split; auto.
Qed.

Lemma grupo_priority_text s :
  (first_tier s -> grupo_priority (CStr s) = 0)
  /\ (~ first_tier s -> last_tier s -> grupo_priority (CStr s) = 2)
  /\ (~ first_tier s -> ~ last_tier s -> grupo_priority (CStr s) = 1).
Proof.
  unfold first_tier, last_tier, grupo_priority. simpl.
  rewrite <- !contains_occurs.
  destruct (String.eqb s "") eqn:Es.
  - apply String.eqb_eq in Es. subst s.
    repeat split; auto; vm_compute; intros; intuition discriminate.
  - destruct (Py.contains "1014" s), (Py.contains "Funcionais" s),
      (Py.contains "1013" s), (Py.contains "Pascoa" s); simpl;
      repeat split; auto; intros; intuition discriminate.
Qed.
End Sorting.

Section SortClaim.
Import ComparisonService SortSpec.

Lemma three_groups cols r1 r2 r3 :
  grupo r1 = CStr "1010 - Outros" ->
  grupo r2 = CStr "1014 - Funcionais" ->
  grupo r3 = CStr "1013 - Pascoa" ->
  rows (_apply_sorting (mkFrame cols [r1; r2; r3])) = [r2; r1; r3].
Proof.
  intros H1 H2 H3.
  assert (P1 : grupo_priority (grupo r1) = 1) by (now rewrite H1).
  assert (P2 : grupo_priority (grupo r2) = 0) by (now rewrite H2).
  assert (P3 : grupo_priority (grupo r3) = 2) by (now rewrite H3).
  unfold _apply_sorting, stable_sort. simpl.
  do 3 (unfold row_leb; rewrite ?P1, ?P2, ?P3; simpl).
  reflexivity.
Qed.

(** C4.  The sort of the reconciliation.  The priority of a group is 0
    when its text has both "1014" and "Funcionais"; otherwise 2 when
    it has both "1013" and "Pascoa"; otherwise 1, also for the null
    and the empty group.  [_apply_sorting] keeps the labels, permutes
    the rows, and in its result a row never comes after a row of a
    higher priority and, among rows of one priority, never after a row
    whose description is greater in the lexicographic order (a null
    description comes after the strings).  Rows with the groups
    "1010 - Outros", "1014 - Funcionais", "1013 - Pascoa", in this
    order, come out in the order "1014 - Funcionais", "1010 - Outros",
    "1013 - Pascoa", whatever their descriptions. *)
Theorem apply_sorting_contract :
  (forall s, first_tier s -> grupo_priority (CStr s) = 0)
  /\ (forall s, ~ first_tier s -> last_tier s ->
                grupo_priority (CStr s) = 2)
  /\ (forall s, ~ first_tier s -> ~ last_tier s ->
                grupo_priority (CStr s) = 1)
  /\ grupo_priority CNull = 1
  /\ grupo_priority (CStr "") = 1
  /\ (forall df : Frame,
         columns (_apply_sorting df) = columns df
         /\ Permutation (rows df) (rows (_apply_sorting df))
         /\ forall i j a b,
             (i < j)%nat ->
             nth_error (rows (_apply_sorting df)) i = Some a ->
             nth_error (rows (_apply_sorting df)) j = Some b ->
             grupo_priority (grupo a) <= grupo_priority (grupo b)
             /\ (grupo_priority (grupo a) = grupo_priority (grupo b) ->
                 (forall x y, descricao a = Some x -> descricao b = Some y ->
                              String.leb x y = true)
                 /\ (descricao a = None -> descricao b = None)))
  /\ (forall cols r1 r2 r3,
         grupo r1 = CStr "1010 - Outros" ->
         grupo r2 = CStr "1014 - Funcionais" ->
         grupo r3 = CStr "1013 - Pascoa" ->
         map grupo (rows (_apply_sorting (mkFrame cols [r1; r2; r3])))
         = [CStr "1014 - Funcionais"; CStr "1010 - Outros";
            CStr "1013 - Pascoa"]).
Proof.
  split; [intros s; apply (grupo_priority_text s)|].
  split; [intros s; apply (grupo_priority_text s)|].
  split; [intros s; apply (grupo_priority_text s)|].
  split; [reflexivity|]. split; [reflexivity|]. split.
  - intros df. split; [reflexivity|].
    split; [apply stable_sort_perm|].
    intros i j a b Hij Hi Hj.
    pose proof (strongly_sorted_nth _ (stable_sort_sorted (rows df))
                  i j a b Hij Hi Hj) as Hle.
    unfold row_le in Hle. apply row_leb_iff in Hle.
    destruct Hle as [L | [E D]].
    + split; [lia|]. intros E. lia.
    + split; [lia|]. intros _. split.
      * intros x y Hx Hy. now rewrite Hx, Hy in D.
      * intros Hx. rewrite Hx in D. now destruct (descricao b).
  - intros cols r1 r2 r3 H1 H2 H3.
    rewrite (three_groups cols r1 r2 r3 H1 H2 H3). simpl.
    now rewrite H1, H2, H3.
Qed.

Lemma apply_sorting_contract_witness :
  map grupo
    (rows (_apply_sorting
             (mkFrame MergeScenario.weekly_columns
                [ mkRow CNull "1" (Some "B") (CStr "1010 - Outros")
                    None None None None None None;
                  mkRow CNull "2" (Some "C") (CStr "1014 - Funcionais")
                    None None None None None None;
                  mkRow CNull "3" (Some "A") (CStr "1013 - Pascoa")
                    None None None None None None ])))
  = [CStr "1014 - Funcionais"; CStr "1010 - Outros"; CStr "1013 - Pascoa"].
Proof.
  apply (proj2 (proj2 (proj2 (proj2 (proj2 (proj2
           apply_sorting_contract))))));
    reflexivity.
Defined.

Example sort_by_description :
  map descricao
    (stable_sort
       [ mkRow CNull "1" (Some "ZEBRA") (CStr "1010 - Outros")
           None None None None None None;
         mkRow CNull "2" None (CStr "")
           None None None None None None;
         mkRow CNull "3" (Some "ALPHA") CNull
           None None None None None None;
         mkRow CNull "4" (Some "MIDDLE") (CStr "1014 - Funcionais")
           None None None None None None;
         mkRow CNull "5" (Some "BETA") (CStr "1013 e Pascoa")
           None None None None None None ])
  = [Some "MIDDLE"; Some "ALPHA"; Some "ZEBRA"; None; Some "BETA"].
Proof. vm_compute. reflexivity. Qed.
End SortClaim.

(* ================================================================== *)
(** * Line-scan parsers *)
(* ================================================================== *)

Section ParserFacts.
Import PDFParserService ParserSpec.

Lemma fold_left_invariant (A B : Type) (P : A -> Prop) (f : A -> B -> A)
    (l : list B) (a : A) :
  P a -> (forall a b, In b l -> P a -> P (f a b)) -> P (fold_left f l a).
Proof.
  revert a. induction l as [|b l IH]; intros a Ha Hstep; simpl; auto.
  apply IH.
  - apply Hstep; simpl; auto.
  - intros a' b' Hin. apply Hstep. simpl. auto.
Qed.

(** A property of the dictionaries that every completed iteration keeps
    holds when the scan ends, whether it ends at the last line or at an
    iteration that raises. *)
Lemma scan_lines_invariant (P : result -> Prop) step (l : list nat) acc :
  P acc ->
  (forall acc i acc', In i l -> P acc -> step acc i = Some acc' -> P acc') ->
  P (scan_lines step l acc).
Proof.
  revert acc. induction l as [|i l IH]; intros acc Ha Hstep; simpl; auto.
  destruct (step acc i) as [acc'|] eqn:E; auto.
  apply IH.
  - apply (Hstep acc i); simpl; auto.
  - intros a j a' Hin. apply Hstep. simpl. auto.
Qed.

Lemma in_range i lo hi : In i (range lo hi) <-> (lo <= i < hi)%nat.
Proof. unfold range. rewrite in_seq. lia. Qed.

Lemma int_acc_nonneg s acc : 0 <= acc -> 0 <= Py.int_acc s acc.
Proof.
  revert acc. induction s as [|c s IH]; intros acc H; [exact H|].
  change (0 <= Py.int_acc s (10 * acc + Py.digit_val c)).
  apply IH.
  assert (0 <= Py.digit_val c) by apply Nat2Z.is_nonneg.
  lia.
Qed.

Lemma int_nonneg s v : Py.int s = Some v -> 0 <= v.
Proof.
  unfold Py.int. destruct (_ <=? _); [|discriminate].
  intros [= <-]. apply int_acc_nonneg. lia.
Qed.

Lemma group_int_nonneg m v : group_int m = Some v -> 0 <= v.
Proof.
  unfold group_int. destruct (Re.group1 m); [apply int_nonneg | discriminate].
Qed.

Lemma extract_units_nonneg dsc u :
  extract_units_from_description dsc = Some u -> 0 <= u.
Proof.
  unfold extract_units_from_description.
  destruct dsc; [intros [= <-]; lia|].
  repeat match goal with
         | |- context [match ?x with Some _ => _ | None => _ end] =>
             destruct x
         end; try apply group_int_nonneg; intros [= <-]; lia.
Qed.

Lemma nodup_keys_set (V : Type) k (v : V) (d : dict V) :
  NoDup (Dict.keys d) -> NoDup (Dict.keys (Dict.set k v d)).
Proof.
  intros H. destruct (Dict.get k d) eqn:E.
  - rewrite keys_set_present; [auto | congruence].
  - rewrite keys_set_absent; auto.
    apply get_none_keys in E.
    apply NoDup_rev in H. rewrite <- (rev_involutive (_ ++ _)).
    apply NoDup_rev. rewrite rev_app_distr. simpl.
    constructor; auto. now rewrite <- in_rev.
Qed.

(** ** The update of the dictionaries *)

Lemma record_item_skip c dsc u qty acc :
  qty <= 0 -> record_item c dsc u qty acc = acc.
Proof.
  intros H. unfold record_item. destruct acc as [qs ds].
  destruct (0 <? qty) eqn:E; auto. apply Z.ltb_lt in E. lia.
Qed.

Lemma record_item_other c c' dsc u qty acc :
  c' <> c ->
  Dict.get c' (fst (record_item c dsc u qty acc)) = Dict.get c' (fst acc)
  /\ Dict.get c' (snd (record_item c dsc u qty acc)) = Dict.get c' (snd acc).
Proof.
  intros Hne. unfold record_item. destruct acc as [qs ds].
  destruct (0 <? qty); auto.
  destruct (Dict.get c qs); simpl; rewrite ?get_set_other; auto.
Qed.

Lemma record_item_well_formed c dsc u qty acc :
  0 <= u -> well_formed acc -> well_formed (record_item c dsc u qty acc).
Proof.
  unfold well_formed, record_item. destruct acc as [qs ds]. simpl.
  intros Hu (Hk & Hnd & Hq).
  destruct (0 <? qty) eqn:Eq; simpl; auto.
  apply Z.ltb_lt in Eq.
  destruct (Dict.get c qs) as [q0|] eqn:Eg; simpl.
  - split; [|split].
    + rewrite keys_set_present; [auto | congruence].
    + now apply nodup_keys_set.
    + intros c' q. rewrite get_set.
      destruct (String.eqb c' c); [|apply Hq].
      intros [= <-]. specialize (Hq _ _ Eg). nia.
  - split; [|split].
    + rewrite !keys_set_absent; auto; [now rewrite Hk|].
      apply get_none_keys. rewrite <- Hk. now apply get_none_keys.
    + now apply nodup_keys_set.
    + intros c' q. rewrite get_set.
      destruct (String.eqb c' c); [|apply Hq].
      intros [= <-]. nia.
Qed.

(** The quantity of a code stays positive when the occurrences of that
    code have a positive multiplier. *)
Lemma record_item_positive_at c c' dsc u qty acc :
  0 <= u -> (c' = c -> 0 < u) ->
  positive_at c acc -> positive_at c (record_item c' dsc u qty acc).
Proof.
  unfold positive_at, record_item. destruct acc as [qs ds]. simpl.
  intros Hu0 Hu Hq.
  destruct (0 <? qty) eqn:Eq; simpl; auto.
  apply Z.ltb_lt in Eq.
  destruct (Dict.get c' qs) as [q0|] eqn:Eg; simpl;
    intros q; rewrite get_set;
    (destruct (String.eqb c c') eqn:Ec; [|apply Hq]); intros [= <-];
    apply String.eqb_eq in Ec; subst c'.
  - specialize (Hq _ Eg). specialize (Hu eq_refl). nia.
  - specialize (Hu eq_refl). nia.
Qed.

(** ** The loop bodies *)

(** An iteration that does not raise leaves the dictionaries as they
    are, or updates them for the occurrence at its line. *)
Lemma nf_step_cases lines acc i acc' :
  nf_step lines acc i = Some acc' ->
  acc' = acc
  \/ exists c u q,
       code_at lines i = Some c /\ (i + 1 < List.length lines)%nat
       /\ units_at lines (i + 1) = Some u /\ nf_qty_at lines i = Some q
       /\ acc' = record_item c (Py.strip (line_at lines (i + 1))) u q acc.
Proof.
  unfold nf_step, code_at, units_at, nf_qty_at, nf_window.
  destruct (Re.rmatch re_code _) as [m|]; [|intros [= <-]; auto].
  destruct (Re.group1 m) as [c|]; [|intros [= <-]; auto].
  destruct (Nat.ltb_spec (i + 1) (List.length lines)); [|intros [= <-]; auto].
  destruct (extract_units_from_description _) as [u|]; [|discriminate].
  destruct (scan_qty _ _ _) as [q|]; [|discriminate].
  intros [= <-]. right. exists c, u, q. auto.
Qed.

Lemma pedido_step_cases lines acc i acc' :
  pedido_step lines acc i = Some acc' ->
  acc' = acc
  \/ exists c u q,
       marker_at lines i = true
       /\ code_at lines (i + 1) = Some c /\ (i + 2 < List.length lines)%nat
       /\ units_at lines (i + 2) = Some u /\ pedido_qty_at lines i = Some q
       /\ acc' = record_item c (Py.strip (line_at lines (i + 2))) u q acc.
Proof.
  unfold pedido_step, marker_at, code_at, units_at, pedido_qty_at,
    pedido_window.
  destruct (Re.rmatch re_item _) as [m|]; [|intros [= <-]; auto].
  destruct (Py.int _) as [item|]; [|discriminate].
  destruct (item mod 10 =? 0); [|intros [= <-]; auto].
  destruct (Nat.ltb_spec (i + 1) (List.length lines)); [|intros [= <-]; auto].
  destruct (Re.rmatch re_code _) as [m'|]; [|intros [= <-]; auto].
  destruct (Re.group1 m') as [c|]; [|intros [= <-]; auto].
  destruct (Nat.ltb_spec (i + 2) (List.length lines)); [|intros [= <-]; auto].
  destruct (extract_units_from_description _) as [u|]; [|discriminate].
  destruct (scan_qty _ _ _) as [q|]; [|discriminate].
  intros [= <-]. right. exists c, u, q. repeat split; auto.
Qed.

Lemma scan_qty_none pat lines js :
  (forall j, In j js -> is_qty pat lines j = false) ->
  scan_qty pat lines js = Some 0.
Proof.
  induction js as [|j js IH]; simpl; auto.
  intros H. pose proof (H j (or_introl eq_refl)) as Hj.
  unfold is_qty in Hj.
  destruct (Re.rmatch pat _); [discriminate|]. auto.
Qed.

Lemma scan_qty_ext pat lines lines' js :
  (forall j, In j js -> line_at lines j = line_at lines' j) ->
  scan_qty pat lines js = scan_qty pat lines' js.
Proof.
  induction js as [|j js IH]; simpl; auto.
  intros H. rewrite (H j (or_introl eq_refl)).
  destruct (Re.rmatch pat _); auto.
Qed.

Lemma line_at_firstn lines m j :
  (j < m)%nat -> line_at (firstn m lines) j = line_at lines j.
Proof.
  unfold line_at. revert m j.
  induction lines as [|l lines IH]; intros m j H.
  - now rewrite firstn_nil.
  - destruct m as [|m]; [lia|]. destruct j as [|j]; simpl; auto.
    apply IH. lia.
Qed.

Lemma line_at_prefix lines lines' m j :
  firstn m lines = firstn m lines' -> (j < m)%nat ->
  line_at lines j = line_at lines' j.
Proof.
  intros H Hj.
  now rewrite <- (line_at_firstn lines m j Hj), H, line_at_firstn.
Qed.

Lemma min_length_prefix (lines lines' : list string) m :
  firstn m lines = firstn m lines' ->
  Nat.min m (List.length lines) = Nat.min m (List.length lines').
Proof.
  intros H.
  rewrite <- (length_firstn m lines), <- (length_firstn m lines').
  now rewrite H.
Qed.
End ParserFacts.

Section ParserLoops.
Import PDFParserService ParserSpec.

Lemma absent_empty c : absent c empty_result.
Proof. split; reflexivity. Qed.

Lemma well_formed_empty : well_formed empty_result.
Proof. repeat split; simpl; [constructor | discriminate]. Qed.

Lemma record_item_absent c c' dsc u qty acc :
  (c' = c -> qty <= 0) ->
  absent c acc -> absent c (record_item c' dsc u qty acc).
Proof.
  intros Hq [Ha Hb]. unfold absent.
  destruct (string_dec c' c) as [->|Hne].
  - rewrite record_item_skip; auto.
  - destruct (record_item_other c' c dsc u qty acc) as [E1 E2]; [congruence|].
    now rewrite E1, E2.
Qed.

(** A property of the dictionaries that holds when they are empty and
    that the update for an occurrence keeps holds for the result of the
    parser. *)
Lemma parse_nf_invariant (P : result -> Prop) lines :
  P empty_result ->
  (forall acc i c u q,
      (i + 1 < List.length lines)%nat -> code_at lines i = Some c ->
      units_at lines (i + 1) = Some u -> nf_qty_at lines i = Some q ->
      P acc -> P (record_item c (Py.strip (line_at lines (i + 1))) u q acc)) ->
  P (parse_lines nf_step lines).
Proof.
  intros H0 Hrec. unfold parse_lines.
  apply (scan_lines_invariant P); auto.
  intros acc i acc' _ Hacc Hstep.
  apply nf_step_cases in Hstep.
  destruct Hstep as [-> | (c & u & q & Hc & Hi & Hu & Hq & ->)]; auto.
Qed.

Lemma parse_pedido_invariant (P : result -> Prop) lines :
  P empty_result ->
  (forall acc i c u q,
      (i + 2 < List.length lines)%nat -> marker_at lines i = true ->
      code_at lines (i + 1) = Some c ->
      units_at lines (i + 2) = Some u -> pedido_qty_at lines i = Some q ->
      P acc -> P (record_item c (Py.strip (line_at lines (i + 2))) u q acc)) ->
  P (parse_lines pedido_step lines).
Proof.
  intros H0 Hrec. unfold parse_lines.
  apply (scan_lines_invariant P); auto.
  intros acc i acc' _ Hacc Hstep.
  apply pedido_step_cases in Hstep.
  destruct Hstep as [-> | (c & u & q & Hm & Hc & Hi & Hu & Hq & ->)]; auto.
Qed.

Lemma parse_nf_well_formed lines : well_formed (parse_lines nf_step lines).
Proof.
  apply parse_nf_invariant; [apply well_formed_empty|].
  intros acc i c u q _ _ Hu _ H.
  apply record_item_well_formed; auto.
  eapply extract_units_nonneg; eauto.
Qed.

Lemma parse_pedido_well_formed lines :
  well_formed (parse_lines pedido_step lines).
Proof.
  apply parse_pedido_invariant; [apply well_formed_empty|].
  intros acc i c u q _ _ _ Hu _ H.
  apply record_item_well_formed; auto.
  eapply extract_units_nonneg; eauto.
Qed.

Lemma parse_nf_positive_at lines c :
  (forall i u, (i + 1 < List.length lines)%nat -> code_at lines i = Some c ->
               units_at lines (i + 1) = Some u -> 0 < u) ->
  positive_at c (parse_lines nf_step lines).
Proof.
  intros Hpos. apply parse_nf_invariant; [intros q; discriminate|].
  intros acc i c' u q Hi Hc Hu _ H.
  apply record_item_positive_at; auto.
  - eapply extract_units_nonneg; eauto.
  - intros ->. eapply Hpos; eauto.
Qed.

Lemma parse_pedido_positive_at lines c :
  (forall i u, (i + 2 < List.length lines)%nat -> marker_at lines i = true ->
               code_at lines (i + 1) = Some c ->
               units_at lines (i + 2) = Some u -> 0 < u) ->
  positive_at c (parse_lines pedido_step lines).
Proof.
  intros Hpos. apply parse_pedido_invariant; [intros q; discriminate|].
  intros acc i c' u q Hi Hm Hc Hu _ H.
  apply record_item_positive_at; auto.
  - eapply extract_units_nonneg; eauto.
  - intros ->. eapply Hpos; eauto.
Qed.

Lemma parse_nf_absent lines c :
  (forall i q, (i < List.length lines)%nat -> code_at lines i = Some c ->
               nf_qty_at lines i = Some q -> q <= 0) ->
  absent c (parse_lines nf_step lines).
Proof.
  intros Hq. apply parse_nf_invariant; [apply absent_empty|].
  intros acc i c' u q Hi Hc _ Hqty H.
  apply record_item_absent; auto.
  intros ->. apply (Hq i); auto. lia.
Qed.

Lemma parse_pedido_absent lines c :
  (forall i q, (i < List.length lines)%nat -> marker_at lines i = true ->
               code_at lines (i + 1) = Some c ->
               pedido_qty_at lines i = Some q -> q <= 0) ->
  absent c (parse_lines pedido_step lines).
Proof.
  intros Hq. apply parse_pedido_invariant; [apply absent_empty|].
  intros acc i c' u q Hi Hm Hc _ Hqty H.
  apply record_item_absent; auto.
  intros ->. apply (Hq i); auto. lia.
Qed.

Lemma ltb_prefix (lines lines' : list string) m k :
  firstn m lines = firstn m lines' -> (k < m)%nat ->
  (k <? List.length lines)%nat = (k <? List.length lines')%nat.
Proof.
  intros H Hk. apply min_length_prefix in H.
  destruct (Nat.ltb_spec k (List.length lines)),
    (Nat.ltb_spec k (List.length lines')); auto; lia.
Qed.

Lemma nf_step_local lines lines' acc i :
  firstn (i + 10) lines = firstn (i + 10) lines' ->
  nf_step lines acc i = nf_step lines' acc i.
Proof.
  intros H. unfold nf_step.
  rewrite (line_at_prefix lines lines' (i + 10) i H) by lia.
  rewrite (line_at_prefix lines lines' (i + 10) (i + 1) H) by lia.
  rewrite (ltb_prefix lines lines' (i + 10) (i + 1) H) by lia.
  rewrite (min_length_prefix lines lines' (i + 10) H).
  rewrite (scan_qty_ext re_qty_nf lines lines'); auto.
  intros j Hj. apply in_range in Hj.
  apply (line_at_prefix lines lines' (i + 10)); auto. lia.
Qed.

Lemma pedido_step_local lines lines' acc i :
  firstn (i + 8) lines = firstn (i + 8) lines' ->
  pedido_step lines acc i = pedido_step lines' acc i.
Proof.
  intros H. unfold pedido_step.
  rewrite (line_at_prefix lines lines' (i + 8) i H) by lia.
  rewrite (line_at_prefix lines lines' (i + 8) (i + 1) H) by lia.
  rewrite (line_at_prefix lines lines' (i + 8) (i + 2) H) by lia.
  rewrite (ltb_prefix lines lines' (i + 8) (i + 1) H) by lia.
  rewrite (ltb_prefix lines lines' (i + 8) (i + 2) H) by lia.
  rewrite (min_length_prefix lines lines' (i + 8) H).
  rewrite (scan_qty_ext re_qty_pedido lines lines'); auto.
  intros j Hj. apply in_range in Hj.
  apply (line_at_prefix lines lines' (i + 8)); auto. lia.
Qed.
End ParserLoops.

Section WindowClaim.
Import PDFParserService ParserSpec.

Example nf_token_beyond_window :
  parse_nf_pdf (Some WindowScenario.nf_beyond) = empty_result.
Proof. vm_compute. reflexivity. Qed.

Example nf_token_inside_window :
  parse_nf_pdf (Some WindowScenario.nf_inside)
  = ([("1234567", 75)], [("1234567", "TABLETE")]).
Proof. vm_compute. reflexivity. Qed.

Example pedido_token_beyond_window :
  parse_pedido_pdf (Some WindowScenario.pedido_beyond) = empty_result.
Proof. vm_compute. reflexivity. Qed.

Example pedido_token_inside_window :
  parse_pedido_pdf (Some WindowScenario.pedido_inside)
  = ([("1234567", 300)], [("1234567", "TRUFA")]).
Proof. vm_compute. reflexivity. Qed.

(** C8.  Lookahead windows.  For the invoice format, the step of the
    parser at a line [i] is the same on two texts that agree up to
    index [i+9]: with the code at [i] and the description at [i+1],
    the quantity is searched at the indices [i+2 .. i+9] only.  For
    the order format, the step at an item marker [i] is the same on
    two texts that agree up to index [i+7]: with the code at [i+1] and
    the description at [i+2], the quantity is searched in the five
    lines [i+3 .. i+7] only.  A code none of whose occurrences has a
    quantity token inside its window is a key of neither dictionary
    of the result, whatever the lines beyond the windows are. *)
Theorem lookahead_window :
  forall (lines : list string) (c : string),
    (forall lines' acc i,
        firstn (i + 10) lines = firstn (i + 10) lines' ->
        nf_step lines acc i = nf_step lines' acc i)
    /\ (forall lines' acc i,
           firstn (i + 8) lines = firstn (i + 8) lines' ->
           pedido_step lines acc i = pedido_step lines' acc i)
    /\ ((forall i j, (i < List.length lines)%nat ->
                     code_at lines i = Some c ->
                     In j (nf_window lines i) ->
                     is_qty re_qty_nf lines j = false) ->
        absent c (parse_nf_pdf (Some lines)))
    /\ ((forall i j, (i < List.length lines)%nat ->
                     marker_at lines i = true ->
                     code_at lines (i + 1) = Some c ->
                     In j (pedido_window lines i) ->
                     is_qty re_qty_pedido lines j = false) ->
        absent c (parse_pedido_pdf (Some lines))).
Proof.
  intros lines c.
  split; [intros; now apply nf_step_local|].
  split; [intros; now apply pedido_step_local|].
  split.
  - intros H. apply parse_nf_absent. intros i q Hi Hc.
    unfold nf_qty_at. rewrite scan_qty_none; [intros [= <-]; lia|].
    intros j Hj. now apply (H i j).
  - intros H. apply parse_pedido_absent. intros i q Hi Hm Hc.
    unfold pedido_qty_at. rewrite scan_qty_none; [intros [= <-]; lia|].
    intros j Hj. now apply (H i j).
Qed.

Lemma lookahead_window_witness :
  absent "1234567" (parse_nf_pdf (Some WindowScenario.nf_beyond)).
Proof.
  apply (proj1 (proj2 (proj2
           (lookahead_window WindowScenario.nf_beyond "1234567")))).
  intros i j Hi Hc Hj.
  destruct i as [|i].
  - apply in_range in Hj. simpl in Hj.
    do 2 (destruct j as [|j]; [lia|]).
    do 8 (destruct j as [|j]; [reflexivity|]).
    lia.
  - do 10 (destruct i as [|i]; [vm_compute in Hc; discriminate|]).
    simpl in Hi. lia.
Defined.
End WindowClaim.

Section ParserInvariant.
Import PDFParserService ParserSpec.

Example zero_multiplier_units :
  extract_units_from_description "TABLETE 100GX0UN" = Some 0.
Proof. vm_compute. reflexivity. Qed.

Example zero_quantity_token :
  parse_nf_pdf (Some ["1234567"; "TABLETE 100GX15UN"; "0,000"; "5,000"])
  = empty_result.
Proof. vm_compute. reflexivity. Qed.

Example zero_multiplier_elsewhere :
  parse_nf_pdf (Some ZeroMultiplier.other_line)
  = ([("1234567", 75)], [("1234567", "TABLETE")])
  /\ parse_pedido_pdf (Some ZeroMultiplier.pedido_other_line)
     = ([("1234567", 75)], [("1234567", "TABLETE")]).
Proof. vm_compute. split; reflexivity. Qed.

(** C10, as stated, fails: with a description whose multiplier is 0 the
    positive quantity 5 of the token is stored as 0 units, in both
    parsers. *)
Lemma parser_zero_quantity :
  parse_nf_pdf (Some ZeroMultiplier.lines)
  = ([("1234567", 0)], [("1234567", "TABLETE")])
  /\ parse_pedido_pdf (Some ZeroMultiplier.pedido_lines)
     = ([("1234567", 0)], [("1234567", "TABLETE")])
  /\ ~ all_positive (parse_nf_pdf (Some ZeroMultiplier.lines))
  /\ ~ all_positive (parse_pedido_pdf (Some ZeroMultiplier.pedido_lines)).
Proof.
  split; [vm_compute; reflexivity|].
  split; [vm_compute; reflexivity|].
  split; intros H.
  - specialize (H "1234567" 0). vm_compute in H.
    specialize (H eq_refl). discriminate.
  - specialize (H "1234567" 0). vm_compute in H.
    specialize (H eq_refl). discriminate.
Qed.

(** C10, amended.  For every text, each parser returns a quantity
    dictionary and a description dictionary with the same keys (in the
    same order, none repeated); no quantity is negative, and the
    quantity of a code is strictly positive when the description of
    every occurrence of that code (the line after the code line) has a
    packaging multiplier of at least 1, whatever the other lines of the
    text are; a code all of whose occurrences read a quantity of 0 (no
    token in the window, or a first token that encodes zero) is a key
    of neither dictionary.  A document that cannot be read gives two
    empty dictionaries. *)
Theorem parser_result_invariant :
  forall lines : list string,
    let nf := parse_nf_pdf (Some lines) in
    let pd := parse_pedido_pdf (Some lines) in
    Dict.keys (fst nf) = Dict.keys (snd nf)
    /\ Dict.keys (fst pd) = Dict.keys (snd pd)
    /\ NoDup (Dict.keys (fst nf))
    /\ NoDup (Dict.keys (fst pd))
    /\ (forall c q, Dict.get c (fst nf) = Some q -> 0 <= q)
    /\ (forall c q, Dict.get c (fst pd) = Some q -> 0 <= q)
    /\ (forall c q,
           Dict.get c (fst nf) = Some q ->
           (forall i u, (i + 1 < List.length lines)%nat ->
                        code_at lines i = Some c ->
                        units_at lines (i + 1) = Some u -> 1 <= u) ->
           0 < q)
    /\ (forall c q,
           Dict.get c (fst pd) = Some q ->
           (forall i u, (i + 2 < List.length lines)%nat ->
                        marker_at lines i = true ->
                        code_at lines (i + 1) = Some c ->
                        units_at lines (i + 2) = Some u -> 1 <= u) ->
           0 < q)
    /\ (forall c,
           (forall i q, (i < List.length lines)%nat ->
                        code_at lines i = Some c ->
                        nf_qty_at lines i = Some q -> q <= 0) ->
           absent c nf)
    /\ (forall c,
           (forall i q, (i < List.length lines)%nat ->
                        marker_at lines i = true ->
                        code_at lines (i + 1) = Some c ->
                        pedido_qty_at lines i = Some q -> q <= 0) ->
           absent c pd)
    /\ parse_nf_pdf None = empty_result
    /\ parse_pedido_pdf None = empty_result.
Proof.
  intros lines nf pd. subst nf pd. simpl.
  destruct (parse_nf_well_formed lines) as (K1 & N1 & Q1).
  destruct (parse_pedido_well_formed lines) as (K2 & N2 & Q2).
  repeat (split; auto).
  - intros c q Hq Hu. apply (parse_nf_positive_at lines c); auto.
    intros i u Hi Hc Hun. specialize (Hu i u Hi Hc Hun). lia.
  - intros c q Hq Hu. apply (parse_pedido_positive_at lines c); auto.
    intros i u Hi Hm Hc Hun. specialize (Hu i u Hi Hm Hc Hun). lia.
  - now apply parse_nf_absent.
  - now apply parse_nf_absent.
  - now apply parse_pedido_absent.
  - now apply parse_pedido_absent.
Qed.
End ParserInvariant.

Lemma parser_result_invariant_witness :
  Dict.get "1234567"
    (fst (PDFParserService.parse_nf_pdf (Some ZeroMultiplier.other_line)))
  = Some 75
  /\ 0 < 75
  /\ ParserSpec.absent "1234567"
       (PDFParserService.parse_nf_pdf
          (Some ["1234567"; "TABLETE 100GX15UN"; "0,000"; "5,000"])).
Proof.
  split; [vm_compute; reflexivity|]. split.
  - apply (proj1 (proj2 (proj2 (proj2 (proj2 (proj2 (proj2
             (parser_result_invariant ZeroMultiplier.other_line)))))))
             "1234567" 75).
    + vm_compute. reflexivity.
    + intros i u Hi Hc Hu.
      destruct i as [|i]; [vm_compute in Hu; injection Hu as <-; lia|].
      do 3 (destruct i as [|i]; [vm_compute in Hc; discriminate|]).
      simpl in Hi. lia.
  - apply (proj1 (proj2 (proj2 (proj2 (proj2 (proj2 (proj2 (proj2 (proj2
             (parser_result_invariant
                ["1234567"; "TABLETE 100GX15UN"; "0,000"; "5,000"])))))))))).
    intros i q Hi Hc Hq.
    destruct i as [|i]; [vm_compute in Hq; injection Hq as <-; lia|].
    do 3 (destruct i as [|i]; [vm_compute in Hc; discriminate|]).
    simpl in Hi. lia.
Defined.

(* ================================================================== *)
(** * Quantity aggregator *)
(* ================================================================== *)

Section Aggregator.
Import PDFParserService TransformationService AggregatorSpec ParserSpec.

Lemma fold_left_mapped (A B C : Type) (f : A -> B -> A) (g : C -> B)
    (l : list C) (a : A) :
  fold_left f (map g l) a = fold_left (fun a x => f a (g x)) l a.
Proof. revert a. induction l as [|x l IH]; intros a; simpl; auto. Qed.

Lemma process_pdfs_aggregate nfs peds :
  _process_pdfs nfs peds = aggregate empty_result (parsed nfs peds).
Proof.
  unfold _process_pdfs, aggregate, parsed.
  rewrite fold_left_app, !fold_left_mapped. reflexivity.
Qed.

(** ** Quantities *)

Lemma merge_item_quantity ds acc k q c :
  Dict.get c (fst (merge_item ds acc (k, q)))
  = if String.eqb c k then add_hit (Dict.get c (fst acc)) q
    else Dict.get c (fst acc).
Proof.
  unfold merge_item. destruct acc as [aq ad]. simpl.
  destruct (String.eqb c k) eqn:E.
  - apply String.eqb_eq in E. subst k.
    destruct (Dict.get c aq); simpl; now rewrite get_set_same.
  - apply String.eqb_neq in E.
    destruct (Dict.get k aq); simpl; now rewrite get_set_other.
Qed.

Lemma merge_result_quantity acc r c :
  Dict.get c (fst (merge_result acc r))
  = fold_left add_hit (hits c (fst r)) (Dict.get c (fst acc)).
Proof.
  destruct r as [qs ds]. unfold merge_result, hits. simpl.
  revert acc. induction qs as [|[k q] qs IH]; intros acc; simpl; auto.
  rewrite IH, merge_item_quantity.
  destruct (String.eqb c k); reflexivity.
Qed.

Lemma aggregate_quantity acc rs c :
  Dict.get c (fst (aggregate acc rs))
  = fold_left add_hit (flat_map (fun r => hits c (fst r)) rs)
      (Dict.get c (fst acc)).
Proof.
  unfold aggregate. revert acc.
  induction rs as [|r rs IH]; intros acc; simpl; auto.
  now rewrite IH, fold_left_app, merge_result_quantity.
Qed.

Lemma add_hit_swap a q1 q2 :
  add_hit (add_hit a q1) q2 = add_hit (add_hit a q2) q1.
Proof. destruct a; simpl; f_equal; ring. Qed.

Lemma fold_add_hit_perm l l' :
  Permutation l l' ->
  forall a, fold_left add_hit l a = fold_left add_hit l' a.
Proof.
  induction 1 as [| x l l' _ IH | x y l | l l' l'' _ IH1 _ IH2];
    intros a; simpl; auto.
  - now rewrite add_hit_swap.
  - now rewrite IH1.
Qed.

Lemma aggregate_perm acc rs rs' c :
  Permutation rs rs' ->
  Dict.get c (fst (aggregate acc rs)) = Dict.get c (fst (aggregate acc rs')).
Proof.
  intros H. rewrite !aggregate_quantity.
  apply fold_add_hit_perm. now apply Permutation_flat_map.
Qed.

Lemma hits_unique c (d : dict Z) :
  NoDup (Dict.keys d) ->
  hits c d = match Dict.get c d with Some q => [q] | None => [] end.
Proof.
  unfold hits, Dict.keys. induction d as [|[k q] d IH]; simpl; auto.
  intros Hnd. inversion Hnd as [|? ? Hnot Hnd']; subst.
  destruct (String.eqb c k) eqn:E; simpl; auto.
  apply String.eqb_eq in E. subst k.
  apply (get_none_keys Z c d) in Hnot.
  rewrite IH, Hnot; auto.
Qed.

(** ** Descriptions *)

Lemma mem_cons (V : Type) c k (v : V) (d : dict V) :
  Dict.mem c ((k, v) :: d) = String.eqb c k || Dict.mem c d.
Proof. unfold Dict.mem. simpl. now destruct (String.eqb c k). Qed.

Lemma merge_item_description ds acc k q c :
  Dict.get c (snd (merge_item ds acc (k, q)))
  = match Dict.get c (snd acc) with
    | Some dsc => Some dsc
    | None => if String.eqb c k then Dict.get c ds else None
    end.
Proof.
  unfold merge_item. destruct acc as [aq ad]. simpl.
  destruct (String.eqb c k) eqn:E.
  - apply String.eqb_eq in E. subst k.
    destruct (Dict.get c ad) eqn:Ea; simpl.
    + now rewrite Ea.
    + destruct (Dict.get c ds); simpl; [apply get_set_same | auto].
  - apply String.eqb_neq in E.
    destruct (Dict.get k ad), (Dict.get k ds); simpl;
      rewrite ?get_set_other by auto; now destruct (Dict.get c ad).
Qed.

Lemma merge_result_description acc r c :
  Dict.get c (snd (merge_result acc r))
  = match Dict.get c (snd acc) with
    | Some dsc => Some dsc
    | None => if Dict.mem c (fst r) then Dict.get c (snd r) else None
    end.
Proof.
  destruct r as [qs ds]. unfold merge_result. simpl.
  revert acc. induction qs as [|[k q] qs IH]; intros acc; simpl.
  - now destruct (Dict.get c (snd acc)).
  - rewrite IH, merge_item_description, mem_cons.
    destruct (Dict.get c (snd acc)); auto.
    destruct (String.eqb c k); simpl; auto.
    destruct (Dict.get c ds); auto.
    now destruct (Dict.mem c qs).
Qed.

Lemma aggregate_description_kept acc rs c dsc :
  Dict.get c (snd acc) = Some dsc ->
  Dict.get c (snd (aggregate acc rs)) = Some dsc.
Proof.
  unfold aggregate. revert acc.
  induction rs as [|r rs IH]; intros acc H; simpl; auto.
  apply IH. now rewrite merge_result_description, H.
Qed.

Lemma well_formed_mem r c dsc :
  well_formed r -> Dict.get c (snd r) = Some dsc ->
  exists q, Dict.get c (fst r) = Some q.
Proof.
  intros (Hk & _ & _) H.
  destruct (Dict.get c (fst r)) as [q|] eqn:E; [eauto|].
  apply get_none_keys in E. rewrite Hk in E.
  apply get_none_keys in E. congruence.
Qed.

Lemma parse_nf_pdf_well_formed doc : well_formed (parse_nf_pdf doc).
Proof.
  destruct doc; [apply parse_nf_well_formed | apply well_formed_empty].
Qed.

Lemma parse_pedido_pdf_well_formed doc : well_formed (parse_pedido_pdf doc).
Proof.
  destruct doc; [apply parse_pedido_well_formed | apply well_formed_empty].
Qed.

(** Two results that both have the code: the first one read gives the
    description, both give their quantity. *)
Lemma first_result_wins r1 r2 rs c d1 d2 :
  well_formed r1 -> well_formed r2 ->
  Dict.get c (snd r1) = Some d1 -> Dict.get c (snd r2) = Some d2 ->
  exists q1 q2,
    Dict.get c (fst r1) = Some q1 /\ Dict.get c (fst r2) = Some q2
    /\ Dict.get c (snd (aggregate empty_result (r1 :: r2 :: rs))) = Some d1
    /\ Dict.get c (fst (aggregate empty_result [r1; r2])) = Some (q1 + q2).
Proof.
  intros W1 W2 H1 H2.
  destruct (well_formed_mem r1 c d1 W1 H1) as [q1 Q1].
  destruct (well_formed_mem r2 c d2 W2 H2) as [q2 Q2].
  exists q1, q2. repeat split; auto.
  - change (aggregate empty_result (r1 :: r2 :: rs))
      with (aggregate (merge_result empty_result r1) (r2 :: rs)).
    apply aggregate_description_kept.
    rewrite merge_result_description. simpl.
    unfold Dict.mem. now rewrite Q1.
  - rewrite aggregate_quantity. simpl.
    destruct W1 as (_ & N1 & _), W2 as (_ & N2 & _).
    rewrite !hits_unique, Q1, Q2 by auto. reflexivity.
Qed.
End Aggregator.

Section AggregatorClaims.
Import PDFParserService TransformationService AggregatorSpec ParserSpec.
Import AggregatorScenario.

Example aggregate_scenario :
  _process_pdfs [D1; D2; D3] [P1; P2]
  = ([("1234567", 24); ("2345678", 5)],
     [("1234567", "TRUFA AO LEITE"); ("2345678", "BOMBOM")]).
Proof. vm_compute. reflexivity. Qed.

Example aggregate_scenario_permuted :
  _process_pdfs [D3; D2; D1] [P2; P1]
  = ([("2345678", 5); ("1234567", 24)],
     [("2345678", "BOMBOM SORTIDO"); ("1234567", "TRUFA BRANCA")]).
Proof. vm_compute. reflexivity. Qed.

(** C6.  Aggregation is commutative.  The aggregated quantity of every
    code is the same for every permutation of a sequence of parser
    results, from any starting accumulator; hence [_process_pdfs]
    gives every code the same quantity when the invoice documents are
    permuted and the order documents are permuted. *)
Theorem aggregation_commutative :
  (forall (acc : result) (rs rs' : list result) (c : string),
      Permutation rs rs' ->
      Dict.get c (fst (aggregate acc rs))
      = Dict.get c (fst (aggregate acc rs')))
  /\ (forall (nfs nfs' peds peds' : list document) (c : string),
         Permutation nfs nfs' -> Permutation peds peds' ->
         Dict.get c (fst (_process_pdfs nfs peds))
         = Dict.get c (fst (_process_pdfs nfs' peds'))).
Proof.
  split.
  - intros acc rs rs' c H. now apply aggregate_perm.
  - intros nfs nfs' peds peds' c Hn Hp.
    rewrite !process_pdfs_aggregate. apply aggregate_perm.
    unfold parsed. apply Permutation_app; now apply Permutation_map.
Qed.

Lemma aggregation_commutative_witness :
  Dict.get "1234567" (fst (_process_pdfs [D1; D2; D3] [P1; P2]))
  = Dict.get "1234567" (fst (_process_pdfs [D3; D2; D1] [P2; P1])).
Proof.
  apply (proj2 aggregation_commutative).
  - apply (perm_trans (l' := [D2; D1; D3])).
    + apply perm_swap.
    + apply (perm_trans (l' := [D2; D3; D1])).
      * apply perm_skip, perm_swap.
      * apply perm_swap.
  - apply perm_swap.
Defined.

(** C7.  The first description wins.  When two documents both give the
    code [c] a description, [d1] for the first and [d2] for the second,
    both give it a quantity, [q1] and [q2]; aggregating the first and
    then the second keeps [d1], aggregating the second and then the
    first keeps [d2], the quantity being [q1 + q2] both times; the
    documents read after them do not change the description.  This
    holds for two invoice documents, for two order documents, and for
    an invoice document followed by an order document. *)
Theorem description_first_wins :
  forall (D1 D2 : document) (c d1 d2 : string),
    (Dict.get c (snd (parse_nf_pdf D1)) = Some d1 ->
     Dict.get c (snd (parse_nf_pdf D2)) = Some d2 ->
     exists q1 q2,
       Dict.get c (fst (parse_nf_pdf D1)) = Some q1
       /\ Dict.get c (fst (parse_nf_pdf D2)) = Some q2
       /\ Dict.get c (snd (_process_pdfs [D1; D2] [])) = Some d1
       /\ Dict.get c (snd (_process_pdfs [D2; D1] [])) = Some d2
       /\ Dict.get c (fst (_process_pdfs [D1; D2] [])) = Some (q1 + q2)
       /\ Dict.get c (fst (_process_pdfs [D2; D1] [])) = Some (q1 + q2)
       /\ forall nfs peds,
           Dict.get c (snd (_process_pdfs (D1 :: D2 :: nfs) peds))
           = Some d1)
    /\ (Dict.get c (snd (parse_pedido_pdf D1)) = Some d1 ->
        Dict.get c (snd (parse_pedido_pdf D2)) = Some d2 ->
        exists q1 q2,
          Dict.get c (fst (parse_pedido_pdf D1)) = Some q1
          /\ Dict.get c (fst (parse_pedido_pdf D2)) = Some q2
          /\ Dict.get c (snd (_process_pdfs [] [D1; D2])) = Some d1
          /\ Dict.get c (snd (_process_pdfs [] [D2; D1])) = Some d2
          /\ Dict.get c (fst (_process_pdfs [] [D1; D2])) = Some (q1 + q2)
          /\ Dict.get c (fst (_process_pdfs [] [D2; D1])) = Some (q1 + q2)
          /\ forall peds,
              Dict.get c (snd (_process_pdfs [] (D1 :: D2 :: peds)))
              = Some d1)
    /\ (Dict.get c (snd (parse_nf_pdf D1)) = Some d1 ->
        Dict.get c (snd (parse_pedido_pdf D2)) = Some d2 ->
        exists q1 q2,
          Dict.get c (fst (parse_nf_pdf D1)) = Some q1
          /\ Dict.get c (fst (parse_pedido_pdf D2)) = Some q2
          /\ Dict.get c (snd (_process_pdfs [D1] [D2])) = Some d1
          /\ Dict.get c (fst (_process_pdfs [D1] [D2])) = Some (q1 + q2)
          /\ forall peds,
              Dict.get c (snd (_process_pdfs [D1] (D2 :: peds)))
              = Some d1).
Proof.
  intros D1 D2 c d1 d2.
  pose proof (parse_nf_pdf_well_formed D1) as N1.
  pose proof (parse_nf_pdf_well_formed D2) as N2.
  pose proof (parse_pedido_pdf_well_formed D1) as P1.
  pose proof (parse_pedido_pdf_well_formed D2) as P2.
  split; [|split]; intros H1 H2.
  - destruct (first_result_wins _ _ [] c d1 d2 N1 N2 H1 H2)
      as (q1 & q2 & Q1 & Q2 & Hd & Hq).
    destruct (first_result_wins _ _ [] c d2 d1 N2 N1 H2 H1)
      as (q2' & q1' & Q2' & Q1' & Hd' & Hq').
    exists q1, q2. rewrite !process_pdfs_aggregate.
    unfold parsed. cbn [map app].
    repeat split; auto.
    + rewrite Hq'. f_equal. rewrite Q1 in Q1'. rewrite Q2 in Q2'.
      injection Q1' as <-. injection Q2' as <-. ring.
    + intros nfs peds. rewrite process_pdfs_aggregate.
      destruct (first_result_wins _ _
                  (map parse_nf_pdf nfs ++ map parse_pedido_pdf peds)%list
                  c d1 d2 N1 N2 H1 H2) as (_ & _ & _ & _ & Hd'' & _).
      exact Hd''.
  - destruct (first_result_wins _ _ [] c d1 d2 P1 P2 H1 H2)
      as (q1 & q2 & Q1 & Q2 & Hd & Hq).
    destruct (first_result_wins _ _ [] c d2 d1 P2 P1 H2 H1)
      as (q2' & q1' & Q2' & Q1' & Hd' & Hq').
    exists q1, q2. rewrite !process_pdfs_aggregate.
    unfold parsed. cbn [map app].
    repeat split; auto.
    + rewrite Hq'. f_equal. rewrite Q1 in Q1'. rewrite Q2 in Q2'.
      injection Q1' as <-. injection Q2' as <-. ring.
    + intros peds. rewrite process_pdfs_aggregate.
      destruct (first_result_wins _ _ (map parse_pedido_pdf peds)
                  c d1 d2 P1 P2 H1 H2) as (_ & _ & _ & _ & Hd'' & _).
      exact Hd''.
  - destruct (first_result_wins _ _ [] c d1 d2 N1 P2 H1 H2)
      as (q1 & q2 & Q1 & Q2 & Hd & Hq).
    exists q1, q2. rewrite !process_pdfs_aggregate.
    unfold parsed. cbn [map app].
    repeat split; auto.
    intros peds. rewrite process_pdfs_aggregate.
    destruct (first_result_wins _ _ (map parse_pedido_pdf peds)
                c d1 d2 N1 P2 H1 H2) as (_ & _ & _ & _ & Hd'' & _).
    exact Hd''.
Qed.

Lemma description_first_wins_witness :
  exists q1 q2,
    Dict.get "1234567" (fst (parse_nf_pdf D1)) = Some q1
    /\ Dict.get "1234567" (fst (parse_nf_pdf D2)) = Some q2
    /\ Dict.get "1234567" (snd (_process_pdfs [D1; D2] []))
       = Some "TRUFA AO LEITE"
    /\ Dict.get "1234567" (snd (_process_pdfs [D2; D1] []))
       = Some "TRUFA BRANCA"
    /\ Dict.get "1234567" (fst (_process_pdfs [D1; D2] []))
       = Some (q1 + q2)
    /\ Dict.get "1234567" (fst (_process_pdfs [D2; D1] []))
       = Some (q1 + q2)
    /\ forall nfs peds,
        Dict.get "1234567" (snd (_process_pdfs (D1 :: D2 :: nfs) peds))
        = Some "TRUFA AO LEITE".
Proof.
  apply (proj1 (description_first_wins D1 D2 "1234567"
                  "TRUFA AO LEITE" "TRUFA BRANCA")).
  - vm_compute. reflexivity.
  - vm_compute. reflexivity.
Defined.
End AggregatorClaims.

(* ================================================================== *)
(** * Unit normalizer *)
(* ================================================================== *)

Section Normalizer.
Import PDFParserService.

Lemma normalize_empty : normalize_description "" = "".
Proof. reflexivity. Qed.

Lemma extract_units_empty : extract_units_from_description "" = Some 1.
Proof. reflexivity. Qed.

(** C9.  Canonicalization on a packaging token whose weight has a
    decimal period.  The multiplier pattern accepts the token
    "13.5GX150UN" as a whole (the multiplier is 150), and
    canonicalization removes the token when the weight is written
    with a comma; with a period it removes "5GX150UN" only and leaves
    "13." in the description. *)
Theorem normalize_period_weight :
  normalize_description "TRUFA LACREME 13.5GX150UN" = "TRUFA LACREME 13."
  /\ normalize_description "TRUFA LACREME 13,5GX150UN" = "TRUFA LACREME"
  /\ extract_units_from_description "TRUFA LACREME 13.5GX150UN" = Some 150
  /\ extract_units_from_description "TRUFA LACREME 13,5GX150UN" = Some 150.
Proof. vm_compute. repeat split; reflexivity. Qed.
End Normalizer.

Module ParserTests.
Import PDFParserService.

Example units1 :
  extract_units_from_description "TABLETE LACREME BRANCO ZA 100GX15UN X 15" = Some 15.
Proof. vm_compute. reflexivity. Qed.
Example units2 : extract_units_from_description "SOME PRODUCT X 20" = Some 20.
Proof. vm_compute. reflexivity. Qed.
Example units3 : extract_units_from_description "PRODUTO GRANDE 1KGX5UN" = Some 5.
Proof. vm_compute. reflexivity. Qed.
Example units4 : extract_units_from_description "tablete 100gx15un x 15" = Some 15.
Proof. vm_compute. reflexivity. Qed.
Example units5 : extract_units_from_description "PRODUTO SEM UNIDADES" = Some 1.
Proof. vm_compute. reflexivity. Qed.
Example units6 : extract_units_from_description "TRUFA 13.5GX150UN" = Some 150.
Proof. vm_compute. reflexivity. Qed.
Example norm1 :
  normalize_description "TABLETE LACREME BRANCO ZA 100GX15UN X 15"
  = "TABLETE LACREME BRANCO ZA".
Proof. vm_compute. reflexivity. Qed.
Example norm2 :
  normalize_description "BOMBOM 13,5GX150UN ESPECIAL" = "BOMBOM ESPECIAL".
Proof. vm_compute. reflexivity. Qed.
Example norm3 :
  normalize_description "TABLETE   LACREME    BRANCO" = "TABLETE LACREME BRANCO".
Proof. vm_compute. reflexivity. Qed.
Example norm4 :
  normalize_description "TRUFA 13.5GX150UN" = "TRUFA 13.".
Proof. vm_compute. reflexivity. Qed.
Example parse1 :
  parse_nf_pdf (Some ["1234567"; "TABLETE 100GX15UN X 15"; "UN"; "3,000"])
  = ([("1234567", 45)], [("1234567", "TABLETE")]).
Proof. vm_compute. reflexivity. Qed.
Example parse2 :
  parse_pedido_pdf (Some ["10"; "1234567"; "TRUFA X 2"; "1,000"; "20";
                          "1234567"; "OUTRA"; "2.000"])
  = ([("1234567", 4)], [("1234567", "TRUFA")]).
Proof. vm_compute. reflexivity. Qed.
End ParserTests.

(* ================================================================== *)
(** * Patterns: what a match tells *)
(* ================================================================== *)

Section ReSound.
Import Re ReSpec.

(** The matcher is sound: a successful run is a match of the pattern
    followed by a successful continuation. *)
Lemma run_sound (A : Type) (r : re) :
  forall s cap (k : option string -> string -> option A) x,
    run r s cap k = Some x ->
    exists rest cap', matches r s cap rest cap' /\ k cap' rest = Some x.
Proof.
  induction r as [| p | a IHa b IHb | a IHa b IHb | p | a IHa | a IHa |];
    intros s cap k x H; [simpl in H .. | cbn [run] in H].
  - exists s, cap. simpl. auto.
  - destruct s as [|c s']; [discriminate|].
    destruct (p c) eqn:Hp; [|discriminate].
    exists s', cap. simpl. split; auto. now exists c.
  - apply IHa in H. destruct H as (mid & capm & Ha & H).
    apply IHb in H. destruct H as (rest & cap' & Hb & H).
    exists rest, cap'. split; auto. simpl. now exists mid, capm.
  - destruct (run a s cap k) eqn:Ea.
    + injection H as <-. apply IHa in Ea.
      destruct Ea as (rest & cap' & Ha & Hk).
      exists rest, cap'. simpl. auto.
    + apply IHb in H. destruct H as (rest & cap' & Hb & Hk).
      exists rest, cap'. simpl. auto.
  - revert H. induction s as [|c s' IHs]; intros H.
    + exists "", cap. split; auto. simpl. now exists "".
    + destruct (p c) eqn:Hp.
      * match type of H with
        | match ?g with _ => _ end = _ => destruct g eqn:Eg
        end.
        -- injection H as <-.
           destruct (IHs eq_refl) as (rest & cap' & (w & Hw & Hall & Hc) & Hk).
           exists rest, cap'. split; auto.
           exists (String c w). simpl. rewrite Hp, Hall, Hw. auto.
        -- exists (String c s'), cap. split; auto. now exists "".
      * exists (String c s'), cap. split; auto. now exists "".
  - destruct (run a s cap k) eqn:Ea.
    + injection H as <-. apply IHa in Ea.
      destruct Ea as (rest & cap' & Ha & Hk).
      exists rest, cap'. simpl. auto.
    + exists s, cap. simpl. auto.
  - apply IHa in H. destruct H as (rest & cap0 & Ha & Hk).
    exists rest, (Some (consumed s rest)). split; auto.
    simpl. now exists cap0.
  - destruct s as [|c [|c' s']]; try discriminate.
    + exists "", cap. simpl. auto.
    + destruct (Py.is_char _ c) eqn:Ec; [|discriminate].
      unfold Py.is_char in Ec. apply Ascii.eqb_eq in Ec. subst c.
      eexists _, cap. split; [|exact H]. simpl. auto.
Qed.

Lemma rmatch_sound r s m :
  rmatch r s = Some m -> matches r s None (after m) (group1 m).
Proof.
  unfold rmatch. intros H. apply run_sound in H.
  destruct H as (rest & cap' & Hm & [= <-]). exact Hm.
Qed.

(** A match consumes a prefix. *)
Lemma matches_prefix r :
  forall s cap rest cap',
    matches r s cap rest cap' -> exists w, s = w ++ rest.
Proof.
  induction r as [| p | a IHa b IHb | a IHa b IHb | p | a IHa | a IHa |];
    simpl; intros s cap rest cap' H.
  - destruct H as [-> _]. now exists "".
  - destruct H as (c & _ & -> & _). now exists (String c "").
  - destruct H as (mid & capm & Ha & Hb).
    apply IHa in Ha. apply IHb in Hb.
    destruct Ha as [w1 ->], Hb as [w2 ->].
    exists (w1 ++ w2).
    clear. induction w1 as [|c w1 IH]; simpl; auto. now rewrite IH.
  - destruct H as [H | H]; eauto.
  - destruct H as (w & -> & _). now exists w.
  - destruct H as [H | [-> _]]; eauto. now exists "".
  - destruct H as (cap0 & H & _). eauto.
  - destruct H as [-> _]. now exists "".
Qed.
End ReSound.

Section PatternFacts.
Import Re ReSpec PDFParserService ParserSpec.

Lemma consumed_app w rest : consumed (w ++ rest) rest = w.
Proof.
  unfold consumed.
  assert (E : (String.length (w ++ rest) - String.length rest)%nat
              = String.length w).
  { assert (L : String.length (w ++ rest)
                 = (String.length w + String.length rest)%nat).
    { induction w as [|c w IH]; simpl; auto. }
    rewrite L. lia. }
  rewrite E. clear E.
  induction w as [|c w IH]; simpl.
  - now destruct rest.
  - now rewrite IH.
Qed.

Lemma has_char_app p w m :
  has_char p (w ++ m) = has_char p w || has_char p m.
Proof.
  unfold has_char. induction w as [|c w IH]; simpl; auto.
  now rewrite IH, orb_assoc.
Qed.

Lemma matches_needs p r :
  needs p r ->
  forall s cap rest cap',
    matches r s cap rest cap' -> has_char p s = true.
Proof.
  induction r as [| q | a IHa b IHb | a IHa b IHb | q | a IHa | a IHa |];
    simpl; intros Hn s cap rest cap' H; try contradiction.
  - destruct H as (c & Hq & -> & _). unfold has_char. simpl.
    now rewrite (Hn c Hq).
  - destruct H as (mid & capm & Ha & Hb). destruct Hn as [Hn | Hn].
    + eapply IHa; eauto.
    + destruct (matches_prefix _ _ _ _ _ Ha) as [w ->].
      rewrite has_char_app. erewrite (IHb Hn mid); eauto.
      apply orb_true_r.
  - destruct Hn as [Hna Hnb]. destruct H as [H | H]; eauto.
  - destruct H as (cap0 & H & _). eauto.
Qed.

(** On a text without a character that the pattern needs, [re.search]
    finds nothing and [re.sub] changes nothing. *)
Lemma rmatch_without p r s :
  needs p r -> has_char p s = false -> rmatch r s = None.
Proof.
  intros Hn Hs. destruct (rmatch r s) as [m|] eqn:E; auto.
  apply rmatch_sound in E. apply (matches_needs p r Hn) in E. congruence.
Qed.

Lemma has_char_tail p c s :
  has_char p (String c s) = false -> has_char p s = false.
Proof. unfold has_char. simpl. now intros [_ H]%orb_false_iff. Qed.

Lemma search_without p r s :
  needs p r -> has_char p s = false -> search r s = None.
Proof.
  intros Hn. induction s as [|c s IH]; intros Hs; simpl;
    rewrite (rmatch_without p r _ Hn Hs); auto.
  apply IH. eapply has_char_tail; eauto.
Qed.

Lemma sub_without p r repl s :
  needs p r -> has_char p s = false -> sub r repl s = s.
Proof.
  intros Hn. unfold sub. induction s as [|c s IH]; intros Hs; simpl;
    rewrite (rmatch_without p r _ Hn Hs); auto.
  f_equal. apply IH. eapply has_char_tail; eauto.
Qed.

Lemma needs_digit_units_weight : needs Py.is_digit re_units_weight.
Proof. simpl. auto. Qed.
Lemma needs_digit_units_x_un : needs Py.is_digit re_units_x_un.
Proof. simpl. auto. Qed.
Lemma needs_digit_units_trailing : needs Py.is_digit re_units_trailing.
Proof. simpl. right. right. right. left. auto. Qed.
Lemma needs_digit_units_un : needs Py.is_digit re_units_un.
Proof. simpl. auto. Qed.
Lemma needs_digit_trailing_x : needs Py.is_digit re_trailing_x.
Proof. simpl. right. right. right. left. auto. Qed.
Lemma needs_digit_unit_info : needs Py.is_digit re_unit_info.
Proof. simpl. right. left. auto. Qed.

Lemma is_digit_upper c : Py.is_digit (Py.upper_char c) = Py.is_digit c.
Proof. destruct c as [[] [] [] [] [] [] [] []]; reflexivity. Qed.

Lemma has_digit_upper s :
  has_char Py.is_digit (Py.upper s) = has_char Py.is_digit s.
Proof.
  unfold has_char. induction s as [|c s IH]; simpl; auto.
  now rewrite IH, is_digit_upper.
Qed.

Lemma upper_char_idem c : Py.upper_char (Py.upper_char c) = Py.upper_char c.
Proof. destruct c as [[] [] [] [] [] [] [] []]; reflexivity. Qed.

Lemma upper_idem s : Py.upper (Py.upper s) = Py.upper s.
Proof.
  induction s as [|c s IH]; simpl; auto. now rewrite IH, upper_char_idem.
Qed.

(** ** The text of a product code *)

Lemma rmatch_code s m :
  rmatch re_code s = Some m ->
  exists c, group1 m = Some c /\ product_code c = true
            /\ (s = c \/ s = c ++ String (ascii_of_nat 10) "").
Proof.
  intros H. apply rmatch_sound in H. unfold re_code in H. simpl in H.
  destruct H as (mid & capm & (cap0 & Hg & ->) & (_ & Hcap & Hend)).
  destruct Hg as (m1 & c1' & (c1 & H1 & -> & _) & Hrep).
  destruct Hrep as (m2 & ? & (d1 & Hd1 & -> & _) & Hrep).
  destruct Hrep as (m3 & ? & (d2 & Hd2 & -> & _) & Hrep).
  destruct Hrep as (m4 & ? & (d3 & Hd3 & -> & _) & Hrep).
  destruct Hrep as (m5 & ? & (d4 & Hd4 & -> & _) & Hrep).
  destruct Hrep as (m6 & ? & (d5 & Hd5 & -> & _) & Hrep).
  destruct Hrep as (m7 & ? & (d6 & Hd6 & -> & _) & (-> & _)).
  set (c := String c1 (String d1 (String d2 (String d3 (String d4
              (String d5 (String d6 ""))))))).
  exists c. rewrite Hcap.
  change (String c1 (String d1 (String d2 (String d3 (String d4
            (String d5 (String d6 m7)))))))
    with (c ++ m7).
  rewrite consumed_app. split; [reflexivity|]. split.
  - unfold c. simpl. now rewrite H1, Hd1, Hd2, Hd3, Hd4, Hd5, Hd6.
  - destruct Hend as [-> | ->]; [left | right]; auto.
Qed.

Lemma code_at_product_code lines i c :
  code_at lines i = Some c -> product_code c = true.
Proof.
  unfold code_at. destruct (rmatch re_code _) as [m|] eqn:E; [|discriminate].
  intros H. destruct (rmatch_code _ _ E) as (c' & Hc & Hp & _). congruence.
Qed.
(** ** The text of the capturing group *)

Lemma string_length_app a b :
  String.length (a ++ b) = (String.length a + String.length b)%nat.
Proof. induction a as [|c a IH]; simpl; auto. Qed.

Lemma substring_length_le n s :
  (String.length (substring 0 n s) <= String.length s)%nat.
Proof.
  revert n. induction s as [|c s IH]; intros [|n]; simpl; auto; try lia.
  specialize (IH n). lia.
Qed.

(** The capture is never longer than the text. *)
Lemma matches_capture r :
  forall s cap rest cap' n,
    matches r s cap rest cap' -> (String.length s <= n)%nat ->
    (forall g, cap = Some g -> (String.length g <= n)%nat) ->
    forall g, cap' = Some g -> (String.length g <= n)%nat.
Proof.
  induction r as [| p | a IHa b IHb | a IHa b IHb | p | a IHa | a IHa |];
    simpl; intros s cap rest cap' n H Hs Hcap g Hg.
  - destruct H as [_ ->]. auto.
  - destruct H as (c & _ & _ & ->). auto.
  - destruct H as (mid & capm & Ha & Hb).
    destruct (matches_prefix _ _ _ _ _ Ha) as [w Hw].
    assert (Hm : (String.length mid <= n)%nat).
    { rewrite Hw, string_length_app in Hs. lia. }
    eapply (IHb mid capm rest cap' n Hb Hm); eauto.
  - destruct H as [H | H]; eauto.
  - destruct H as (w & _ & _ & ->). auto.
  - destruct H as [H | [_ ->]]; eauto.
  - destruct H as (cap0 & _ & ->). injection Hg as <-.
    unfold consumed. pose proof (substring_length_le
      (String.length s - String.length rest) s). lia.
  - destruct H as (_ & -> & _). auto.
Qed.

Lemma rmatch_capture r s m g :
  rmatch r s = Some m -> group1 m = Some g ->
  (String.length g <= String.length s)%nat.
Proof.
  intros H Hg. apply rmatch_sound in H.
  eapply (matches_capture r s None (after m) (group1 m)); eauto.
  discriminate.
Qed.

Lemma search_capture r s m g :
  search r s = Some m -> group1 m = Some g ->
  (String.length g <= String.length s)%nat.
Proof.
  induction s as [|c s IH]; simpl.
  - destruct (rmatch r "") eqn:E; [|discriminate].
    intros [= <-] Hg. apply (rmatch_capture _ _ _ _ E Hg).
  - destruct (rmatch r (String c s)) eqn:E.
    + intros [= <-] Hg. apply (rmatch_capture _ _ _ _ E Hg).
    + intros H Hg. specialize (IH H Hg). lia.
Qed.

(** A capture, once made, stays; a pattern that goes through its group
    makes one. *)
Lemma matches_keeps_capture r :
  forall s cap rest cap',
    matches r s cap rest cap' -> cap <> None -> cap' <> None.
Proof.
  induction r as [| p | a IHa b IHb | a IHa b IHb | p | a IHa | a IHa |];
    simpl; intros s cap rest cap' H Hcap.
  - destruct H as [_ ->]. auto.
  - destruct H as (c & _ & _ & ->). auto.
  - destruct H as (mid & capm & Ha & Hb). eauto.
  - destruct H as [H | H]; eauto.
  - destruct H as (w & _ & _ & ->). auto.
  - destruct H as [H | [_ ->]]; eauto.
  - destruct H as (cap0 & _ & ->). discriminate.
  - destruct H as (_ & -> & _). auto.
Qed.

Lemma matches_captures r :
  captures r ->
  forall s cap rest cap', matches r s cap rest cap' -> cap' <> None.
Proof.
  induction r as [| p | a IHa b IHb | a IHa b IHb | p | a IHa | a IHa |];
    simpl; intros Hc s cap rest cap' H; try contradiction.
  - destruct H as (mid & capm & Ha & Hb). destruct Hc as [Hc | Hc].
    + eapply matches_keeps_capture; eauto.
    + eauto.
  - destruct Hc as [Hca Hcb]. destruct H as [H | H]; eauto.
  - destruct H as (cap0 & _ & ->). discriminate.
Qed.

Lemma matches_no_group r :
  no_group r ->
  forall s cap rest cap', matches r s cap rest cap' -> cap' = cap.
Proof.
  induction r as [| p | a IHa b IHb | a IHa b IHb | p | a IHa | a IHa |];
    simpl; intros Hn s cap rest cap' H; try contradiction.
  - tauto.
  - destruct H as (c & _ & _ & ->). auto.
  - destruct Hn as [Hna Hnb]. destruct H as (mid & capm & Ha & Hb).
    rewrite (IHb Hnb _ _ _ _ Hb). eauto.
  - destruct Hn as [Hna Hnb]. destruct H as [H | H]; eauto.
  - destruct H as (w & _ & _ & ->). auto.
  - destruct H as [H | [_ ->]]; eauto.
  - tauto.
Qed.

Lemma rmatch_captures r s m :
  captures r -> rmatch r s = Some m -> group1 m <> None.
Proof.
  intros Hc H. apply rmatch_sound in H.
  eapply matches_captures; eauto.
Qed.

Lemma search_captures r s m :
  captures r -> search r s = Some m -> group1 m <> None.
Proof.
  intros Hc. induction s as [|c s IH]; simpl.
  - destruct (rmatch r "") eqn:E; [|discriminate].
    intros [= <-]. eapply rmatch_captures; eauto.
  - destruct (rmatch r (String c s)) eqn:E; auto.
    intros [= <-]. eapply rmatch_captures; eauto.
Qed.

(** ** Conversions that do not raise *)

Lemma int_short s :
  Z.of_nat (String.length s) <= Py.max_str_digits ->
  Py.int s = Some (Py.int_value s).
Proof.
  intros H. unfold Py.int.
  destruct (Z.leb_spec (Z.of_nat (String.length s)) Py.max_str_digits);
    [reflexivity | lia].
Qed.

Lemma group_int_short m g :
  group1 m = Some g -> Z.of_nat (String.length g) <= Py.max_str_digits ->
  group_int m = Some (Py.int_value g).
Proof. intros Hg Hs. unfold group_int. rewrite Hg. now apply int_short. Qed.

Lemma search_group_int r s m :
  captures r -> search r s = Some m ->
  Z.of_nat (String.length s) <= Py.max_str_digits ->
  exists u, group_int m = Some u.
Proof.
  intros Hc H Hs.
  destruct (group1 m) as [g|] eqn:Hg;
    [|now apply (search_captures _ _ _ Hc) in H].
  exists (Py.int_value g). apply group_int_short; auto.
  pose proof (search_capture _ _ _ _ H Hg). lia.
Qed.

Lemma upper_length s : String.length (Py.upper s) = String.length s.
Proof. induction s as [|c s IH]; simpl; auto. Qed.

Lemma lstrip_by_length p s :
  (String.length (Py.lstrip_by p s) <= String.length s)%nat.
Proof.
  induction s as [|c s IH]; simpl; auto.
  destruct (p c); simpl; lia.
Qed.

Lemma rstrip_by_length p s :
  (String.length (Py.rstrip_by p s) <= String.length s)%nat.
Proof.
  induction s as [|c s IH]; simpl; auto.
  destruct (Py.rstrip_by p s); [destruct (p c)|]; simpl in *; lia.
Qed.

Lemma strip_length s : (String.length (Py.strip s) <= String.length s)%nat.
Proof.
  unfold Py.strip, Py.strip_by.
  pose proof (rstrip_by_length Py.is_space (Py.lstrip_by Py.is_space s)).
  pose proof (lstrip_by_length Py.is_space s). lia.
Qed.

Lemma captures_units_weight : captures re_units_weight.
Proof. simpl. auto 10. Qed.
Lemma captures_units_x_un : captures re_units_x_un.
Proof. simpl. auto. Qed.
Lemma captures_units_trailing : captures re_units_trailing.
Proof. simpl. auto 10. Qed.
Lemma captures_units_un : captures re_units_un.
Proof. simpl. auto. Qed.

(** The multiplier of a description of at most [max_str_digits]
    characters is read without an error. *)
Lemma extract_units_short dsc :
  Z.of_nat (String.length dsc) <= Py.max_str_digits ->
  exists u, extract_units_from_description dsc = Some u.
Proof.
  intros Hs. unfold extract_units_from_description.
  destruct dsc as [|c dsc]; [eauto|].
  rewrite <- (upper_length (String c dsc)) in Hs.
  destruct (search re_units_weight _) eqn:E1;
    [eapply search_group_int; eauto; apply captures_units_weight|].
  destruct (search re_units_x_un _) eqn:E2;
    [eapply search_group_int; eauto; apply captures_units_x_un|].
  destruct (search re_units_trailing _) eqn:E3;
    [eapply search_group_int; eauto; apply captures_units_trailing|].
  destruct (search re_units_un _) eqn:E4;
    [eapply search_group_int; eauto; apply captures_units_un|].
  eauto.
Qed.
End PatternFacts.

(* ================================================================== *)
(** * Line-scan parsers: the result, code by code *)
(* ================================================================== *)

Section ParserClosedForm.
Import Re ReSpec PDFParserService ParserSpec AggregatorSpec Occurrences.

Lemma fold_left_opt (A B C : Type) (f : A -> B -> A) (g : B -> option C)
    (h : A -> C -> A) (l : list B) (a : A) :
  (forall a b, f a b = match g b with Some c => h a c | None => a end) ->
  fold_left f l a = fold_left h (flat_map (fun b => opt_list (g b)) l) a.
Proof.
  intros Hf. revert a. induction l as [|b l IH]; intros a; simpl; auto.
  rewrite fold_left_app, IH, Hf. now destruct (g b).
Qed.

(** A scan none of whose iterations raises is a fold over the lines. *)
Lemma scan_lines_total step (f : result -> nat -> result) (l : list nat) acc :
  (forall acc i, In i l -> step acc i = Some (f acc i)) ->
  scan_lines step l acc = fold_left f l acc.
Proof.
  revert acc. induction l as [|i l IH]; intros acc H; simpl; auto.
  rewrite H by (simpl; auto). apply IH. intros a j Hj. apply H. simpl. auto.
Qed.

Lemma nf_step_eq lines acc i :
  nf_step lines acc i
  = match code_at lines i with
    | Some c =>
        if (i + 1 <? List.length lines)%nat then
          match units_at lines (i + 1) with
          | Some u =>
              match nf_qty_at lines i with
              | Some q =>
                  Some (record_item c (Py.strip (line_at lines (i + 1)))
                          u q acc)
              | None => None
              end
          | None => None
          end
        else Some acc
    | None => Some acc
    end.
Proof.
  unfold nf_step, code_at, units_at, nf_qty_at, nf_window.
  destruct (rmatch re_code _) as [m|]; auto.
Qed.

Lemma pedido_step_eq lines acc i :
  Py.int (Py.strip (line_at lines i)) <> None ->
  pedido_step lines acc i
  = if marker_at lines i && (i + 1 <? List.length lines)%nat then
      match code_at lines (i + 1) with
      | Some c =>
          if (i + 2 <? List.length lines)%nat then
            match units_at lines (i + 2) with
            | Some u =>
                match pedido_qty_at lines i with
                | Some q =>
                    Some (record_item c (Py.strip (line_at lines (i + 2)))
                            u q acc)
                | None => None
                end
            | None => None
            end
          else Some acc
      | None => Some acc
      end
    else Some acc.
Proof.
  intros Hint.
  unfold pedido_step, marker_at, code_at, units_at, pedido_qty_at,
    pedido_window.
  destruct (rmatch re_item _) as [m|]; simpl; auto.
  destruct (Py.int _) as [item|]; [|congruence].
  destruct (item mod 10 =? 0); simpl; auto.
  destruct (_ <? _)%nat; auto.
  destruct (rmatch re_code _) as [m'|]; auto.
Qed.

(** ** The quantity of a window *)

Lemma leading_digits_app w x rest :
  forallb Py.is_digit (list_ascii_of_string w) = true ->
  Py.is_digit x = false ->
  leading_digits (w ++ String x rest) = w.
Proof.
  induction w as [|c w IH]; simpl.
  - intros _ ->. reflexivity.
  - intros H Hx. apply andb_true_iff in H. destruct H as [Hc Hw].
    now rewrite Hc, IH.
Qed.

Lemma separator_not_digit x :
  Py.is_one_of ",." x = true -> Py.is_digit x = false.
Proof.
  destruct x as [[] [] [] [] [] [] [] []]; intros H;
    try discriminate H; reflexivity.
Qed.

(** The group of a quantity token is the digits the line starts with. *)
Lemma qty_token_group tail s m :
  no_group tail ->
  rmatch (Seq (Grp ds) (Seq (Cls (Py.is_one_of ",.")) tail)) s = Some m ->
  group1 m = Some (leading_digits s).
Proof.
  intros Hn H. apply rmatch_sound in H. unfold ds, Plus in H. simpl in H.
  destruct H as (mid & capm & (cap0 & Hds & ->)
                 & (mid2 & capm2 & (x & Hx & -> & ->) & Ht)).
  rewrite (matches_no_group _ Hn _ _ _ _ Ht).
  destruct Hds as (m1 & c1 & (c & Hc & -> & _) & (w & -> & Hw & _)).
  change (String c (w ++ String x mid2)) with (String c w ++ String x mid2).
  rewrite consumed_app, leading_digits_app; auto.
  - simpl. now rewrite Hc, Hw.
  - now apply separator_not_digit.
Qed.

Lemma line_at_short lines j :
  short_lines lines ->
  Z.of_nat (String.length (line_at lines j)) <= Py.max_str_digits.
Proof.
  unfold short_lines, line_at. intros H.
  destruct (nth_in_or_default j lines "") as [Hin | ->].
  - rewrite Forall_forall in H. now apply H.
  - unfold Py.max_str_digits. simpl. lia.
Qed.

Lemma strip_line_short lines j :
  short_lines lines ->
  Z.of_nat (String.length (Py.strip (line_at lines j))) <= Py.max_str_digits.
Proof.
  intros H. pose proof (line_at_short lines j H).
  pose proof (strip_length (line_at lines j)). lia.
Qed.

Lemma scan_qty_window tail lines js :
  no_group tail -> short_lines lines ->
  scan_qty (Seq (Grp ds) (Seq (Cls (Py.is_one_of ",.")) tail)) lines js
  = Some (window_qty (Seq (Grp ds) (Seq (Cls (Py.is_one_of ",.")) tail))
            lines js).
Proof.
  intros Hn Hs. unfold window_qty.
  induction js as [|j js IH]; cbn [scan_qty find]; auto.
  unfold is_qty at 1.
  destruct (rmatch _ (Py.strip (line_at lines j))) as [m|] eqn:E; auto.
  pose proof (qty_token_group tail _ _ Hn E) as Hg.
  unfold token_value. apply group_int_short; auto.
  pose proof (rmatch_capture _ _ _ _ E Hg).
  pose proof (strip_line_short lines j Hs). lia.
Qed.

Lemma nf_qty_window lines i :
  short_lines lines ->
  nf_qty_at lines i = Some (window_qty re_qty_nf lines (nf_window lines i)).
Proof.
  intros Hs.
  apply (scan_qty_window (Seq (Rep 3 (Lit "0")) Eos)); auto.
  simpl. tauto.
Qed.

Lemma pedido_qty_window lines i :
  short_lines lines ->
  pedido_qty_at lines i
  = Some (window_qty re_qty_pedido lines (pedido_window lines i)).
Proof.
  intros Hs.
  apply (scan_qty_window (Seq (Rep 3 (Lit "0")) (Seq ws0 Eos))); auto.
  simpl. tauto.
Qed.

Lemma units_at_short lines j :
  short_lines lines -> exists u, units_at lines j = Some u.
Proof.
  intros Hs. apply extract_units_short. now apply strip_line_short.
Qed.

(** ** The loop bodies on a text without an overlong number *)

Lemma nf_step_item lines acc i :
  short_lines lines ->
  nf_step lines acc i
  = Some match nf_item lines i with
         | Some it => record acc it
         | None => acc
         end.
Proof.
  intros Hs. rewrite nf_step_eq. unfold nf_item, record.
  destruct (code_at lines i); auto.
  rewrite (nf_qty_window lines i Hs).
  destruct (units_at_short lines (i + 1) Hs) as [u ->].
  destruct (_ <? _)%nat; simpl; auto.
  destruct (Z.ltb_spec 0 (window_qty re_qty_nf lines (nf_window lines i)));
    simpl; auto.
  now rewrite record_item_skip.
Qed.

Lemma pedido_step_item lines acc i :
  short_lines lines ->
  pedido_step lines acc i
  = Some match pedido_item lines i with
         | Some it => record acc it
         | None => acc
         end.
Proof.
  intros Hs. rewrite pedido_step_eq.
  2:{ rewrite int_short; [discriminate | now apply strip_line_short]. }
  unfold pedido_item, record.
  destruct (marker_at lines i); simpl; auto.
  rewrite (pedido_qty_window lines i Hs).
  destruct (units_at_short lines (i + 2) Hs) as [u ->].
  destruct (Nat.ltb_spec (i + 1) (List.length lines)) as [L1 | L1];
    destruct (code_at lines (i + 1)); auto;
    destruct (Nat.ltb_spec (i + 2) (List.length lines)) as [L2 | L2];
    simpl; auto; try lia.
  destruct (Z.ltb_spec 0
              (window_qty re_qty_pedido lines (pedido_window lines i)));
    simpl; auto.
  now rewrite record_item_skip.
Qed.

Lemma parse_nf_items lines :
  short_lines lines ->
  parse_lines nf_step lines
  = fold_left record (items_of nf_item lines) empty_result.
Proof.
  intros Hs. unfold parse_lines, items_of.
  rewrite (scan_lines_total (nf_step lines)
             (fun acc i => match nf_item lines i with
                           | Some it => record acc it
                           | None => acc
                           end)).
  - now apply fold_left_opt.
  - intros acc i _. now apply nf_step_item.
Qed.

Lemma parse_pedido_items lines :
  short_lines lines ->
  parse_lines pedido_step lines
  = fold_left record (items_of pedido_item lines) empty_result.
Proof.
  intros Hs. unfold parse_lines, items_of.
  rewrite (scan_lines_total (pedido_step lines)
             (fun acc i => match pedido_item lines i with
                           | Some it => record acc it
                           | None => acc
                           end)).
  - now apply fold_left_opt.
  - intros acc i _. now apply pedido_step_item.
Qed.

Lemma nf_item_positive lines i it :
  nf_item lines i = Some it -> 0 < item_qty it /\ 0 <= item_multiplier it.
Proof.
  unfold nf_item. destruct (code_at lines i); [|discriminate].
  destruct (units_at lines (i + 1)) as [u|] eqn:Eu; [|discriminate].
  destruct (_ <? _)%nat; simpl; [|discriminate].
  destruct (Z.ltb_spec 0 (window_qty re_qty_nf lines (nf_window lines i)));
    [|discriminate].
  intros [= <-]. simpl. split; auto.
  eapply extract_units_nonneg; eauto.
Qed.

Lemma pedido_item_positive lines i it :
  pedido_item lines i = Some it -> 0 < item_qty it /\ 0 <= item_multiplier it.
Proof.
  unfold pedido_item. destruct (marker_at lines i); [|discriminate].
  destruct (code_at lines (i + 1)); [|discriminate].
  destruct (units_at lines (i + 2)) as [u|] eqn:Eu; [|discriminate].
  destruct (_ <? _)%nat; simpl; [|discriminate].
  destruct (Z.ltb_spec 0
              (window_qty re_qty_pedido lines (pedido_window lines i)));
    [|discriminate].
  intros [= <-]. simpl. split; auto.
  eapply extract_units_nonneg; eauto.
Qed.

Lemma items_of_positive item_at lines :
  (forall i it, item_at lines i = Some it ->
                0 < item_qty it /\ 0 <= item_multiplier it) ->
  Forall (fun it => 0 < item_qty it /\ 0 <= item_multiplier it)
    (items_of item_at lines).
Proof.
  intros H. unfold items_of. apply Forall_flat_map, Forall_forall.
  intros i _. destruct (item_at lines i) eqn:E; simpl; auto.
  constructor; eauto.
Qed.

(** The quantity and the description of a code after one occurrence. *)
Lemma record_quantity acc it c :
  0 < item_qty it ->
  Dict.get c (fst (record acc it))
  = if String.eqb c (item_code it)
    then add_hit (Dict.get c (fst acc)) (item_units it)
    else Dict.get c (fst acc).
Proof.
  intros Hq. unfold record, record_item, item_units.
  destruct acc as [qs ds].
  apply Z.ltb_lt in Hq. rewrite Hq. simpl.
  destruct (String.eqb c (item_code it)) eqn:E.
  - apply String.eqb_eq in E. subst c.
    destruct (Dict.get (item_code it) qs); simpl; now rewrite get_set_same.
  - apply String.eqb_neq in E.
    destruct (Dict.get (item_code it) qs); simpl; now rewrite get_set_other.
Qed.

Lemma record_description acc it c :
  well_formed acc -> 0 < item_qty it ->
  Dict.get c (snd (record acc it))
  = match Dict.get c (snd acc) with
    | Some dsc => Some dsc
    | None =>
        if String.eqb c (item_code it)
        then Some (normalize_description (item_description it))
        else None
    end.
Proof.
  intros (Hk & _ & _) Hq. unfold record, record_item.
  destruct acc as [qs ds]. simpl in *.
  apply Z.ltb_lt in Hq. rewrite Hq.
  destruct (Dict.get (item_code it) qs) as [q0|] eqn:Eq; simpl.
  - destruct (Dict.get c ds) eqn:Ec; auto.
    destruct (String.eqb c (item_code it)) eqn:E; auto.
    apply String.eqb_eq in E. subst c.
    apply get_none_keys in Ec. rewrite <- Hk in Ec.
    apply get_none_keys in Ec. congruence.
  - rewrite get_set.
    destruct (String.eqb c (item_code it)) eqn:E.
    + apply String.eqb_eq in E. subst c.
      apply get_none_keys in Eq. rewrite Hk in Eq.
      apply get_none_keys in Eq. now rewrite Eq.
    + now destruct (Dict.get c ds).
Qed.

Lemma record_well_formed acc it :
  0 <= item_multiplier it -> well_formed acc -> well_formed (record acc it).
Proof. apply record_item_well_formed. Qed.

Lemma fold_record_quantity its acc c :
  Forall (fun it => 0 < item_qty it /\ 0 <= item_multiplier it) its ->
  Dict.get c (fst (fold_left record its acc))
  = fold_left add_hit (map item_units (of_code c its)) (Dict.get c (fst acc)).
Proof.
  intros H. revert acc.
  induction H as [|it its [Hq _] _ IH]; intros acc; simpl; auto.
  rewrite IH, record_quantity by auto.
  destruct (String.eqb c (item_code it)); reflexivity.
Qed.

Lemma fold_record_description its acc c :
  well_formed acc ->
  Forall (fun it => 0 < item_qty it /\ 0 <= item_multiplier it) its ->
  Dict.get c (snd (fold_left record its acc))
  = match Dict.get c (snd acc) with
    | Some dsc => Some dsc
    | None =>
        match of_code c its with
        | it :: _ => Some (normalize_description (item_description it))
        | [] => None
        end
    end.
Proof.
  intros Hw H. revert acc Hw.
  induction H as [|it its [Hq Hu] _ IH]; intros acc Hw; simpl.
  - now destruct (Dict.get c (snd acc)).
  - rewrite IH by now apply record_well_formed.
    rewrite record_description by auto.
    destruct (Dict.get c (snd acc)); auto.
    destruct (String.eqb c (item_code it)); auto.
Qed.

Lemma fold_add_hit_some l v :
  fold_left add_hit l (Some v) = Some (v + zsum l).
Proof.
  revert v. induction l as [|q l IH]; intros v; simpl.
  - f_equal. lia.
  - rewrite IH. f_equal. lia.
Qed.

Lemma fold_add_hit_total l : fold_left add_hit l None = sum_of l.
Proof.
  destruct l as [|q l]; simpl; auto. now rewrite fold_add_hit_some.
Qed.
End ParserClosedForm.

Section ParserExtras.
Import PDFParserService ParserSpec AggregatorSpec Occurrences ReSpec.

Lemma parse_items_quantity item_at step lines c :
  parse_lines step lines
  = fold_left record (items_of item_at lines) empty_result ->
  (forall i it, item_at lines i = Some it ->
                0 < item_qty it /\ 0 <= item_multiplier it) ->
  Dict.get c (fst (parse_lines step lines))
  = sum_of (map item_units (of_code c (items_of item_at lines))).
Proof.
  intros E Hpos. rewrite E, fold_record_quantity.
  - apply fold_add_hit_total.
  - now apply items_of_positive.
Qed.

Lemma parse_items_description item_at step lines c :
  parse_lines step lines
  = fold_left record (items_of item_at lines) empty_result ->
  (forall i it, item_at lines i = Some it ->
                0 < item_qty it /\ 0 <= item_multiplier it) ->
  Dict.get c (snd (parse_lines step lines))
  = match of_code c (items_of item_at lines) with
    | it :: _ => Some (normalize_description (item_description it))
    | [] => None
    end.
Proof.
  intros E Hpos. rewrite E, fold_record_description.
  - reflexivity.
  - apply well_formed_empty.
  - now apply items_of_positive.
Qed.

(** X1.  Repeated codes accumulate.  On a text none of whose lines has
    more than 4300 characters (so that no conversion of a number
    raises; an overlong number ends the scan and leaves the
    dictionaries as they are at that line), the quantity a parser gives
    a code is the sum, over the contributing occurrences of the code in
    the text, of the quantity of the occurrence times the multiplier
    of its description; a code without a contributing occurrence is not
    a key.  A contributing occurrence is a code line followed by a
    description line, the first quantity token of whose window encodes
    a positive integer, which is the quantity of the occurrence. *)
Theorem parser_quantity_is_sum :
  forall (lines : list string) (c : string),
    short_lines lines ->
    Dict.get c (fst (parse_nf_pdf (Some lines)))
    = sum_of (map item_units (of_code c (items_of nf_item lines)))
    /\ Dict.get c (fst (parse_pedido_pdf (Some lines)))
       = sum_of (map item_units (of_code c (items_of pedido_item lines))).
Proof.
  intros lines c Hs. split; simpl.
  - apply parse_items_quantity;
      [now apply parse_nf_items | intros i it; apply nf_item_positive].
  - apply parse_items_quantity;
      [now apply parse_pedido_items | intros i it; apply pedido_item_positive].
Qed.

(** X2.  The description of the first occurrence.  On a text none of
    whose lines has more than 4300 characters, the description a parser
    gives a code is the canonical form of the description line of the
    first contributing occurrence of the code in the text; later
    occurrences of the code do not change it. *)
Theorem parser_description_is_first :
  forall (lines : list string) (c : string),
    short_lines lines ->
    Dict.get c (snd (parse_nf_pdf (Some lines)))
    = match of_code c (items_of nf_item lines) with
      | it :: _ => Some (normalize_description (item_description it))
      | [] => None
      end
    /\ Dict.get c (snd (parse_pedido_pdf (Some lines)))
       = match of_code c (items_of pedido_item lines) with
         | it :: _ => Some (normalize_description (item_description it))
         | [] => None
         end.
Proof.
  intros lines c Hs. split; simpl.
  - apply parse_items_description;
      [now apply parse_nf_items | intros i it; apply nf_item_positive].
  - apply parse_items_description;
      [now apply parse_pedido_items | intros i it; apply pedido_item_positive].
Qed.

Example repeated_code_accumulates :
  parse_nf_pdf (Some RepeatedCode.lines)
  = ([("1234567", 32); ("2345678", 1)],
     [("1234567", "TRUFA"); ("2345678", "BOMBOM")]).
Proof. vm_compute. reflexivity. Qed.

Lemma record_item_keys c dsc u q acc c' :
  In c' (Dict.keys (fst (record_item c dsc u q acc))) ->
  c' = c \/ In c' (Dict.keys (fst acc)).
Proof.
  unfold record_item. destruct acc as [qs ds].
  destruct (0 <? q); auto.
  destruct (Dict.get c qs) eqn:E; simpl.
  - rewrite keys_set_present; [auto | congruence].
  - rewrite keys_set_absent by auto. rewrite in_app_iff. simpl.
    intuition.
Qed.

Lemma parse_nf_key_product doc c :
  In c (Dict.keys (fst (parse_nf_pdf doc))) -> product_code c = true.
Proof.
  destruct doc as [lines|]; [|simpl; tauto]. simpl. revert c.
  apply (parse_nf_invariant
           (fun acc => forall c, In c (Dict.keys (fst acc)) ->
                                 product_code c = true)).
  - simpl. tauto.
  - intros acc i c' u q _ Hc _ _ H c Hin.
    apply record_item_keys in Hin. destruct Hin as [-> | Hin]; auto.
    eapply code_at_product_code; eauto.
Qed.

Lemma parse_pedido_key_product doc c :
  In c (Dict.keys (fst (parse_pedido_pdf doc))) -> product_code c = true.
Proof.
  destruct doc as [lines|]; [|simpl; tauto]. simpl. revert c.
  apply (parse_pedido_invariant
           (fun acc => forall c, In c (Dict.keys (fst acc)) ->
                                 product_code c = true)).
  - simpl. tauto.
  - intros acc i c' u q _ _ Hc _ _ H c Hin.
    apply record_item_keys in Hin. destruct Hin as [-> | Hin]; auto.
    eapply code_at_product_code; eauto.
Qed.

(** X3.  Keys are product codes.  Every key of the dictionaries a parser
    returns, for any document, is a product code: seven decimal digits,
    the first one 1 or 2. *)
Theorem parser_keys_are_product_codes :
  forall (doc : document) (c : string),
    (In c (Dict.keys (fst (parse_nf_pdf doc)))
     \/ In c (Dict.keys (snd (parse_nf_pdf doc)))
     \/ In c (Dict.keys (fst (parse_pedido_pdf doc)))
     \/ In c (Dict.keys (snd (parse_pedido_pdf doc)))) ->
    product_code c = true.
Proof.
  intros doc c H.
  destruct (parse_nf_pdf_well_formed doc) as (K1 & _ & _).
  destruct (parse_pedido_pdf_well_formed doc) as (K2 & _ & _).
  rewrite <- K1, <- K2 in H.
  destruct H as [H | [H | [H | H]]].
  - now apply (parse_nf_key_product doc).
  - now apply (parse_nf_key_product doc).
  - now apply (parse_pedido_key_product doc).
  - now apply (parse_pedido_key_product doc).
Qed.

Lemma range_empty lo hi : (hi <= lo)%nat -> range lo hi = [].
Proof. intros H. unfold range. now replace (hi - lo)%nat with 0%nat by lia. Qed.

Lemma scan_lines_fixed step (l : list nat) acc :
  (forall i, In i l -> after_step (step acc i) acc = acc) ->
  scan_lines step l acc = acc.
Proof.
  induction l as [|i l IH]; intros H; simpl; auto.
  pose proof (H i (or_introl eq_refl)) as Hi.
  destruct (step acc i) as [acc'|]; auto.
  simpl in Hi. subst acc'. apply IH. intros j Hj. apply H. simpl. auto.
Qed.

(** X4.  The end of the text.  A code on one of the last two lines of an
    invoice text, and an item marker on one of the last three lines of
    an order text, leave the dictionaries as they are: no line is left
    for the quantity.  Hence an invoice text of at most two lines and an
    order text of at most three lines give empty dictionaries.  On a
    text without a line of more than 4300 characters the iteration
    completes, and returns the dictionaries it was given. *)
Theorem parser_ignores_last_lines :
  forall (lines : list string),
    (forall acc i, (List.length lines <= i + 2)%nat ->
                   after_step (nf_step lines acc i) acc = acc)
    /\ (forall acc i, (List.length lines <= i + 3)%nat ->
                      after_step (pedido_step lines acc i) acc = acc)
    /\ ((List.length lines <= 2)%nat ->
        parse_nf_pdf (Some lines) = empty_result)
    /\ ((List.length lines <= 3)%nat ->
        parse_pedido_pdf (Some lines) = empty_result)
    /\ (forall acc i, short_lines lines ->
                      (List.length lines <= i + 2)%nat ->
                      nf_step lines acc i = Some acc)
    /\ (forall acc i, short_lines lines ->
                      (List.length lines <= i + 3)%nat ->
                      pedido_step lines acc i = Some acc).
Proof.
  intros lines.
  assert (Hnf : forall acc i, (List.length lines <= i + 2)%nat ->
                              after_step (nf_step lines acc i) acc = acc).
  { intros acc i H. destruct (nf_step lines acc i) as [acc'|] eqn:E; auto.
    simpl. apply nf_step_cases in E.
    destruct E as [-> | (c & u & q & _ & _ & _ & Hq & ->)]; auto.
    unfold nf_qty_at, nf_window in Hq. rewrite range_empty in Hq by lia.
    simpl in Hq. injection Hq as <-. apply record_item_skip. lia. }
  assert (Hpd : forall acc i, (List.length lines <= i + 3)%nat ->
                              after_step (pedido_step lines acc i) acc = acc).
  { intros acc i H. destruct (pedido_step lines acc i) as [acc'|] eqn:E; auto.
    simpl. apply pedido_step_cases in E.
    destruct E as [-> | (c & u & q & _ & _ & _ & _ & Hq & ->)]; auto.
    unfold pedido_qty_at, pedido_window in Hq.
    rewrite range_empty in Hq by lia.
    simpl in Hq. injection Hq as <-. apply record_item_skip. lia. }
  repeat split; auto.
  - intros H. simpl. unfold parse_lines. apply scan_lines_fixed.
    intros i _. apply Hnf. lia.
  - intros H. simpl. unfold parse_lines. apply scan_lines_fixed.
    intros i _. apply Hpd. lia.
  - intros acc i Hs H. specialize (Hnf acc i H).
    rewrite (nf_step_item lines acc i Hs) in *. simpl in Hnf.
    now rewrite Hnf.
  - intros acc i Hs H. specialize (Hpd acc i H).
    rewrite (pedido_step_item lines acc i Hs) in *. simpl in Hpd.
    now rewrite Hpd.
Qed.
End ParserExtras.

Lemma short_repeated_code : Occurrences.short_lines RepeatedCode.lines.
Proof. repeat constructor; vm_compute; discriminate. Qed.

Lemma parser_quantity_is_sum_witness :
  Dict.get "1234567"
    (fst (PDFParserService.parse_nf_pdf (Some RepeatedCode.lines)))
  = Some 32.
Proof.
  apply (proj1 (parser_quantity_is_sum RepeatedCode.lines "1234567"
                  short_repeated_code)).
Defined.

Lemma parser_description_is_first_witness :
  Dict.get "1234567"
    (snd (PDFParserService.parse_nf_pdf (Some RepeatedCode.lines)))
  = Some "TRUFA".
Proof.
  apply (proj1 (parser_description_is_first RepeatedCode.lines "1234567"
                  short_repeated_code)).
Defined.

Lemma parser_keys_are_product_codes_witness :
  ReSpec.product_code "1234567" = true.
Proof.
  apply (parser_keys_are_product_codes (Some WindowScenario.nf_inside)).
  left. vm_compute. auto.
Defined.

Lemma parser_ignores_last_lines_witness :
  PDFParserService.parse_nf_pdf (Some ["1234567"; "5,000"])
  = PDFParserService.empty_result.
Proof.
  apply (proj1 (proj2 (proj2
           (parser_ignores_last_lines ["1234567"; "5,000"])))).
  simpl. lia.
Defined.

(* ================================================================== *)
(** * Unit normalizer: words, case and digits *)
(* ================================================================== *)

Section NormalizerExtras.
Import Re ReSpec PDFParserService Words.

Lemma string_of_rev_nonempty c cur :
  string_of_list_ascii (rev (c :: cur)) <> "".
Proof.
  simpl. destruct (rev cur); simpl; discriminate.
Qed.

Lemma has_char_of_list p l :
  has_char p (string_of_list_ascii l) = existsb p l.
Proof.
  unfold has_char. now rewrite list_ascii_of_string_of_list_ascii.
Qed.

Lemma existsb_reversed (A : Type) (p : A -> bool) l :
  existsb p (rev l) = existsb p l.
Proof.
  induction l as [|a l IH]; simpl; auto.
  rewrite existsb_app, IH. simpl. rewrite orb_false_r. apply orb_comm.
Qed.

Lemma flush_words p cur :
  existsb p cur = false ->
  Forall (fun w => w <> "" /\ has_char p w = false)
    match cur with
    | [] => []
    | _ => [string_of_list_ascii (rev cur)]
    end.
Proof.
  intros H. destruct cur as [|c cur]; constructor; auto. split.
  - apply string_of_rev_nonempty.
  - rewrite has_char_of_list, existsb_reversed. exact H.
Qed.

(** The words of [s.split()] are not empty and have no character of a
    class that [s] does not have; none has a space. *)
Lemma split_ws_aux_free p s cur :
  has_char p s = false -> existsb p cur = false ->
  Forall (fun w => w <> "" /\ has_char p w = false) (Py.split_ws_aux s cur).
Proof.
  revert cur. induction s as [|c s IH]; intros cur Hs Hcur; simpl.
  - now apply flush_words.
  - unfold has_char in Hs. simpl in Hs. apply orb_false_iff in Hs.
    destruct Hs as [Hc Hs].
    destruct (Py.is_space c).
    + apply Forall_app. split; [now apply flush_words | now apply IH].
    + apply IH; auto. simpl. now rewrite Hc.
Qed.

Lemma split_ws_aux_words s cur :
  existsb Py.is_space cur = false ->
  Forall word (Py.split_ws_aux s cur).
Proof.
  revert cur. induction s as [|c s IH]; intros cur Hcur; simpl.
  - now apply flush_words.
  - destruct (Py.is_space c) eqn:Hc.
    + apply Forall_app. split; [now apply flush_words | now apply IH].
    + apply IH. simpl. now rewrite Hc.
Qed.

Lemma split_ws_words s : Forall word (Py.split_ws s).
Proof. now apply split_ws_aux_words. Qed.

Lemma split_ws_aux_word w rest cur :
  has_char Py.is_space w = false ->
  Py.split_ws_aux (w ++ rest) cur
  = Py.split_ws_aux rest (rev (list_ascii_of_string w) ++ cur)%list.
Proof.
  revert cur. induction w as [|c w IH]; intros cur H; simpl; auto.
  unfold has_char in H. simpl in H. apply orb_false_iff in H.
  destruct H as [Hc Hw]. rewrite Hc, IH by exact Hw.
  now rewrite <- app_assoc.
Qed.

Lemma append_empty w : w ++ "" = w.
Proof. induction w as [|c w IH]; simpl; auto. now rewrite IH. Qed.

Lemma split_ws_one w : word w -> Py.split_ws w = [w].
Proof.
  intros [Hne Hw]. unfold Py.split_ws.
  rewrite <- (append_empty w) at 1.
  rewrite split_ws_aux_word by exact Hw. simpl.
  rewrite app_nil_r.
  destruct (rev (list_ascii_of_string w)) eqn:E.
  - destruct w; [congruence|]. simpl in E.
    destruct (rev (list_ascii_of_string w)); discriminate.
  - rewrite <- E, rev_involutive. now rewrite string_of_list_ascii_of_string.
Qed.

Lemma split_ws_join ws :
  Forall word ws -> Py.split_ws (Py.join " " ws) = ws.
Proof.
  induction 1 as [|w ws Hw Hws IH]; auto.
  destruct ws as [|w2 ws].
  - now apply split_ws_one.
  - change (Py.join " " (w :: w2 :: ws))
      with (w ++ String " " (Py.join " " (w2 :: ws))).
    unfold Py.split_ws. destruct Hw as [Hne Hsp].
    rewrite split_ws_aux_word by exact Hsp.
    change (Py.split_ws_aux (String " " (Py.join " " (w2 :: ws)))
              (rev (list_ascii_of_string w) ++ [])%list)
      with ((match (rev (list_ascii_of_string w) ++ [])%list with
             | [] => []
             | _ => [string_of_list_ascii
                       (rev (rev (list_ascii_of_string w) ++ [])%list)]
             end ++ Py.split_ws (Py.join " " (w2 :: ws)))%list).
    rewrite IH, app_nil_r.
    destruct (rev (list_ascii_of_string w)) eqn:E.
    + destruct w; [congruence|]. simpl in E.
      destruct (rev (list_ascii_of_string w)); discriminate.
    + rewrite <- E, rev_involutive.
      now rewrite string_of_list_ascii_of_string.
Qed.

Lemma collapse_idem s : collapse (collapse s) = collapse s.
Proof.
  unfold collapse. now rewrite split_ws_join by apply split_ws_words.
Qed.

Lemma has_char_join p ws :
  p " "%char = false ->
  Forall (fun w => w <> "" /\ has_char p w = false) ws ->
  has_char p (Py.join " " ws) = false.
Proof.
  intros Hsp. induction 1 as [|w ws [_ Hw] Hws IH]; auto.
  destruct ws as [|w2 ws]; [exact Hw|].
  change (Py.join " " (w :: w2 :: ws))
    with (w ++ String " " (Py.join " " (w2 :: ws))).
  rewrite has_char_app, Hw. unfold has_char in *. simpl in *.
  now rewrite Hsp, IH.
Qed.

Lemma collapse_without_digit s :
  has_char Py.is_digit s = false -> has_char Py.is_digit (collapse s) = false.
Proof.
  intros H. unfold collapse. apply has_char_join; [reflexivity|].
  now apply split_ws_aux_free.
Qed.

(** X5.  The canonical description is made of words.  For every
    description, the result of [normalize_description] is a sequence of
    words, not empty and without whitespace, joined by single spaces: it
    has no leading, trailing or repeated whitespace, and collapsing its
    whitespace again changes nothing. *)
Theorem normalize_gives_words :
  forall description : string,
    (exists ws, normalize_description description = Py.join " " ws
                /\ Forall word ws)
    /\ collapse (normalize_description description)
       = normalize_description description.
Proof.
  intros [|c s].
  - split; [exists []; split; [reflexivity | constructor] | reflexivity].
  - unfold normalize_description. split.
    + eexists. split; [reflexivity | apply split_ws_words].
    + apply collapse_idem.
Qed.

(** X6.  Descriptions without a digit.  Every packaging pattern needs a
    decimal digit: on a description without one the multiplier is 1, the
    canonical form is the description with its whitespace collapsed, and
    canonicalization is idempotent. *)
Theorem digit_free_description :
  forall description : string,
    has_char Py.is_digit description = false ->
    extract_units_from_description description = Some 1
    /\ normalize_description description = collapse description
    /\ normalize_description (normalize_description description)
       = normalize_description description.
Proof.
  intros s H.
  assert (Hn : forall t, has_char Py.is_digit t = false ->
                         normalize_description t = collapse t).
  { intros [|c t] Ht; [reflexivity|]. unfold normalize_description.
    rewrite (sub_without _ _ _ _ needs_digit_trailing_x Ht).
    rewrite (sub_without _ _ _ _ needs_digit_unit_info Ht). reflexivity. }
  split; [|split].
  - destruct s as [|c s]; [reflexivity|].
    unfold extract_units_from_description.
    assert (Hu : has_char Py.is_digit (Py.upper (String c s)) = false)
      by now rewrite has_digit_upper.
    rewrite (search_without _ _ _ needs_digit_units_weight Hu).
    rewrite (search_without _ _ _ needs_digit_units_x_un Hu).
    rewrite (search_without _ _ _ needs_digit_units_trailing Hu).
    rewrite (search_without _ _ _ needs_digit_units_un Hu).
    reflexivity.
  - now apply Hn.
  - rewrite (Hn s H), (Hn (collapse s)) by now apply collapse_without_digit.
    apply collapse_idem.
Qed.

Lemma digit_free_description_witness :
  extract_units_from_description "  TRUFA   AO LEITE " = Some 1
  /\ normalize_description "  TRUFA   AO LEITE "
     = collapse "  TRUFA   AO LEITE "
  /\ normalize_description (normalize_description "  TRUFA   AO LEITE ")
     = normalize_description "  TRUFA   AO LEITE ".
Proof.
  apply (digit_free_description "  TRUFA   AO LEITE "). reflexivity.
Defined.

(** X7.  The multiplier.  The multiplier read from a description is
    never negative, whatever the description. *)
Theorem units_never_negative :
  forall (description : string) (units : Z),
    extract_units_from_description description = Some units -> 0 <= units.
Proof. intros s u. apply extract_units_nonneg. Qed.

Lemma units_never_negative_witness :
  extract_units_from_description "tablete 100gx15un x 15" = Some 15
  /\ 0 <= 15.
Proof.
  split; [vm_compute; reflexivity|].
  apply (units_never_negative "tablete 100gx15un x 15" 15).
  vm_compute. reflexivity.
Defined.
End NormalizerExtras.

(* ================================================================== *)
(** * Quantity aggregator: documents and invariants *)
(* ================================================================== *)

Section AggregatorExtras.
Import PDFParserService TransformationService AggregatorSpec ParserSpec.
Import Occurrences Documents ReSpec.

Lemma fold_merge_readable (parse : document -> result) docs acc :
  parse None = empty_result ->
  fold_left (fun acc pdf_content => merge_result acc (parse pdf_content))
    docs acc
  = fold_left (fun acc pdf_content => merge_result acc (parse pdf_content))
      (filter readable docs) acc.
Proof.
  intros Hp. revert acc. induction docs as [|d docs IH]; intros acc; simpl;
    auto.
  destruct d as [lines|]; simpl; [apply IH|].
  rewrite Hp. apply IH.
Qed.

(** X8.  Unreadable documents.  A document whose text cannot be
    extracted contributes nothing: [_process_pdfs] gives the same two
    dictionaries, in the same order, as on the readable documents
    alone. *)
Theorem unreadable_documents_ignored :
  forall nf_pdfs pedido_pdfs : list document,
    _process_pdfs nf_pdfs pedido_pdfs
    = _process_pdfs (filter readable nf_pdfs) (filter readable pedido_pdfs).
Proof.
  intros nfs peds. unfold _process_pdfs.
  rewrite (fold_merge_readable parse_nf_pdf nfs) by reflexivity.
  now rewrite (fold_merge_readable parse_pedido_pdf peds) by reflexivity.
Qed.

Lemma in_dict_get (V : Type) (d : dict V) k v :
  NoDup (Dict.keys d) -> In (k, v) d -> Dict.get k d = Some v.
Proof.
  unfold Dict.keys. induction d as [|[k' v'] d IH]; simpl; [tauto|].
  intros Hnd [H | H].
  - injection H as -> ->. now rewrite String.eqb_refl.
  - inversion Hnd as [|? ? Hnot Hnd']; subst.
    destruct (String.eqb k k') eqn:E; auto.
    apply String.eqb_eq in E. subst k'.
    exfalso. apply Hnot. change k with (fst (k, v)). now apply in_map.
Qed.

Lemma merge_item_well_formed ds acc k q :
  well_formed acc -> 0 <= q -> Dict.get k ds <> None ->
  well_formed (merge_item ds acc (k, q)).
Proof.
  unfold well_formed, merge_item. destruct acc as [aq ad]. simpl.
  intros (Hk & Hnd & Hq) Hq0 Hds.
  destruct (Dict.get k aq) as [q0|] eqn:Eq.
  - assert (Ead : Dict.get k ad <> None).
    { intros E. apply get_none_keys in E. rewrite <- Hk in E.
      apply get_none_keys in E. congruence. }
    destruct (Dict.get k ad); [|congruence]. simpl.
    split; [|split].
    + rewrite keys_set_present; [auto | congruence].
    + now apply nodup_keys_set.
    + intros c v. rewrite get_set. destruct (String.eqb c k); [|apply Hq].
      intros [= <-]. specialize (Hq _ _ Eq). lia.
  - assert (Ead : Dict.get k ad = None).
    { apply get_none_keys. rewrite <- Hk. now apply get_none_keys. }
    rewrite Ead. destruct (Dict.get k ds); [|congruence]. simpl.
    split; [|split].
    + rewrite !keys_set_absent; auto. now rewrite Hk.
    + now apply nodup_keys_set.
    + intros c v. rewrite get_set. destruct (String.eqb c k); [|apply Hq].
      now intros [= <-].
Qed.

Lemma merge_result_well_formed acc r :
  well_formed acc -> well_formed r -> well_formed (merge_result acc r).
Proof.
  intros Ha (Hk & Hnd & Hq). destruct r as [qs ds]. simpl in *.
  unfold merge_result.
  assert (Hitems : forall k q, In (k, q) qs ->
                               0 <= q /\ Dict.get k ds <> None).
  { intros k q Hin. split.
    - apply (Hq k). now apply in_dict_get.
    - intros E. apply get_none_keys in E. rewrite <- Hk in E.
      apply E. change k with (fst (k, q)). now apply in_map. }
  clear Hk Hnd Hq. revert acc Ha.
  induction qs as [|[k q] qs IH]; intros acc Ha; simpl; auto.
  apply IH.
  - intros k' q' Hin. apply Hitems. now right.
  - destruct (Hitems k q (or_introl eq_refl)).
    now apply merge_item_well_formed.
Qed.

Lemma aggregate_well_formed acc rs :
  well_formed acc -> Forall well_formed rs -> well_formed (aggregate acc rs).
Proof.
  intros Ha H. revert acc Ha. unfold aggregate.
  induction H as [|r rs Hr _ IH]; intros acc Ha; simpl; auto.
  apply IH. now apply merge_result_well_formed.
Qed.

Lemma parsed_well_formed nfs peds : Forall well_formed (parsed nfs peds).
Proof.
  unfold parsed. apply Forall_app. split; apply Forall_forall;
    intros r Hin; apply in_map_iff in Hin; destruct Hin as (d & <- & _).
  - apply parse_nf_pdf_well_formed.
  - apply parse_pedido_pdf_well_formed.
Qed.

Lemma aggregate_quantity_docs acc rs c :
  Forall well_formed rs ->
  Dict.get c (fst (aggregate acc rs))
  = fold_left add_hit (flat_map (quantity_in c) rs) (Dict.get c (fst acc)).
Proof.
  intros H. rewrite aggregate_quantity. f_equal.
  induction H as [|r rs (_ & Hnd & _) _ IH]; simpl; auto.
  rewrite IH. f_equal. unfold quantity_in. now apply hits_unique.
Qed.

Lemma total_none_flat_map (A : Type) (f : A -> list Z) l :
  sum_of (flat_map f l) <> None -> exists a, In a l /\ f a <> [].
Proof.
  induction l as [|a l IH]; simpl; [congruence|].
  destruct (f a) eqn:E.
  - simpl. intros H. destruct (IH H) as (b & Hb & Hf). eauto.
  - intros _. exists a. split; auto. congruence.
Qed.

Lemma process_pdfs_keys_product nfs peds c :
  In c (Dict.keys (fst (_process_pdfs nfs peds))) -> product_code c = true.
Proof.
  intros Hkey0.
  destruct (Dict.get c (fst (_process_pdfs nfs peds))) as [q|] eqn:Hc;
    [|now apply get_none_keys in Hc].
  rewrite process_pdfs_aggregate in Hc.
  rewrite aggregate_quantity_docs in Hc by apply parsed_well_formed.
  simpl in Hc. rewrite fold_add_hit_total in Hc.
  destruct (total_none_flat_map _ (quantity_in c) (parsed nfs peds))
    as (r & Hin & Hr); [congruence|].
  unfold quantity_in in Hr.
  destruct (Dict.get c (fst r)) eqn:Eg; [|congruence].
  assert (Hkey : In c (Dict.keys (fst r))).
  { destruct (in_dec string_dec c (Dict.keys (fst r))); auto.
    apply get_none_keys in n. congruence. }
  unfold parsed in Hin. apply in_app_or in Hin.
  destruct Hin as [Hin | Hin]; apply in_map_iff in Hin;
    destruct Hin as (d & <- & _).
  - now apply (parse_nf_key_product d).
  - now apply (parse_pedido_key_product d).
Qed.

(** X9.  The aggregate.  The two dictionaries [_process_pdfs] returns
    have the same keys in the same order, each once, so that every code
    with a pending quantity has a description; no quantity is negative;
    every key is a product code (seven digits, the first one 1 or 2). *)
Theorem process_pdfs_invariant :
  forall nf_pdfs pedido_pdfs : list document,
    let r := _process_pdfs nf_pdfs pedido_pdfs in
    Dict.keys (fst r) = Dict.keys (snd r)
    /\ NoDup (Dict.keys (fst r))
    /\ (forall c q, Dict.get c (fst r) = Some q ->
                    0 <= q /\ Dict.get c (snd r) <> None
                    /\ product_code c = true).
Proof.
  intros nfs peds r. subst r. rewrite process_pdfs_aggregate.
  destruct (aggregate_well_formed empty_result (parsed nfs peds)
              well_formed_empty (parsed_well_formed nfs peds))
    as (Hk & Hnd & Hq).
  split; [exact Hk|]. split; [exact Hnd|].
  intros c q Hc. split; [eapply Hq; eauto|]. split.
  - intros E. apply get_none_keys in E. rewrite <- Hk in E.
    apply get_none_keys in E. congruence.
  - apply (process_pdfs_keys_product nfs peds).
    rewrite process_pdfs_aggregate.
    destruct (in_dec string_dec c
                (Dict.keys (fst (aggregate empty_result (parsed nfs peds)))));
      auto.
    apply get_none_keys in n. congruence.
Qed.

(** X10.  The aggregate, code by code.  The pending quantity
    [_process_pdfs] gives a code is the sum of the quantities that the
    parsed documents give it, the invoice documents and then the order
    documents; a code that no document has is not a key. *)
Theorem process_pdfs_quantity_is_sum :
  forall (nf_pdfs pedido_pdfs : list document) (c : string),
    Dict.get c (fst (_process_pdfs nf_pdfs pedido_pdfs))
    = sum_of (flat_map (quantity_in c) (parsed nf_pdfs pedido_pdfs)).
Proof.
  intros nfs peds c. rewrite process_pdfs_aggregate.
  rewrite aggregate_quantity_docs by apply parsed_well_formed.
  apply fold_add_hit_total.
Qed.
End AggregatorExtras.

(* ================================================================== *)
(** * Reconciliation: injection, invariants and edge cases *)
(* ================================================================== *)

Section MergeExtras.
Import ComparisonService Spec RowSpec SortSpec RankingSpec Num.

Variable add : Z -> Z -> Z.
Hypothesis add_exact : exact_add add.

Lemma merge_rows weekly inv :
  rows (_compare_and_merge add weekly inv)
  = (map (fun row => set_cod_loja (first_cod_loja inv)
                       (update_row add inv row))
       (rows weekly)
     ++ map new_row (filter (is_new (rows weekly)) inv))%list.
Proof.
  unfold _compare_and_merge, is_new. rewrite map_map.
  destruct (map new_row _); simpl; auto. now rewrite app_nil_r.
Qed.

Lemma enrich_fields inv row r :
  codigo (enrich inv row r) = codigo r
  /\ estoque (enrich inv row r) = estoque r
  /\ pedido (enrich inv row r) = pedido r
  /\ total (enrich inv row r) = total r
  /\ saidas (enrich inv row r) = saidas r.
Proof.
  unfold enrich. destruct (isna_or_empty (grupo row)); auto.
  destruct (truthy _ || truthy _); simpl; auto 6.
Qed.

Lemma update_row_kept inv row :
  codigo (update_row add inv row) = codigo row
  /\ pedido (update_row add inv row) = pedido row
  /\ saidas (update_row add inv row) = saidas row.
Proof.
  unfold update_row. destruct (Dict.get _ _) as [q|].
  - destruct (enrich_fields inv row
                (if differs (estoque row) q
                 then set_estoque_total (Some q)
                        (Some (add q (or_zero (pedido row)))) row
                 else row)) as (-> & _ & -> & _ & ->).
    now destruct (differs (estoque row) q).
  - now destruct (differs (estoque row) 0).
Qed.

Lemma update_row_codigo inv row :
  codigo (update_row add inv row) = codigo row.
Proof. apply update_row_kept. Qed.

Lemma merged_codes weekly inv :
  map codigo (rows (_compare_and_merge add weekly inv))
  = (map codigo (rows weekly)
     ++ map cod_produto (filter (is_new (rows weekly)) inv))%list.
Proof.
  rewrite merge_rows, map_app, !map_map. f_equal.
  apply map_ext. intros row. simpl. apply update_row_codigo.
Qed.

(** X11.  New products.  The merged frame has one row for each row of
    the weekly report, in the order of the report and with its code,
    pending quantity and outbound quantity, followed by one new row for
    each row of the inventory whose code the weekly report does not
    have, in the order of the inventory: the code, description and
    store code of the inventory row, the texts of its group code and
    group label joined by " - " and trimmed of stray separators as
    group, its quantity as on-hand and as total, a null pending
    quantity and 0 as outbound.  The codes of the merged frame are the
    codes of the weekly report and of the inventory. *)
Theorem new_products_injected :
  forall (weekly : Frame) (inv : list InvRow),
    let out := rows (_compare_and_merge add weekly inv) in
    let n := List.length (rows weekly) in
    List.length out
    = (n + List.length (filter (is_new (rows weekly)) inv))%nat
    /\ map (fun r => (codigo r, pedido r, saidas r)) (firstn n out)
       = map (fun r => (codigo r, pedido r, saidas r)) (rows weekly)
    /\ Forall2
         (fun inv_row r =>
            cod_loja r = inv_cod_loja inv_row
            /\ codigo r = cod_produto inv_row
            /\ descricao r = desc_produto inv_row
            /\ (exists g,
                   grupo r = CStr g
                   /\ trimmed (py_str (cod_grupo inv_row) ++ " - "
                               ++ py_str (desc_grupo inv_row)) g)
            /\ estoque r = Some (quantidade inv_row)
            /\ pedido r = None
            /\ total r = Some (quantidade inv_row)
            /\ saidas r = Some 0
            /\ saidas_vd r = None
            /\ saidas_total r = None)
         (filter (is_new (rows weekly)) inv) (skipn n out)
    /\ (forall c, In c (map codigo out)
                  <-> In c (map codigo (rows weekly))
                      \/ In c (map cod_produto inv)).
Proof.
  intros weekly inv out n. subst out n.
  assert (Hlen : List.length
                   (map (fun row => set_cod_loja (first_cod_loja inv)
                                      (update_row add inv row)) (rows weekly))
                 = List.length (rows weekly)) by apply length_map.
  split; [|split; [|split]].
  - now rewrite merge_rows, length_app, !length_map.
  - rewrite merge_rows. rewrite <- Hlen at 1.
    rewrite firstn_app, Nat.sub_diag, firstn_all, firstn_O, app_nil_r.
    rewrite map_map. apply map_ext. intros row. simpl.
    destruct (update_row_kept inv row) as (-> & -> & ->). reflexivity.
  - rewrite merge_rows. rewrite <- Hlen at 1.
    rewrite skipn_app, Nat.sub_diag, skipn_all, skipn_O. simpl.
    induction (filter (is_new (rows weekly)) inv) as [|r l IH]; simpl;
      constructor; auto.
    repeat split; auto.
    exists (format_grupo (cod_grupo r) (desc_grupo r)). split; auto.
    apply format_grupo_trimmed.
  - intros c. rewrite merged_codes, in_app_iff. split.
    + intros [H | H]; auto. right.
      apply in_map_iff in H. destruct H as (r & <- & Hr).
      apply filter_In in Hr. apply in_map. tauto.
    + intros [H | H]; auto.
      destruct (in_dec string_dec c (map codigo (rows weekly))); auto.
      right. apply in_map_iff in H. destruct H as (r & <- & Hr).
      apply in_map, filter_In. split; auto.
      unfold is_new. apply negb_true_iff, in_set_false. exact n.
Qed.

Lemma nodup_map_filter (A : Type) (f : A -> string) (p : A -> bool) l :
  NoDup (map f l) -> NoDup (map f (filter p l)).
Proof.
  induction l as [|a l IH]; simpl; auto.
  intros H. inversion H as [|? ? Hnot Hnd]; subst.
  destruct (p a); simpl; auto. constructor; auto.
  intros Hin. apply Hnot. apply in_map_iff in Hin.
  destruct Hin as (b & Hb & Hf). apply filter_In in Hf.
  rewrite <- Hb. apply in_map. tauto.
Qed.

(** X12.  Unique codes.  When the codes of the weekly report are
    pairwise different and so are the codes of the inventory, the codes
    of the merged frame are pairwise different, and stay so through the
    sort. *)
Theorem merged_codes_unique :
  forall (weekly : Frame) (inv : list InvRow),
    NoDup (map codigo (rows weekly)) ->
    NoDup (map cod_produto inv) ->
    NoDup (map codigo (rows (_compare_and_merge add weekly inv)))
    /\ NoDup (map codigo
                (rows (_apply_sorting (_compare_and_merge add weekly inv)))).
Proof.
  intros weekly inv Hw Hi.
  assert (H : NoDup (map codigo (rows (_compare_and_merge add weekly inv)))).
  { rewrite merged_codes. apply NoDup_app; auto.
    - now apply nodup_map_filter.
    - intros c Hc Hin. apply in_map_iff in Hin.
      destruct Hin as (r & <- & Hr). apply filter_In in Hr.
      destruct Hr as [_ Hr]. unfold is_new in Hr.
      apply negb_true_iff, in_set_false in Hr. contradiction. }
  split; auto.
  eapply Permutation_NoDup; [|exact H].
  apply Permutation_map. simpl. apply stable_sort_perm.
Qed.





(** X14.  Empty inventory.  With an inventory without rows, [compare]
    returns no store code and the store name "Unknown", never merges the
    ranking, and writes the rows of the weekly report, sorted, each with
    a null store code and an on-hand of 0; the total of a row whose
    on-hand was not 0 is its pending quantity (0 when null). *)
Theorem compare_empty_inventory :
  forall (weekly : Frame) (mazza : option (list MazzaRow)),
    let out := compare add weekly [] mazza in
    snd (fst out) = None
    /\ snd out = "Unknown"
    /\ out = compare add weekly [] None
    /\ Permutation
         (map (fun row =>
                 set_cod_loja CNull
                   (if differs (estoque row) 0
                    then set_estoque_total (Some 0)
                           (Some (or_zero (pedido row))) row
                    else row))
            (rows weekly))
         (rows (fst (fst out)))
    /\ Forall (fun r => estoque r = Some 0 /\ cod_loja r = CNull)
         (rows (fst (fst out))).
Proof.
  intros weekly mazza out. subst out.
  assert (E : compare add weekly [] mazza = compare add weekly [] None)
    by now destruct mazza.
  rewrite E. repeat split.
  - unfold compare. cbn [fst snd rows _apply_sorting].
    eapply perm_trans; [|apply stable_sort_perm].
    rewrite merge_rows. simpl. rewrite app_nil_r. apply Permutation_refl.
  - unfold compare. cbn [fst snd rows _apply_sorting].
    eapply Permutation_Forall; [apply stable_sort_perm|].
    rewrite merge_rows. simpl. rewrite app_nil_r.
    apply Forall_map, Forall_forall. intros row _.
    unfold update_row. simpl.
    destruct (estoque row) as [v|] eqn:Ev; simpl; auto.
    destruct (Z.eqb_spec v 0); simpl; auto. split; auto.
    rewrite Ev. congruence.
Qed.

Lemma insert_sorted_last r l :
  Forall (fun x => row_le x r) l -> insert_sorted r l = (l ++ [r])%list.
Proof.
  induction 1 as [|x l Hx _ IH]; simpl; auto.
  unfold row_le in Hx. now rewrite Hx, IH.
Qed.

Lemma fold_insert_sorted_input l acc :
  StronglySorted row_le (acc ++ l) ->
  fold_left (fun acc r => insert_sorted r acc) l acc = (acc ++ l)%list.
Proof.
  revert acc. induction l as [|r l IH]; intros acc H; simpl.
  - now rewrite app_nil_r.
  - rewrite insert_sorted_last.
    + rewrite IH; rewrite <- app_assoc; auto.
    + clear IH. induction acc as [|x acc IHa]; constructor.
      * simpl in H. inversion H as [|? ? _ Hall]; subst.
        rewrite Forall_forall in Hall. apply Hall.
        apply in_or_app. right. now left.
      * apply IHa. simpl in H. now inversion H.
Qed.

(** X15.  The sort is stable and idempotent.  A frame whose rows are
    already in the order of the sort is left as it is by
    [_apply_sorting], rows that the order does not separate keeping
    their places; hence sorting twice is sorting once. *)
Theorem apply_sorting_idempotent :
  forall df : Frame,
    (StronglySorted row_le (rows df) -> _apply_sorting df = df)
    /\ _apply_sorting (_apply_sorting df) = _apply_sorting df.
Proof.
  intros df.
  assert (H : forall f, StronglySorted row_le (rows f) ->
                        _apply_sorting f = f).
  { intros [cols rs] Hs. unfold _apply_sorting, stable_sort. simpl in *.
    now rewrite fold_insert_sorted_input. }
  split; [apply H|]. apply H. simpl. apply stable_sort_sorted.
Qed.
End MergeExtras.



Lemma merged_codes_unique_witness :
  NoDup (map ComparisonService.codigo
           (ComparisonService.rows
              (ComparisonService._compare_and_merge Num.float64_add
                 MergeScenario.weekly (MergeScenario.inventory "6835"))))
  /\ NoDup (map ComparisonService.codigo
              (ComparisonService.rows
                 (ComparisonService._apply_sorting
                    (ComparisonService._compare_and_merge Num.float64_add
                       MergeScenario.weekly
                       (MergeScenario.inventory "6835"))))).
Proof.
  apply (merged_codes_unique Num.float64_add MergeScenario.weekly
           (MergeScenario.inventory "6835")).
  - simpl. repeat constructor; simpl; intuition discriminate.
  - simpl. repeat constructor; simpl; intuition discriminate.
Defined.


Lemma apply_sorting_idempotent_witness :
  ComparisonService._apply_sorting
    (ComparisonService.mkFrame MergeScenario.weekly_columns
       SortScenario.sorted_rows)
  = ComparisonService.mkFrame MergeScenario.weekly_columns
      SortScenario.sorted_rows.
Proof.
  apply (proj1 (apply_sorting_idempotent _)).
  simpl. repeat constructor; reflexivity.
Defined.

Section RankingExtras.
Import ComparisonService Spec RowSpec SortSpec RankingSpec Occurrences Num.

Variable add : Z -> Z -> Z.
Hypothesis add_exact : exact_add add.











End RankingExtras.


Section ColumnExtras.
Import ComparisonService RankingSpec.

Variable add : Z -> Z -> Z.

Lemma in_add_column x y cols :
  In x (add_column y cols) <-> In x cols \/ x = y.
Proof.
  unfold add_column. destruct (in_set y cols) eqn:E.
  - apply in_set_In in E. split; auto. intros [H | ->]; auto.
  - rewrite in_app_iff. simpl. intuition.
Qed.

Lemma in_concat_columns x a b :
  In x (concat_columns a b) <-> In x a \/ In x b.
Proof.
  unfold concat_columns. revert a.
  induction b as [|y b IH]; intros a; simpl; [tauto|].
  rewrite IH, in_add_column. intuition.
Qed.

Lemma in_remove_first x y cols :
  x <> y -> In x (remove_first y cols) <-> In x cols.
Proof.
  intros Hne. induction cols as [|c cols IH]; simpl; [tauto|].
  destruct (String.eqb c y) eqn:E.
  - apply String.eqb_eq in E. subst c. intuition congruence.
  - simpl. now rewrite IH.
Qed.

Lemma in_insert_at x n y cols : In x cols -> In x (insert_at n y cols).
Proof.
  revert cols. induction n as [|n IH]; intros cols H; simpl; auto.
  destruct cols as [|c cols]; simpl in *; [tauto|].
  destruct H; auto.
Qed.

Lemma index_of_split x cols :
  In x cols ->
  exists pre post, cols = (pre ++ x :: post)%list
                   /\ index_of x cols = List.length pre.
Proof.
  induction cols as [|c cols IH]; simpl; [tauto|].
  intros H. destruct (String.eqb c x) eqn:E.
  - apply String.eqb_eq in E. subst c. now exists [], cols.
  - destruct H as [-> | H]; [now rewrite String.eqb_refl in E|].
    destruct (IH H) as (pre & post & -> & Hi).
    exists (c :: pre), post. simpl. now rewrite Hi.
Qed.

Lemma insert_at_split pre y rest :
  insert_at (List.length pre) y (pre ++ rest) = (pre ++ y :: rest)%list.
Proof. induction pre as [|c pre IH]; simpl; [now destruct rest|]. now rewrite IH. Qed.

Lemma in_mazza_columns x cols appended :
  In x cols -> x <> "Saídas VD" -> x <> "Saídas Total" ->
  In x (mazza_columns cols appended).
Proof.
  intros H H1 H2. unfold mazza_columns.
  set (c1 := add_column "Saídas Total" (add_column "Saídas VD" cols)).
  set (c2 := if appended then concat_columns c1 mazza_row_columns else c1).
  assert (Hc2 : In x c2).
  { assert (In x c1) by (unfold c1; rewrite !in_add_column; auto).
    unfold c2. destruct appended; auto. rewrite in_concat_columns. auto. }
  destruct (in_set "Sugestão" c2 && in_set "Saídas" c2); auto.
  do 2 apply in_insert_at. now rewrite !in_remove_first.
Qed.

Lemma merged_has_cod_loja weekly inv :
  In "Cód. Loja" (columns (_compare_and_merge add weekly inv)).
Proof.
  unfold _compare_and_merge.
  assert (H : In "Cód. Loja" (add_column "Cód. Loja" (columns weekly)))
    by (rewrite in_add_column; auto).
  destruct (map new_row _); cbn [columns]; auto.
  rewrite in_concat_columns. auto.
Qed.

(** X17.  The layout of the columns.  The first label of the frame that
    [compare] writes is "Cód. Loja", whatever the labels of the weekly
    report; and when the frame given to [_merge_mazza_report] has the
    labels "Sugestão" and "Saídas", the labels of its result have
    "Saídas VD" and "Saídas Total", in this order, just before
    "Sugestão". *)
Theorem column_layout :
  (forall weekly inv mazza,
      exists others,
        columns (fst (fst (compare add weekly inv mazza)))
        = "Cód. Loja" :: others)
  /\ (forall df mazza_df store_code,
         In "Sugestão" (columns df) -> In "Saídas" (columns df) ->
         exists before rest,
           columns (_merge_mazza_report add df mazza_df store_code)
           = (before ++ "Saídas VD" :: "Saídas Total" :: "Sugestão" :: rest)
               %list).
Proof.
  split.
  - intros weekly inv mazza.
    assert (Hs : In "Cód. Loja"
                   (columns (_apply_sorting
                               (_compare_and_merge add weekly inv))))
      by apply merged_has_cod_loja.
    assert (H : forall f, In "Cód. Loja" (columns f) ->
                          exists others,
                            cod_loja_first (columns f) = "Cód. Loja" :: others).
    { intros f Hf. unfold cod_loja_first.
      apply in_set_In in Hf. rewrite Hf. eauto. }
    unfold compare. cbn [fst snd columns].
    destruct mazza as [m|]; destruct inv as [|r inv];
      try (apply (H (_apply_sorting (_compare_and_merge add weekly _)));
           exact Hs).
    destruct (String.eqb (py_str (inv_cod_loja r)) designated_store).
    + apply (H (_merge_mazza_report add _ m _)).
      unfold _merge_mazza_report. destruct (fold_left _ _ _). simpl.
      apply in_mazza_columns; [exact Hs | discriminate | discriminate].
    + apply (H (_apply_sorting (_compare_and_merge add weekly _))). exact Hs.
  - intros df mazza sc Hsug Hsai.
    unfold _merge_mazza_report. destruct (fold_left _ _ _) as [rs ex].
    simpl. unfold mazza_columns.
    set (c1 := add_column "Saídas Total" (add_column "Saídas VD" (columns df))).
    set (c2 := if (_ <? _)%nat then concat_columns c1 mazza_row_columns
               else c1).
    assert (Hin : forall x, In x (columns df) -> In x c2).
    { intros x Hx.
      assert (In x c1) by (unfold c1; rewrite !in_add_column; auto).
      unfold c2. destruct (_ <? _)%nat; auto.
      rewrite in_concat_columns. auto. }
    rewrite (proj2 (in_set_In "Sugestão" c2) (Hin _ Hsug)).
    rewrite (proj2 (in_set_In "Saídas" c2) (Hin _ Hsai)). simpl.
    set (c3 := remove_first "Saídas Total" (remove_first "Saídas VD" c2)).
    assert (H3 : In "Sugestão" c3).
    { unfold c3. rewrite !in_remove_first by discriminate. now apply Hin. }
    destruct (index_of_split _ _ H3) as (pre & post & E & Hi).
    rewrite Hi, E, !insert_at_split. now exists pre, post.
Qed.
End ColumnExtras.

Lemma column_layout_witness :
  exists before rest,
    ComparisonService.columns
      (ComparisonService._merge_mazza_report Num.int64_add
         (ComparisonService._compare_and_merge Num.int64_add
            MergeScenario.weekly (MergeScenario.inventory "1225"))
         MergeScenario.ranking "1225")
    = (before ++ "Saídas VD" :: "Saídas Total" :: "Sugestão" :: rest)%list.
Proof.
  apply (proj2 (column_layout Num.int64_add)
           (ComparisonService._compare_and_merge Num.int64_add
              MergeScenario.weekly (MergeScenario.inventory "1225"))
           MergeScenario.ranking "1225").
  - vm_compute. tauto.
  - vm_compute. tauto.
Defined.

(* ================================================================== *)
(** * The final report of the transformation *)
(* ================================================================== *)

Section FinalReport.
Import ComparisonService TransformationReport RowSpec Spec Num.

Variable set_iter : list string -> list string.
Variable sort_values : list Row -> list Row.
Variable add : Z -> Z -> Z.
Variable cast : Z -> Z.

(** What is known of the two orders: a set is iterated once per
    element, and sorting permutes the rows; and of the numbers: sums
    and conversions are exact up to the magnitude 2^53. *)
Hypothesis set_iter_elements :
  forall l, NoDup (set_iter l) /\ forall x, In x (set_iter l) <-> In x l.
Hypothesis sort_values_permutes :
  forall l, Permutation l (sort_values l).
Hypothesis add_exact : exact_add add.
Hypothesis cast_exact : exact_cast cast.

Lemma report_rows_permutation df pq pd :
  Permutation
    (map (report_row add cast pq)
       (df ++ map (new_src_row pd)
                (set_iter (filter (fun c => negb (in_set c (map src_codigo df)))
                             (Dict.keys pq)))))
    (rows (_create_final_report set_iter sort_values add cast df pq pd)).
Proof.
  unfold _create_final_report. simpl.
  eapply perm_trans; [|apply sort_values_permutes].
  destruct (set_iter _); simpl; auto. now rewrite app_nil_r.
Qed.






End FinalReport.

Lemma nodup_elements (l : list string) :
  NoDup (nodup string_dec l) /\ forall x, In x (nodup string_dec l) <-> In x l.
Proof. split; [apply NoDup_nodup | intros x; apply nodup_In]. Qed.





(* ================================================================== *)
(** * The name of the file *)
(* ================================================================== *)

Section FileName.
Import Reports.

Lemma forallb_string_cons p c s :
  forallb p (list_ascii_of_string (String c s))
  = p c && forallb p (list_ascii_of_string s).
Proof. reflexivity. Qed.

Lemma safe_store_name_allowed s :
  forallb allowed (list_ascii_of_string (safe_store_name s)) = true.
Proof.
  unfold safe_store_name. induction s as [|c s IH]; simpl; auto.
  destruct (is_alnum c || Py.is_one_of " _-" c) eqn:E; auto.
  simpl. rewrite IH, andb_true_r.
  destruct (Ascii.eqb c " ") eqn:Es; [reflexivity|].
  unfold allowed. apply orb_true_iff in E. apply orb_true_iff.
  destruct E as [E | E]; auto. right.
  unfold Py.is_one_of in *. simpl in *. rewrite Es in E. exact E.
Qed.

Lemma keep_allowed s :
  forallb allowed (list_ascii_of_string s) = true ->
  safe_store_name s = s.
Proof.
  unfold safe_store_name. induction s as [|c s IH]; simpl; auto.
  intros H. apply andb_true_iff in H. destruct H as [Hc Hs].
  assert (Hk : is_alnum c || Py.is_one_of " _-" c = true).
  { unfold allowed in Hc. apply orb_true_iff in Hc. apply orb_true_iff.
    destruct Hc as [Hc | Hc]; auto. right.
    unfold Py.is_one_of in *. simpl in *.
    destruct (Ascii.eqb c " "); auto. }
  rewrite Hk. simpl. rewrite (IH Hs). f_equal.
  destruct (Ascii.eqb c " ") eqn:Es; auto.
  apply Ascii.eqb_eq in Es. subst c. discriminate.
Qed.

Lemma allowed_plain c :
  allowed c = true ->
  Py.is_space c = false /\ c <> "/"%char /\ c <> "\"%char /\ c <> "."%char.
Proof.
  destruct c as [[] [] [] [] [] [] [] []]; intros H;
    try discriminate H; repeat split; try reflexivity; discriminate.
Qed.

(** X20.  The name of the file.  The part of the file name that comes
    from the name of the store has only letters, digits, "_" and "-":
    no whitespace, no "/", no "\" and no "."; a name made of such
    characters is kept as it is, so that sanitizing twice is sanitizing
    once and [_generate_filename] gives the same name for a store name
    and for its sanitized form. *)
Theorem filename_store_name_safe :
  forall (today : string) (store_code : option string) (store_name : string),
    (forall c, In c (list_ascii_of_string (safe_store_name store_name)) ->
               allowed c = true /\ Py.is_space c = false
               /\ c <> "/"%char /\ c <> "\"%char /\ c <> "."%char)
    /\ safe_store_name (safe_store_name store_name)
       = safe_store_name store_name
    /\ _generate_filename today store_code (safe_store_name store_name)
       = _generate_filename today store_code store_name.
Proof.
  intros today code name.
  pose proof (safe_store_name_allowed name) as H.
  assert (Hi : safe_store_name (safe_store_name name) = safe_store_name name)
    by now apply keep_allowed.
  split; [|split]; auto.
  - intros c Hc. rewrite forallb_forall in H. specialize (H c Hc).
    split; auto. now apply allowed_plain.
  - unfold _generate_filename. now rewrite Hi.
Qed.

Example filename_example :
  _generate_filename "2026-01-26" (Some "6835")
    "MG UBERLANDIA SH/PATIO (SABIA) n.1"
  = "relatorio_processado_2026-01-26_loja_6835_MG_UBERLANDIA_SHPATIO_SABIA_n1.xlsx".
Proof. vm_compute. reflexivity. Qed.
End FileName.

(* ================================================================== *)
(** * From the documents to the final report *)
(* ================================================================== *)

Section Process.
Import ComparisonService TransformationReport TransformationService.
Import PDFParserService ParserSpec ReSpec Spec Num.

Variable set_iter : list string -> list string.
Variable sort_values : list Row -> list Row.
Variable add : Z -> Z -> Z.
Variable cast : Z -> Z.
Hypothesis set_iter_elements :
  forall l, NoDup (set_iter l) /\ forall x, In x (set_iter l) <-> In x l.
Hypothesis sort_values_permutes :
  forall l, Permutation l (sort_values l).
Hypothesis add_exact : exact_add add.
Hypothesis cast_exact : exact_cast cast.

(** X21.  New products of the documents.  A code to which the documents
    give a pending quantity of at most 2^53 and that the sheet does not
    have gets, in the report that [process] builds, a row with that
    quantity as pending and as total, 0 as on-hand and as outbound, an
    empty group and the description that the aggregation kept for it:
    the fallback "Produto <code>" is never used.  The code is a product
    code and the quantity is not negative. *)
Theorem process_new_products :
  forall (df : list SrcRow) (nf_pdfs pedido_pdfs : list document)
         (c : string) (q : Z),
    Dict.get c (fst (_process_pdfs nf_pdfs pedido_pdfs)) = Some q ->
    ~ In c (map src_codigo df) ->
    q <= 2 ^ 53 ->
    exists dsc,
      Dict.get c (snd (_process_pdfs nf_pdfs pedido_pdfs)) = Some dsc
      /\ In (mkRow CNull c (Some dsc) (CStr "") (Some 0) (Some q) (Some q)
               (Some 0) None None)
           (rows (process set_iter sort_values add cast df nf_pdfs
                    pedido_pdfs))
      /\ product_code c = true
      /\ 0 <= q.
Proof.
  intros df nfs peds c q Hq Hn Hle.
  destruct (aggregate_well_formed empty_result
              (AggregatorSpec.parsed nfs peds)
              well_formed_empty (parsed_well_formed nfs peds))
    as (Hk & Hnd & Hpos).
  rewrite <- process_pdfs_aggregate in Hk, Hnd, Hpos.
  assert (Hq0 : 0 <= q) by (eapply Hpos; eauto).
  assert (Hsafe : safe q) by (unfold safe; lia).
  assert (Hkey : In c (Dict.keys (fst (_process_pdfs nfs peds)))).
  { destruct (in_dec string_dec c (Dict.keys (fst (_process_pdfs nfs peds))));
      auto.
    apply get_none_keys in n. congruence. }
  destruct (Dict.get c (snd (_process_pdfs nfs peds))) as [dsc|] eqn:Ed.
  2:{ apply get_none_keys in Ed. rewrite <- Hk in Ed. contradiction. }
  exists dsc. split; [reflexivity|]. split; [|split]; auto.
  - unfold process.
    destruct (_process_pdfs nfs peds) as [pq pd] eqn:Ep. simpl in *.
    eapply Permutation_in;
      [apply (report_rows_permutation set_iter sort_values add cast
                sort_values_permutes)|].
    assert (E : report_row add cast pq (new_src_row pd c)
                = mkRow CNull c (Some dsc) (CStr "") (Some 0) (Some q)
                    (Some q) (Some 0) None None).
    { unfold report_row, new_src_row, get_default. simpl.
      rewrite Hq, Ed. simpl. rewrite (cast_exact q Hsafe).
      rewrite (add_exact 0 q); auto using safe_zero. }
    rewrite <- E. apply in_map.
    apply in_or_app. right. apply in_map.
    apply (proj2 (set_iter_elements _)), filter_In. split; auto.
    apply negb_true_iff, in_set_false. exact Hn.
  - pose proof (process_pdfs_keys_product nfs peds c) as Hp. auto.
Qed.
End Process.

Lemma process_new_products_witness :
  exists dsc,
    Dict.get "2345678"
      (snd (TransformationService._process_pdfs
              [AggregatorScenario.D1; AggregatorScenario.D2] []))
    = Some dsc
    /\ In (ComparisonService.mkRow ComparisonService.CNull "2345678"
             (Some dsc) (ComparisonService.CStr "") (Some 0) (Some 1)
             (Some 1) (Some 0) None None)
         (ComparisonService.rows
            (TransformationReport.process (nodup string_dec) (fun l => l)
               Num.float64_add Num.round_float64
               ReportScenario.sheet
               [AggregatorScenario.D1; AggregatorScenario.D2] []))
    /\ ReSpec.product_code "2345678" = true
    /\ 0 <= 1.
Proof.
  apply (process_new_products (nodup string_dec) (fun l => l)
           Num.float64_add Num.round_float64
           nodup_elements (fun l => Permutation_refl l)
           float64_add_exact round_float64_exact
           ReportScenario.sheet
           [AggregatorScenario.D1; AggregatorScenario.D2] [] "2345678" 1).
  - vm_compute. reflexivity.
  - simpl. intuition discriminate.
  - vm_compute. discriminate.
Defined.
